(** * Stock historical data download: the streaming route and the form page

    A shallow embedding of [src/app/api/stock-data/route.ts] (the [POST]
    handler that loops over ticker symbols, asks the provider for quotes
    and historical rows and multiplexes progress / complete / error
    blocks on one event stream) and of [handleSubmit] of
    [src/app/page.tsx] (the form controller that posts the request and
    parses that stream).

    Conventions.
    - JavaScript strings are [string]s holding their UTF-8 bytes, so
      that [TextEncoder.encode] and [TextDecoder.decode] are the identity.
    - Values the code never computes with (IEEE doubles, [Date] objects,
      the provider's quote object) are opaque types of a [Platform];
      only the operations the code applies to them are named.
    - An [async] function is a state-and-exception computation over a
      [World] that records, in order, every observable call the handler
      makes (timers, provider requests, console, stream writer).
    - The provider, the CSV serialiser and the platform are parameters
      of the handler.
    - What differs from one JavaScript engine to the next (the text of
      the messages of [JSON.parse] and of the [TypeError]s, the error a
      closed writer rejects with, which number literals are zero) is an
      [Engine]; nothing is proved from a message spelt out here.
    - The request body is the JSON value [req.json()] resolves to,
      whatever its shape; [StockDataRequest] is the view of the bodies
      whose [symbols] is an array of strings, and what iterating any
      other truthy [symbols] does is left to an [Untyped] parameter.
    - The consumer of the response body may go away: [gone] of the
      [World] says after how many accepted chunks, and from then on the
      writer rejects.

    The file has the definitions first (modules [Js], [Json], [Route],
    [Json2csv], [Csv], [Page], [Wire], [Sample]), then the facts about
    them. *)

From Stdlib Require Import List String Ascii Arith Bool Lia.
From Stdlib Require Import DecimalString.
From Stdlib Require DecimalNat.
Import ListNotations.
Open Scope string_scope.
Set Warnings "-register-all".

(* ------------------------------------------------------------------ *)
(** ** JavaScript values and string primitives used by both files      *)
(* ------------------------------------------------------------------ *)

Module Js.

Definition LF : ascii := "010"%char.
Definition CR : ascii := "013"%char.
Definition DQUOTE : ascii := "034"%char.
Definition BACKSLASH : ascii := "092"%char.

Definition str (c : ascii) : string := String c EmptyString.

(** [Array.prototype.join]. *)
Fixpoint join (sep : string) (xs : list string) : string :=
  match xs with
  | [] => ""
  | [x] => x
  | x :: rest => x ++ sep ++ join sep rest
  end.

(** [s.startsWith(searchString)]. *)
Fixpoint startsWith (searchString s : string) : bool :=
  match searchString with
  | EmptyString => true
  | String c p =>
      match s with
      | String d r => Ascii.eqb c d && startsWith p r
      | EmptyString => false
      end
  end.

(** Truthiness of a string: only the empty string is falsy. *)
Definition truthy (s : string) : bool := negb (s =? "").

(** Truthiness of a possibly [undefined] string. *)
Definition truthy_opt (s : option string) : bool :=
  match s with
  | None => false
  | Some s => truthy s
  end.

(** A text that can stand in a CSV line without quotes: no delimiter,
    no quote, no line break. *)
Definition bare_unit (c : ascii) : bool :=
  negb (Ascii.eqb c "," || Ascii.eqb c DQUOTE || Ascii.eqb c CR || Ascii.eqb c LF).

Fixpoint bare (s : string) : bool :=
  match s with
  | EmptyString => true
  | String c rest => bare_unit c && bare rest
  end.

(** [String(n)] for a non-negative integer. *)
Definition Number_toString (n : nat) : string :=
  NilEmpty.string_of_uint (Nat.to_uint n).

(** What a [throw] carries: an [Error] instance (with its [name] and
    [message]) or any other value. *)
Inductive Thrown : Type :=
| ErrorObject (name message : string)
| OtherValue (description : string).

Definition Error (message : string) : Thrown := ErrorObject "Error" message.
Definition TypeError (message : string) : Thrown := ErrorObject "TypeError" message.
Definition SyntaxError (message : string) : Thrown := ErrorObject "SyntaxError" message.

(** [error instanceof Error ? error.message : fallback]. *)
Definition message_or (fallback : string) (error : Thrown) : string :=
  match error with
  | ErrorObject _ message => message
  | OtherValue _ => fallback
  end.

(** The outcome of evaluating something that may throw (or of awaiting
    a promise that may reject). *)
Inductive Completion (A : Type) : Type :=
| Normal (value : A)
| Throw (error : Thrown).
Arguments Normal {A} value.
Arguments Throw {A} error.

(** What is left to the engine: the wording of the errors it throws,
    which differs between engines and versions, and the reading of a
    JSON number as a double, of which the code only asks whether it is
    zero.  [JSON_parse_message text] is the message of the
    [SyntaxError] that [JSON.parse(text)] throws; [null_property_message
    key] that of the [TypeError] of reading [key] of [null];
    [null_destructuring_message] that of destructuring [null];
    [not_iterable_message] that of iterating [undefined];
    [closed_stream_error] is what a writer rejects with once its stream
    is closed; [number_is_zero text] says whether the number that the
    JSON number [text] denotes is zero. *)
Class Engine : Type := {
  JSON_parse_message : string -> string;
  null_property_message : string -> string;
  null_destructuring_message : string;
  not_iterable_message : string;
  closed_stream_error : Thrown;
  number_is_zero : string -> bool
}.

(** *** [JSON.stringify] on the two object shapes the route serialises *)

Definition hex_digit (n : nat) : ascii :=
  nth n ["0"; "1"; "2"; "3"; "4"; "5"; "6"; "7"; "8"; "9";
         "a"; "b"; "c"; "d"; "e"; "f"]%char "0"%char.

(** The JSON escape of one code unit (ECMA-262, QuoteJSONString). *)
Definition escape_unit (c : ascii) : string :=
  let n := nat_of_ascii c in
  if (n =? 34)%nat then String BACKSLASH (str DQUOTE)
  else if (n =? 92)%nat then String BACKSLASH (str BACKSLASH)
  else if (n =? 8)%nat then String BACKSLASH "b"
  else if (n =? 12)%nat then String BACKSLASH "f"
  else if (n =? 10)%nat then String BACKSLASH "n"
  else if (n =? 13)%nat then String BACKSLASH "r"
  else if (n =? 9)%nat then String BACKSLASH "t"
  else if (n <? 32)%nat then
    String BACKSLASH ("u00" ++ String (hex_digit (n / 16)) (str (hex_digit (n mod 16))))
  else str c.

Fixpoint escape_units (s : string) : string :=
  match s with
  | EmptyString => ""
  | String c rest => escape_unit c ++ escape_units rest
  end.

Definition stringify_string (s : string) : string :=
  String DQUOTE (escape_units s ++ str DQUOTE).

(** One [key: value] member, the value already serialised. *)
Definition member (key value : string) : string :=
  stringify_string key ++ ":" ++ value.

(** An object literal: members whose value is [undefined] ([None]) are
    left out, as [JSON.stringify] does. *)
Definition stringify_object (members : list (string * option string)) : string :=
  "{" ++ join "," (flat_map (fun kv =>
                      match snd kv with
                      | Some v => [member (fst kv) v]
                      | None => []
                      end) members) ++ "}".

End Js.

(* ------------------------------------------------------------------ *)
(** ** JSON values, [JSON.parse] and the string methods the page calls *)
(* ------------------------------------------------------------------ *)

Module Json.
Import Js.

(** A parsed JSON value.  A number is kept by its source text. *)
Inductive json : Type :=
| JNull
| JBool (b : bool)
| JNumber (source : string)
| JString (s : string)
| JArray (items : list json)
| JObject (members : list (string * json)).

Definition is_ws (c : ascii) : bool :=
  let n := nat_of_ascii c in
  ((n =? 32) || (n =? 9) || (n =? 10) || (n =? 13))%nat.

Fixpoint skip_ws (s : string) : string :=
  match s with
  | String c rest => if is_ws c then skip_ws rest else s
  | EmptyString => s
  end.

Definition is_digit (c : ascii) : bool :=
  let n := nat_of_ascii c in ((48 <=? n) && (n <=? 57))%nat.

Fixpoint take_digits (s : string) : string * string :=
  match s with
  | String c rest =>
      if is_digit c
      then let (ds, r) := take_digits rest in (String c ds, r)
      else ("", s)
  | EmptyString => ("", s)
  end.

Definition drop (n : nat) (s : string) : string :=
  substring n (String.length s - n) s.

(** The grammar of a JSON number; the text it spans and the rest. *)
Definition parse_number (s : string) : option (string * string) :=
  let (sign, s1) :=
    match s with
    | String "-"%char r => ("-", r)
    | _ => ("", s)
    end in
  let int :=
    match s1 with
    | String c r =>
        if Ascii.eqb c "0" then Some ("0", r)
        else if is_digit c then let (ds, r') := take_digits r in Some (String c ds, r')
        else None
    | EmptyString => None
    end in
  match int with
  | None => None
  | Some (i, s2) =>
      let frac :=
        match s2 with
        | String "."%char r =>
            let (ds, r') := take_digits r in
            if ds =? "" then None else Some ("." ++ ds, r')
        | _ => Some ("", s2)
        end in
      match frac with
      | None => None
      | Some (f, s3) =>
          let exp :=
            match s3 with
            | String e r =>
                if Ascii.eqb e "e" || Ascii.eqb e "E" then
                  let (sg, r1) :=
                    match r with
                    | String "+"%char r1 => ("+", r1)
                    | String "-"%char r1 => ("-", r1)
                    | _ => ("", r)
                    end in
                  let (ds, r2) := take_digits r1 in
                  if ds =? "" then None else Some (str e ++ sg ++ ds, r2)
                else Some ("", s3)
            | EmptyString => Some ("", s3)
            end in
          match exp with
          | None => None
          | Some (x, s4) => Some (sign ++ i ++ f ++ x, s4)
          end
      end
  end.

Definition hex_value (c : ascii) : option nat :=
  let n := nat_of_ascii c in
  if ((48 <=? n) && (n <=? 57))%nat then Some (n - 48)
  else if ((97 <=? n) && (n <=? 102))%nat then Some (n - 87)
  else if ((65 <=? n) && (n <=? 70))%nat then Some (n - 55)
  else None.

(** The UTF-8 bytes of a code unit of the basic plane. *)
Definition utf8 (n : nat) : string :=
  if (n <? 128)%nat then str (ascii_of_nat n)
  else if (n <? 2048)%nat then
    String (ascii_of_nat (192 + n / 64)) (str (ascii_of_nat (128 + n mod 64)))
  else
    String (ascii_of_nat (224 + n / 4096))
      (String (ascii_of_nat (128 + (n / 64) mod 64)) (str (ascii_of_nat (128 + n mod 64)))).

Definition simple_escape (e : ascii) : option ascii :=
  if Ascii.eqb e DQUOTE then Some DQUOTE
  else if Ascii.eqb e BACKSLASH then Some BACKSLASH
  else if Ascii.eqb e "/" then Some "/"%char
  else if Ascii.eqb e "b" then Some "008"%char
  else if Ascii.eqb e "f" then Some "012"%char
  else if Ascii.eqb e "n" then Some LF
  else if Ascii.eqb e "r" then Some CR
  else if Ascii.eqb e "t" then Some "009"%char
  else None.

Definition prepend (p : string) (r : option (string * string)) : option (string * string) :=
  match r with
  | Some (s, rest) => Some (p ++ s, rest)
  | None => None
  end.

(** The characters of a string literal after its opening quote: the
    string denoted and what follows the closing quote. *)
Fixpoint parse_string_body (s : string) : option (string * string) :=
  match s with
  | EmptyString => None
  | String c rest =>
      if Ascii.eqb c DQUOTE then Some ("", rest)
      else if Ascii.eqb c BACKSLASH then
        match rest with
        | String e rest1 =>
            if Ascii.eqb e "u" then
              match rest1 with
              | String h1 (String h2 (String h3 (String h4 rest2))) =>
                  match hex_value h1, hex_value h2, hex_value h3, hex_value h4 with
                  | Some a, Some b, Some c', Some d =>
                      prepend (utf8 (a * 4096 + b * 256 + c' * 16 + d))
                        (parse_string_body rest2)
                  | _, _, _, _ => None
                  end
              | _ => None
              end
            else
              match simple_escape e with
              | Some ch => prepend (str ch) (parse_string_body rest1)
              | None => None
              end
        | EmptyString => None
        end
      else if (nat_of_ascii c <? 32)%nat then None
      else prepend (str c) (parse_string_body rest)
  end.

Fixpoint parse_value (fuel : nat) (s : string) : option (json * string) :=
  match fuel with
  | O => None
  | S fuel =>
      match s with
      | EmptyString => None
      | String c rest =>
          if Ascii.eqb c "{" then
            match skip_ws rest with
            | String "}"%char r => Some (JObject [], r)
            | rest' =>
                match parse_members fuel rest' with
                | Some (ms, r) => Some (JObject ms, r)
                | None => None
                end
            end
          else if Ascii.eqb c "[" then
            match skip_ws rest with
            | String "]"%char r => Some (JArray [], r)
            | rest' =>
                match parse_elements fuel rest' with
                | Some (vs, r) => Some (JArray vs, r)
                | None => None
                end
            end
          else if Ascii.eqb c DQUOTE then
            match parse_string_body rest with
            | Some (v, r) => Some (JString v, r)
            | None => None
            end
          else if startsWith "true" s then Some (JBool true, drop 4 s)
          else if startsWith "false" s then Some (JBool false, drop 5 s)
          else if startsWith "null" s then Some (JNull, drop 4 s)
          else
            match parse_number s with
            | Some (n, r) => Some (JNumber n, r)
            | None => None
            end
      end
  end
with parse_elements (fuel : nat) (s : string) : option (list json * string) :=
  match fuel with
  | O => None
  | S fuel =>
      match parse_value fuel s with
      | Some (v, rest) =>
          match skip_ws rest with
          | String ","%char r =>
              match parse_elements fuel (skip_ws r) with
              | Some (vs, r') => Some (v :: vs, r')
              | None => None
              end
          | String "]"%char r => Some ([v], r)
          | _ => None
          end
      | None => None
      end
  end
with parse_members (fuel : nat) (s : string) : option (list (string * json) * string) :=
  match fuel with
  | O => None
  | S fuel =>
      match s with
      | String q rest =>
          if Ascii.eqb q DQUOTE then
            match parse_string_body rest with
            | Some (key, rest1) =>
                match skip_ws rest1 with
                | String ":"%char rest2 =>
                    match parse_value fuel (skip_ws rest2) with
                    | Some (v, rest3) =>
                        match skip_ws rest3 with
                        | String ","%char r =>
                            match parse_members fuel (skip_ws r) with
                            | Some (ms, r') => Some ((key, v) :: ms, r')
                            | None => None
                            end
                        | String "}"%char r => Some ([(key, v)], r)
                        | _ => None
                        end
                    | None => None
                    end
                | _ => None
                end
            | None => None
            end
          else None
      | EmptyString => None
      end
  end.

Section Parsing.
Context {engine : Engine}.

(** [JSON.parse(text)]: one value, white space around it, nothing
    else; otherwise a [SyntaxError] with the engine's message. *)
Definition JSON_parse (text : string) : Completion json :=
  match parse_value (2 * String.length text + 2) (skip_ws text) with
  | Some (v, rest) =>
      if skip_ws rest =? ""
      then Normal v
      else Throw (SyntaxError (JSON_parse_message text))
  | None => Throw (SyntaxError (JSON_parse_message text))
  end.

(** [data.key]: [undefined] ([None]) on anything but an object that has
    the key (the last member of that name counts); a [TypeError] on
    [null]. *)
Fixpoint lookup (key : string) (members : list (string * json)) : option json :=
  match members with
  | [] => None
  | (k, v) :: rest =>
      match lookup key rest with
      | Some v' => Some v'
      | None => if k =? key then Some v else None
      end
  end.

Definition property (data : json) (key : string) : Completion (option json) :=
  match data with
  | JNull => Throw (TypeError (null_property_message key))
  | JObject members => Normal (lookup key members)
  | _ => Normal None
  end.

(** Truthiness of a value that may be [undefined] ([None]): [undefined],
    [null], [false], zero and the empty string are falsy, everything
    else (every array and object too) is truthy. *)
Definition truthy_value (v : option json) : bool :=
  match v with
  | None => false
  | Some JNull => false
  | Some (JBool b) => b
  | Some (JNumber source) => negb (number_is_zero source)
  | Some (JString s) => truthy s
  | Some (JArray _) => true
  | Some (JObject _) => true
  end.

End Parsing.

(** The count a JSON number written in decimal digits stands for. *)
Definition natural (v : json) : option nat :=
  match v with
  | JNumber source => option_map Nat.of_uint (NilEmpty.uint_of_string source)
  | _ => None
  end.

(** [String.prototype.split] with a non-empty separator. *)
Fixpoint split_from (sep : string) (skip : nat) (cur : string) (s : string) : list string :=
  match s with
  | EmptyString => [cur]
  | String c rest =>
      match skip with
      | S k => split_from sep k cur rest
      | O =>
          if startsWith sep s
          then cur :: split_from sep (String.length sep - 1) "" rest
          else split_from sep 0 (cur ++ str c) rest
      end
  end.

Definition split (sep s : string) : list string := split_from sep 0 "" s.

(** [String.prototype.replace] with a string pattern: the first
    occurrence only. *)
Fixpoint replace (pattern replacement s : string) : string :=
  if startsWith pattern s then replacement ++ drop (String.length pattern) s
  else
    match s with
    | EmptyString => ""
    | String c rest => String c (replace pattern replacement rest)
    end.

End Json.

(* ------------------------------------------------------------------ *)
(** ** The route: [src/app/api/stock-data/route.ts]                    *)
(* ------------------------------------------------------------------ *)

Module Route.
Import Js.

(** Values the handler only passes along.  [Date_new] is [new Date(v)]
    on whatever the body holds for a date ([None]: [undefined]).  [Number_text] is [String(n)], what the
    CSV serialiser prints for a number; its alphabet is that of
    Number::toString (digits, sign, point, exponent, [NaN],
    [Infinity]), hence [Number_text_bare].  [Date_text] is
    [JSON.stringify(d)] with its outer quotes stripped, the text the
    serialiser quotes for a [Date]. *)
Class Platform : Type := {
  JsNumber : Type;
  JsDate : Type;
  QuoteResult : Type;
  Date_new : option Json.json -> JsDate;
  Number_text : JsNumber -> string;
  Number_text_bare : forall n, bare (Number_text n) = true;
  Date_text : JsDate -> string
}.

Section Handler.
Context {engine : Engine} {platform : Platform}.

(** [interface StockDataRequest]: a body whose [symbols], when it is
    there, is an array of strings.  A member the body lacks is [None];
    the dates and the interval are whatever JSON value the body holds
    for them, which nothing checks to be a string. *)
Record StockDataRequest : Type := {
  symbols : option (list string);
  startDate : option Json.json;
  endDate : option Json.json;
  interval : option Json.json
}.

(** [interface ProgressUpdate]. *)
Record ProgressUpdate : Type := {
  type : string;
  current : nat;
  total : nat;
  error : option string
}.

(** [interface HistoricalDataItem]. *)
Record HistoricalDataItem : Type := {
  date : JsDate;
  open : JsNumber;
  high : JsNumber;
  low : JsNumber;
  close : JsNumber;
  volume : JsNumber;
  adjClose : option JsNumber
}.

(** [{ ...item, symbol }]. *)
Record ResultWithSymbol : Type := {
  item : HistoricalDataItem;
  symbol : string
}.

(** [queryOptions]. *)
Record QueryOptions : Type := {
  period1 : JsDate;
  period2 : JsDate;
  interval_option : option Json.json
}.

(** The provider ([yahoo-finance2]) is an external service: it may
    throw, and it need not answer the same symbol the same way twice.
    The first argument of each call is the number of symbols the loop
    has finished before it (the position of the iteration). *)
Record Provider : Type := {
  quote : nat -> string -> Completion (option QuoteResult);
  historical : nat -> string -> QueryOptions -> Completion (list HistoricalDataItem)
}.

(** Every observable call, in program order. *)
Inductive Action : Type :=
| SetTimeout (ms : nat)
| QuoteRequest (symbol : string)
| HistoricalRequest (symbol : string) (queryOptions : QueryOptions)
| ConsoleError (label : string) (error : Thrown)
| ParserParse (fields : list string) (data : list ResultWithSymbol)
| NewTransformStream
| WriterWrite (chunk : string)
| WriterClose
| UnhandledRejection (error : Thrown).

(** [trace]: the calls made so far; [readable]: the chunks the writer
    accepted, i.e. the response body so far; [closed]: the writable side
    has been closed; [gone]: when the consumer of the body goes away.
    [gone k = Some e] says that it is gone once [k] chunks have been
    accepted: the readable side is cancelled, and the writer rejects
    with [e] from then on. *)
Record World : Type := {
  trace : list Action;
  readable : list string;
  closed : bool;
  gone : nat -> option Thrown
}.

(** A consumer that stays until the end. *)
Definition stays : nat -> option Thrown := fun _ => None.

(** Before the request, with a given consumer. *)
Definition opened (consumer : nat -> option Thrown) : World :=
  {| trace := []; readable := []; closed := false; gone := consumer |}.

Definition initial : World := opened stays.

Definition log (a : Action) (w : World) : World :=
  {| trace := trace w ++ [a]; readable := readable w; closed := closed w; gone := gone w |}.

(** An [async] computation. *)
Definition Async (A : Type) : Type := World -> Completion A * World.

Definition ret {A} (a : A) : Async A := fun w => (Normal a, w).

Definition bind {A B} (m : Async A) (k : A -> Async B) : Async B :=
  fun w =>
    match m w with
    | (Normal a, w') => k a w'
    | (Throw e, w') => (Throw e, w')
    end.

Definition throw {A} (e : Thrown) : Async A := fun w => (Throw e, w).

Definition try_catch {A} (body : Async A) (handler : Thrown -> Async A) : Async A :=
  fun w =>
    match body w with
    | (Normal a, w') => (Normal a, w')
    | (Throw e, w') => handler e w'
    end.

Definition perform (a : Action) : Async unit := fun w => (Normal tt, log a w).

Definition await {A} (c : Completion A) : Async A := fun w => (c, w).

Notation "x <- m ;; k" := (bind m (fun x => k))
  (at level 61, m at next level, right associativity).
Notation "m ;; k" := (bind m (fun _ => k))
  (at level 61, right associativity).

(** [const delay = (ms) => new Promise(resolve => setTimeout(resolve, ms))]. *)
Definition delay (ms : nat) : Async unit := perform (SetTimeout ms).

Definition console_error (label : string) (error : Thrown) : Async unit :=
  perform (ConsoleError label error).

(** [writer.write(chunk)] and [writer.close()] of a stream whose
    readable side is consumed by the response.  Both reject once the
    consumer is gone, with what the stream was cancelled with, and
    once the stream is closed; otherwise they are accepted.  A call
    that rejects is a call made: it is in the trace. *)
Definition writer_write (chunk : string) : Async unit :=
  fun w =>
    match gone w (List.length (readable w)) with
    | Some e => (Throw e, log (WriterWrite chunk) w)
    | None =>
        if closed w
        then (Throw closed_stream_error, log (WriterWrite chunk) w)
        else (Normal tt,
              {| trace := trace w ++ [WriterWrite chunk];
                 readable := readable w ++ [chunk];
                 closed := false;
                 gone := gone w |})
    end.

Definition writer_close : Async unit :=
  fun w =>
    match gone w (List.length (readable w)) with
    | Some e => (Throw e, log WriterClose w)
    | None =>
        if closed w
        then (Throw closed_stream_error, log WriterClose w)
        else (Normal tt,
              {| trace := trace w ++ [WriterClose];
                 readable := readable w;
                 closed := true;
                 gone := gone w |})
    end.

(** An [async] function called and not awaited: its effects happen, a
    rejection is nobody's to handle. *)
Definition spawn (detached : Async unit) : Async unit :=
  fun w =>
    match detached w with
    | (Normal _, w') => (Normal tt, w')
    | (Throw e, w') => (Normal tt, log (UnhandledRejection e) w')
    end.

(** A [symbols] that passes the guard without being an array of
    strings (a string, an array with other entries, an object with a
    [length]) is outside [StockDataRequest].  What the detached function
    then does is not spelt out: [beyond body] stands for the calls it
    makes, its writes taken as accepted. *)
Class Untyped : Type := {
  beyond : Json.json -> list Action
}.
Context {untyped : Untyped}.

Definition written (a : Action) : list string :=
  match a with
  | WriterWrite chunk => [chunk]
  | _ => []
  end.

Definition closes (a : Action) : bool :=
  match a with
  | WriterClose => true
  | _ => false
  end.

Definition replay (script : list Action) : Async unit :=
  fun w =>
    (Normal tt,
     {| trace := trace w ++ script;
        readable := readable w ++ flat_map written script;
        closed := closed w || existsb closes script;
        gone := gone w |}).

Variable yahooFinance : Provider.

(** [new Parser({ fields }).parse(data)] of [json2csv]. *)
Variable Parser_parse : list string -> list ResultWithSymbol -> Completion string.

Definition yahooFinance_quote (i : nat) (symbol : string) : Async (option QuoteResult) :=
  perform (QuoteRequest symbol) ;; await (quote yahooFinance i symbol).

Definition yahooFinance_historical (i : nat) (symbol : string) (queryOptions : QueryOptions)
  : Async (list HistoricalDataItem) :=
  perform (HistoricalRequest symbol queryOptions) ;;
  await (historical yahooFinance i symbol queryOptions).

(** The text of one block: [`event: ${name}\ndata: ${data}\n\n`]. *)
Definition block (name data : string) : string :=
  "event: " ++ name ++ str LF ++ "data: " ++ data ++ str LF ++ str LF.

Definition JSON_stringify_progress (u : ProgressUpdate) : string :=
  stringify_object
    [("type", Some (stringify_string (type u)));
     ("current", Some (Number_toString (current u)));
     ("total", Some (Number_toString (total u)));
     ("error", option_map stringify_string (error u))].

Definition JSON_stringify_error (errorMessage : string) : string :=
  stringify_object [("error", Some (stringify_string errorMessage))].

Definition JSON_stringify_message (message : string) : string :=
  stringify_object [("message", Some (stringify_string message))].

(** Lines 70-73: [item => ({ ...item, symbol })]. *)
Definition withSymbol (symbol : string) (item : HistoricalDataItem) : ResultWithSymbol :=
  {| item := item; symbol := symbol |}.

(** The three variables the loop updates (lines 55-57). *)
Record Locals : Type := {
  allResults : list ResultWithSymbol;
  processedCount : nat;
  failedSymbols : list string
}.

(** Lines 61-74: the body of the inner [try]; it ends in
    [allResults.push(...resultWithSymbol)]. *)
Definition fetchSymbol (queryOptions : QueryOptions) (symbol : string) (v : Locals)
  : Async Locals :=
  delay 1000 ;;
  quote <- yahooFinance_quote (processedCount v) symbol ;;
  match quote with
  | None => throw (Error "Invalid symbol")
  | Some _ =>
      result <- yahooFinance_historical (processedCount v) symbol queryOptions ;;
      let resultWithSymbol := map (withSymbol symbol) result in
      ret {| allResults := allResults v ++ resultWithSymbol;
             processedCount := processedCount v;
             failedSymbols := failedSymbols v |}
  end.

(** Lines 81-88. *)
Definition progressUpdate (total : nat) (v : Locals) : ProgressUpdate :=
  {| type := "progress";
     current := processedCount v;
     total := total;
     error := if (0 <? List.length (failedSymbols v))%nat
              then Some ("Failed to fetch: " ++ join ", " (failedSymbols v))
              else None |}.

(** Lines 60-92: one iteration of [for (const symbol of symbols)]. *)
Definition iteration (total : nat) (queryOptions : QueryOptions) (symbol : string)
  (v : Locals) : Async Locals :=
  v <- try_catch (fetchSymbol queryOptions symbol v)
         (fun error =>
            console_error ("Error fetching data for symbol " ++ symbol ++ ":") error ;;
            ret {| allResults := allResults v;
                   processedCount := processedCount v;
                   failedSymbols := failedSymbols v ++ [symbol] |}) ;;
  let v := {| allResults := allResults v;
              processedCount := S (processedCount v);
              failedSymbols := failedSymbols v |} in
  writer_write (block "progress" (JSON_stringify_progress (progressUpdate total v))) ;;
  ret v.

Fixpoint forOf (total : nat) (queryOptions : QueryOptions) (symbols : list string)
  (v : Locals) : Async Locals :=
  match symbols with
  | [] => ret v
  | symbol :: rest =>
      v <- iteration total queryOptions symbol v ;;
      forOf total queryOptions rest v
  end.

Definition fields : list string :=
  ["symbol"; "date"; "open"; "high"; "low"; "close"; "volume"; "adjClose"].

(** The iteration protocol on an array that may be [undefined]. *)
Definition iterate (symbols : option (list string)) : Async (list string) :=
  match symbols with
  | Some l => ret l
  | None => throw (TypeError not_iterable_message)
  end.

(** Lines 49-53. *)
Definition queryOptions (r : StockDataRequest) : QueryOptions :=
  {| period1 := Date_new (startDate r);
     period2 := Date_new (endDate r);
     interval_option := interval r |}.

Definition parser_parse (fields : list string) (data : list ResultWithSymbol)
  : Async string :=
  perform (ParserParse fields data) ;; await (Parser_parse fields data).

(** Lines 55-57: the loop variables before the first iteration. *)
Definition start : Locals :=
  {| allResults := []; processedCount := 0; failedSymbols := [] |}.

(** Lines 47-113: the body of the detached [async] function. *)
Definition streamTask (r : StockDataRequest) : Async unit :=
  try_catch
    (let queryOptions := queryOptions r in
     let v := start in
     l <- iterate (symbols r) ;;
     v <- forOf (List.length l) queryOptions l v ;;
     if (List.length (allResults v) =? 0)%nat
     then throw (Error "No valid data retrieved for any symbols")
     else
       csv <- parser_parse fields (allResults v) ;;
       writer_write (block "complete" csv) ;;
       writer_close)
    (fun error =>
       console_error "Error processing data:" error ;;
       let errorMessage := message_or "An error occurred" error in
       writer_write (block "error" (JSON_stringify_error errorMessage)) ;;
       writer_close).

(** [NextResponse.json(body, { status })], or [new Response(stream.readable,
    { headers })], whose status is the default 200. *)
Inductive Response : Type :=
| NextResponse_json (body : string) (status : nat)
| StreamResponse (status : nat) (headers : list (string * string)).

(** Line 34, [const { symbols, startDate, endDate, interval } = body]:
    what the name [key] is bound to.  It is [undefined] ([None]) unless
    the body is an object that has the member; destructuring [null]
    throws. *)
Definition binding (body : Json.json) (key : string) : option Json.json :=
  match body with
  | Json.JObject members => Json.lookup key members
  | _ => None
  end.

Definition destructure (body : Json.json) : Async unit :=
  match body with
  | Json.JNull => throw (TypeError null_destructuring_message)
  | _ => ret tt
  end.

(** Whether [symbols?.length] is truthy: an array or a string has a
    length, an object has the one it holds as a member, anything else
    has none. *)
Definition has_length (symbols : option Json.json) : bool :=
  match symbols with
  | Some (Json.JArray items) => negb (List.length items =? 0)%nat
  | Some (Json.JString s) => truthy s
  | Some (Json.JObject members) => Json.truthy_value (Json.lookup "length" members)
  | _ => false
  end.

(** Line 36: [!symbols?.length || !startDate || !endDate]. *)
Definition missing (body : Json.json) : bool :=
  negb (has_length (binding body "symbols"))
  || negb (Json.truthy_value (binding body "startDate"))
  || negb (Json.truthy_value (binding body "endDate")).

(** The entries of an array all of whose entries are strings. *)
Fixpoint strings (items : list Json.json) : option (list string) :=
  match items with
  | [] => Some []
  | Json.JString s :: rest =>
      match strings rest with
      | Some l => Some (s :: l)
      | None => None
      end
  | _ :: _ => None
  end.

(** The body as a [StockDataRequest], when its [symbols] is an array
    of strings. *)
Definition typed (body : Json.json) : option StockDataRequest :=
  match binding body "symbols" with
  | Some (Json.JArray items) =>
      match strings items with
      | Some l =>
          Some {| symbols := Some l;
                  startDate := binding body "startDate";
                  endDate := binding body "endDate";
                  interval := binding body "interval" |}
      | None => None
      end
  | _ => None
  end.

(** Lines 47-113, called and not awaited. *)
Definition detached (body : Json.json) : Async unit :=
  match typed body with
  | Some r => streamTask r
  | None => replay (beyond body)
  end.

(** The request as the handler sees it: what [await req.json()] gives,
    any JSON value, unless it rejects. *)
Record Request : Type := {
  json : Completion Json.json
}.

(** Lines 32-129. *)
Definition POST (req : Request) : Async Response :=
  try_catch
    (body <- await (json req) ;;
     destructure body ;;
     if missing body
     then ret (NextResponse_json (JSON_stringify_message "Missing required fields") 400)
     else
       perform NewTransformStream ;;
       spawn (detached body) ;;
       ret (StreamResponse 200
              [("Content-Type", "text/event-stream");
               ("Cache-Control", "no-cache");
               ("Connection", "keep-alive")]))
    (fun error =>
       console_error "Error fetching stock data:" error ;;
       ret (NextResponse_json (JSON_stringify_message "Failed to fetch stock data") 500)).

(** The body of a [StockDataRequest]: the members that are there. *)
Definition present (key : string) (v : option Json.json) : list (string * Json.json) :=
  match v with
  | Some v => [(key, v)]
  | None => []
  end.

Definition bodyOf (r : StockDataRequest) : Json.json :=
  Json.JObject
    (present "symbols" (option_map (fun l => Json.JArray (map Json.JString l)) (symbols r))
     ++ present "startDate" (startDate r)
     ++ present "endDate" (endDate r)
     ++ present "interval" (interval r)).

(** The guard of line 36 on the body of a [StockDataRequest]. *)
Definition missingRequiredFields (r : StockDataRequest) : bool := missing (bodyOf r).

(** *** What a run is measured against

    The notions below are read off the provider alone; the theorems
    relate what the handler writes to them. *)

(** What the provider gives for the symbol of iteration [i]: its rows
    when the quote is there and the historical call returns; nothing
    when the quote is missing or either call throws. *)
Definition attempt (queryOptions : QueryOptions) (i : nat) (symbol : string)
  : option (list HistoricalDataItem) :=
  match quote yahooFinance i symbol with
  | Normal (Some _) =>
      match historical yahooFinance i symbol queryOptions with
      | Normal result => Some result
      | Throw _ => None
      end
  | Normal None => None
  | Throw _ => None
  end.

(** A turn: the position of an iteration and its symbol. *)
Definition Turn : Type := (nat * string)%type.

Definition turns (i : nat) (symbols : list string) : list Turn :=
  combine (seq i (List.length symbols)) symbols.

Definition failed (queryOptions : QueryOptions) (t : Turn) : bool :=
  match attempt queryOptions (fst t) (snd t) with
  | Some _ => false
  | None => true
  end.

Definition rowsOf (queryOptions : QueryOptions) (t : Turn) : list ResultWithSymbol :=
  match attempt queryOptions (fst t) (snd t) with
  | Some result => map (withSymbol (snd t)) result
  | None => []
  end.


(** The loop variables after some more turns. *)
Definition advance (queryOptions : QueryOptions) (v : Locals) (ts : list Turn) : Locals :=
  {| allResults := allResults v ++ flat_map (rowsOf queryOptions) ts;
     processedCount := processedCount v + List.length ts;
     failedSymbols := failedSymbols v ++ map snd (filter (failed queryOptions) ts) |}.

(** The loop variables of request [r] once [j] of its symbols [l] are done. *)
Definition localsAfter (r : StockDataRequest) (l : list string) (j : nat) : Locals :=
  advance (queryOptions r) start (firstn j (turns 0 l)).

(** The calls of one turn before its progress write. *)
Definition turnCalls (queryOptions : QueryOptions) (t : Turn) : list Action :=
  let label := "Error fetching data for symbol " ++ snd t ++ ":" in
  SetTimeout 1000 :: QuoteRequest (snd t) ::
  match quote yahooFinance (fst t) (snd t) with
  | Throw e => [ConsoleError label e]
  | Normal None => [ConsoleError label (Error "Invalid symbol")]
  | Normal (Some _) =>
      HistoricalRequest (snd t) queryOptions ::
      match historical yahooFinance (fst t) (snd t) queryOptions with
      | Throw e => [ConsoleError label e]
      | Normal _ => []
      end
  end.

Definition progressBlock (total : nat) (v : Locals) : string :=
  block "progress" (JSON_stringify_progress (progressUpdate total v)).

(** The calls of the loop over some more turns, each turn ending in
    its progress write. *)
Fixpoint loopCalls (total : nat) (queryOptions : QueryOptions) (v : Locals)
  (ts : list Turn) : list Action :=
  match ts with
  | [] => []
  | t :: rest =>
      let v' := advance queryOptions v [t] in
      turnCalls queryOptions t ++ [WriterWrite (progressBlock total v')]
        ++ loopCalls total queryOptions v' rest
  end.

(** The progress blocks of the loop over some more turns: the [j]-th
    shows the loop variables after [j] of them. *)
Definition progressBlocks (total : nat) (queryOptions : QueryOptions) (v : Locals)
  (ts : list Turn) : list string :=
  map (fun j => progressBlock total (advance queryOptions v (firstn j ts)))
    (seq 1 (List.length ts)).

(** The last block of a stream whose loop ended with [rows]
    accumulated, and the calls that produce it. *)
Definition errorBlock (error : Thrown) : string :=
  block "error" (JSON_stringify_error (message_or "An error occurred" error)).

Definition noData : Thrown := Error "No valid data retrieved for any symbols".

Definition lastBlock (rows : list ResultWithSymbol) : string :=
  match rows with
  | [] => errorBlock noData
  | _ :: _ =>
      match Parser_parse fields rows with
      | Normal csv => block "complete" csv
      | Throw e => errorBlock e
      end
  end.

Definition giveUp (error : Thrown) : list Action :=
  [ConsoleError "Error processing data:" error; WriterWrite (errorBlock error); WriterClose].

Definition lastCalls (rows : list ResultWithSymbol) : list Action :=
  match rows with
  | [] => giveUp noData
  | _ :: _ =>
      ParserParse fields rows ::
      match Parser_parse fields rows with
      | Normal csv => [WriterWrite (block "complete" csv); WriterClose]
      | Throw e => giveUp e
      end
  end.

Definition streamHeaders : list (string * string) :=
  [("Content-Type", "text/event-stream");
   ("Cache-Control", "no-cache");
   ("Connection", "keep-alive")].

(** The block is one of the named event. *)
Definition isEvent (name chunk : string) : bool :=
  startsWith ("event: " ++ name ++ str LF) chunk.



Definition isClose (a : Action) : bool :=
  match a with
  | WriterClose => true
  | _ => false
  end.

Definition isUnhandled (a : Action) : bool :=
  match a with
  | UnhandledRejection _ => true
  | _ => false
  end.

Definition isParserParse (a : Action) : bool :=
  match a with
  | ParserParse _ _ => true
  | _ => false
  end.

(** The response, the response body and the calls of a request served
    from scratch. *)
Definition response (req : Request) : Completion Response := fst (POST req initial).

Definition body (req : Request) : list string := readable (snd (POST req initial)).

Definition calls (req : Request) : list Action := trace (snd (POST req initial)).

Definition parsed (r : StockDataRequest) : Request := {| json := Normal (bodyOf r) |}.

End Handler.

End Route.

(* ------------------------------------------------------------------ *)
(** ** The CSV serialiser the route calls ([json2csv], default options) *)
(* ------------------------------------------------------------------ *)

Module Json2csv.
Import Js Route.

Section Parser.
Context {platform : Platform}.

(** [os.EOL], the serialiser's default end of line: LF or CR LF. *)
Inductive OS : Type := Posix | Windows.

Definition EOL (os : OS) : string :=
  match os with
  | Posix => str LF
  | Windows => String CR (str LF)
  end.

(** What a field of a row holds. *)
Inductive Value : Type :=
| VUndefined
| VString (s : string)
| VNumber (n : JsNumber)
| VDate (d : JsDate).

(** [row[field]] on [{ ...item, symbol }]. *)
Definition get (row : ResultWithSymbol) (field : string) : Value :=
  if field =? "symbol" then VString (symbol row)
  else if field =? "date" then VDate (date (item row))
  else if field =? "open" then VNumber (open (item row))
  else if field =? "high" then VNumber (high (item row))
  else if field =? "low" then VNumber (low (item row))
  else if field =? "close" then VNumber (close (item row))
  else if field =? "volume" then VNumber (volume (item row))
  else if field =? "adjClose" then
    match adjClose (item row) with
    | Some n => VNumber n
    | None => VUndefined
    end
  else VUndefined.

(** [value.replace(new RegExp(quote, 'g'), escapedQuote)]: every quote
    is doubled. *)
Fixpoint escapeQuotes (s : string) : string :=
  match s with
  | EmptyString => ""
  | String c rest =>
      if Ascii.eqb c DQUOTE
      then String DQUOTE (String DQUOTE (escapeQuotes rest))
      else String c (escapeQuotes rest)
  end.

Definition quoted (s : string) : string :=
  String DQUOTE (escapeQuotes s ++ str DQUOTE).

(** [processValue]: [undefined] stays [undefined] ([None]); a number is
    printed bare; a string, and the JSON text of a [Date] with its outer
    quotes stripped, is quoted. *)
Definition processValue (v : Value) : option string :=
  match v with
  | VUndefined => None
  | VString s => Some (quoted s)
  | VNumber n => Some (Number_text n)
  | VDate d => Some (quoted (Date_text d))
  end.

(** [fastJoin]: an [undefined] element joins as the empty string. *)
Definition fastJoin (cells : list (option string)) (delimiter : string) : string :=
  join delimiter (map (fun c => match c with Some s => s | None => "" end) cells).

Definition delimiter : string := ",".

Definition getHeader (fields : list string) : string :=
  fastJoin (map (fun label => processValue (VString label)) fields) delimiter.

(** [processRow]: a row all of whose cells are [undefined] is left out. *)
Definition processRow (fields : list string) (row : ResultWithSymbol) : option string :=
  let processedRow := map (fun field => processValue (get row field)) fields in
  if forallb (fun c => match c with None => true | Some _ => false end) processedRow
  then None
  else Some (fastJoin processedRow delimiter).

(** [processData]: rows that came out [undefined] or empty are dropped. *)
Definition processData (os : OS) (fields : list string) (data : list ResultWithSymbol)
  : string :=
  join (EOL os)
    (flat_map (fun row =>
                 match processRow fields row with
                 | Some text => if truthy text then [text] else []
                 | None => []
                 end) data).

(** [parse]. *)
Definition parse (os : OS) (fields : list string) (data : list ResultWithSymbol)
  : string :=
  let header := getHeader fields in
  let rows := processData os fields data in
  header ++ (if truthy header && truthy rows then EOL os else "") ++ rows.

Definition Parser_parse (os : OS) (fields : list string) (data : list ResultWithSymbol)
  : Completion string :=
  Normal (parse os fields data).

(** *** What the serialiser's output is measured against *)

(** The text a cell stands for: what a reader of the CSV should get
    back for it. *)
Definition cellValue (v : Value) : string :=
  match v with
  | VUndefined => ""
  | VString s => s
  | VNumber n => Number_text n
  | VDate d => Date_text d
  end.

(** The text of a cell as it is written. *)
Definition cellText (v : Value) : string :=
  match processValue v with
  | Some s => s
  | None => ""
  end.

(** One line: its cells joined by the delimiter. *)
Definition lineText (vs : list Value) : string :=
  fastJoin (map processValue vs) delimiter.

(** The values of the cells of a row, in the order of [fields]. *)
Definition rowValues (fields : list string) (row : ResultWithSymbol) : list string :=
  map (fun field => cellValue (get row field)) fields.

End Parser.
End Json2csv.

(* ------------------------------------------------------------------ *)
(** ** A reader of CSV text (RFC 4180), to say what a CSV text holds    *)
(* ------------------------------------------------------------------ *)

Module Csv.
Import Js.

Inductive Mode : Type :=
| Plain       (* in an unquoted field, possibly at its start *)
| InQuotes    (* inside a quoted field *)
| QuoteSeen   (* after a quote inside a quoted field *)
| AfterCR.    (* a CR has just ended a record *)

Record Reader : Type := {
  mode : Mode;
  field : string;             (* the field read so far *)
  record : list string;       (* the fields of the record read so far *)
  records : list (list string)
}.

Definition start : Reader :=
  {| mode := Plain; field := ""; record := []; records := [] |}.

Definition push (c : ascii) (m : Mode) (r : Reader) : Reader :=
  {| mode := m; field := field r ++ str c; record := record r; records := records r |}.

Definition endField (r : Reader) : Reader :=
  {| mode := Plain; field := ""; record := record r ++ [field r]; records := records r |}.

Definition endRecord (m : Mode) (r : Reader) : Reader :=
  {| mode := m; field := ""; record := [];
     records := (records r ++ [record r ++ [field r]])%list |}.

Definition outside (c : ascii) (r : Reader) : Reader :=
  if Ascii.eqb c "," then endField r
  else if Ascii.eqb c LF then endRecord Plain r
  else if Ascii.eqb c CR then endRecord AfterCR r
  else push c Plain r.

Definition step (r : Reader) (c : ascii) : Reader :=
  match mode r with
  | Plain =>
      if Ascii.eqb c DQUOTE && (field r =? "")
      then {| mode := InQuotes; field := ""; record := record r; records := records r |}
      else outside c r
  | InQuotes =>
      if Ascii.eqb c DQUOTE
      then {| mode := QuoteSeen; field := field r; record := record r; records := records r |}
      else push c InQuotes r
  | QuoteSeen =>
      if Ascii.eqb c DQUOTE then push c InQuotes r else outside c r
  | AfterCR =>
      if Ascii.eqb c LF
      then {| mode := Plain; field := ""; record := []; records := records r |}
      else if Ascii.eqb c DQUOTE
      then {| mode := InQuotes; field := ""; record := []; records := records r |}
      else outside c r
  end.

Fixpoint run (r : Reader) (text : string) : Reader :=
  match text with
  | EmptyString => r
  | String c rest => run (step r c) rest
  end.

(** At the end of the text a record that has been started is closed. *)
Definition finish (r : Reader) : list (list string) :=
  match mode r, field r, record r with
  | Plain, EmptyString, [] => records r
  | AfterCR, _, _ => records r
  | _, _, _ => (records r ++ [record r ++ [field r]])%list
  end.

Definition read (text : string) : list (list string) := finish (run start text).

(** A state in which a cell has just been read. *)
Definition cellEnd (r : Reader) : Prop := mode r = Plain \/ mode r = QuoteSeen.

(** The columns of a record, by position. *)
Definition column (i : nat) (rec : list string) : string := nth i rec "".

End Csv.

(* ------------------------------------------------------------------ *)
(** ** The page: the read loop of [handleSubmit] in [src/app/page.tsx] *)
(* ------------------------------------------------------------------ *)

Module Page.
Import Js Json.

(** [interface ProgressState], as the values put there at run time. *)
Record ProgressState : Type := {
  current : option json;
  total : option json;
  error : option json
}.

(** [new Blob(blobParts, { type })]. *)
Record Blob : Type := {
  blobParts : list json;
  blobType : string
}.

(** Lines 88-96: an anchor whose [href] is an object URL of [blob] and
    whose [download] attribute is [download], clicked once. *)
Record Save : Type := {
  blob : Blob;
  download : string
}.

(** The component state the loop writes, and the saves it triggered. *)
Record State : Type := {
  loading : bool;
  errorText : string;
  progress : ProgressState;
  saves : list Save
}.

Definition setProgress (p : ProgressState) (st : State) : State :=
  {| loading := loading st; errorText := errorText st; progress := p; saves := saves st |}.

Definition setError (e : string) (st : State) : State :=
  {| loading := loading st; errorText := e; progress := progress st; saves := saves st |}.

Definition setLoading (b : bool) (st : State) : State :=
  {| loading := b; errorText := errorText st; progress := progress st; saves := saves st |}.

Definition click (s : Save) (st : State) : State :=
  {| loading := loading st; errorText := errorText st; progress := progress st;
     saves := saves st ++ [s] |}.

(** [String(v)] for the message of [new Error(v)]; [undefined] gives the
    empty message. *)
Fixpoint toString (v : json) : string :=
  match v with
  | JNull => "null"
  | JBool true => "true"
  | JBool false => "false"
  | JNumber source => source
  | JString s => s
  | JArray items =>
      join "," (map (fun i => match i with JNull => "" | _ => toString i end) items)
  | JObject _ => "[object Object]"
  end.

Definition Error_of (v : option json) : Thrown :=
  Error (match v with Some v => toString v | None => "" end).

Section Reader.
Context {engine : Engine}.

(** Lines 71-101: the body of [for (const line of lines)]. *)
Definition processLine (line : string) (st : State) : Completion State :=
  let parts := split (str LF) line in
  match nth_error parts 0, nth_error parts 1 with
  | Some eventLine, Some dataLine =>
      if negb (truthy eventLine) || negb (truthy dataLine) then Normal st
      else
        let event := replace "event: " "" eventLine in
        match JSON_parse (replace "data: " "" dataLine) with
        | Throw e => Throw e
        | Normal data =>
            if event =? "progress" then
              match property data "current", property data "total", property data "error" with
              | Normal c, Normal t, Normal e =>
                  Normal (setProgress {| current := c; total := t; error := e |} st)
              | Throw x, _, _ => Throw x
              | _, Throw x, _ => Throw x
              | _, _, Throw x => Throw x
              end
            else if event =? "complete" then
              let blob := {| blobParts := [data]; blobType := "text/csv" |} in
              Normal (click {| blob := blob; download := "stock_historical_data.csv" |} st)
            else if event =? "error" then
              match property data "error" with
              | Normal e => Throw (Error_of e)
              | Throw x => Throw x
              end
            else Normal st
        end
  | _, _ => Normal st
  end.

(** The state reached, and the exception that stopped the loop if one
    did: what was set before a [throw] stays set. *)
Fixpoint processLines (lines : list string) (st : State) : State * option Thrown :=
  match lines with
  | [] => (st, None)
  | line :: rest =>
      match processLine line st with
      | Normal st' => processLines rest st'
      | Throw e => (st, Some e)
      end
  end.

(** Lines 60-103: [while (true)], one turn per chunk the reader
    delivers; [done] once there is none left. *)
Fixpoint readLoop (chunks : list string) (buffer : string) (st : State)
  : State * option Thrown :=
  match chunks with
  | [] => (st, None)
  | value :: later =>
      let buffer := buffer ++ value in
      let lines := split (String LF (str LF)) buffer in
      let buffer := last lines "" in
      let lines := removelast lines in
      match processLines lines st with
      | (st', None) => readLoop later buffer st'
      | (st', Some e) => (st', Some e)
      end
  end.

(** Lines 52-108: from the response to the end of [handleSubmit]; the
    body is the list of chunks its reader delivers, [None] when the
    response has no body. *)
Definition handleResponse (body : option (list string)) (st : State) : State :=
  let outcome :=
    match body with
    | None => (st, Some (Error "No response body"))
    | Some chunks => readLoop chunks "" st
    end in
  match outcome with
  | (st', None) => setLoading false st'
  | (st', Some err) => setLoading false (setError (message_or "An error occurred" err) st')
  end.

End Reader.

(** *** The start of [handleSubmit] (lines 20-50) *)

(** [String.prototype.toUpperCase] follows the Unicode case mappings,
    which are not spelt out here: it is a parameter, known never to
    turn a non-empty string into the empty one or back. *)
Class Unicode : Type := {
  toUpperCase : string -> string;
  toUpperCase_empty : forall s, toUpperCase s = "" <-> s = ""
}.

(** The code points [trim] strips (WhiteSpace and LineTerminator of
    ECMA-262), by their UTF-8 bytes: TAB, LF, VT, FF, CR, SP, U+00A0,
    U+1680, U+2000 to U+200A, U+2028, U+2029, U+202F, U+205F, U+3000,
    U+FEFF. *)
Definition bytes (codes : list nat) : string :=
  fold_right (fun n s => String (ascii_of_nat n) s) "" codes.

Definition whiteSpace : list string :=
  map bytes
    ([[9]; [10]; [11]; [12]; [13]; [32]; [194; 160]; [225; 154; 128]]
     ++ map (fun k => [226; 128; 128 + k]) (seq 0 11)
     ++ [[226; 128; 168]; [226; 128; 169]; [226; 128; 175]; [226; 129; 159];
         [227; 128; 128]; [239; 187; 191]]).

Fixpoint reverse (s : string) : string :=
  match s with
  | EmptyString => ""
  | String c rest => reverse rest ++ str c
  end.

(** Strips the white space [s] starts with; [fuel] bounds the number
    of code points stripped. *)
Fixpoint strip (spaces : list string) (fuel : nat) (s : string) : string :=
  match fuel with
  | O => s
  | S fuel =>
      match find (fun w => startsWith w s) spaces with
      | Some w => strip spaces fuel (drop (String.length w) s)
      | None => s
      end
  end.

Definition trimStart (s : string) : string := strip whiteSpace (String.length s) s.

Definition trimEnd (s : string) : string :=
  reverse (strip (map reverse whiteSpace) (String.length s) (reverse s)).

Definition trim (s : string) : string := trimEnd (trimStart s).

(** The form fields, as the component state holds them. *)
Record Form : Type := {
  symbols : string;
  startDate : string;
  endDate : string;
  interval : string
}.

(** The object [fetch] posts as JSON (lines 44-49). *)
Record Posted : Type := {
  postedSymbols : list string;
  postedStartDate : string;
  postedEndDate : string;
  postedInterval : string
}.

(** Lines 25-28. *)
Definition symbolList {unicode : Unicode} (symbols : string) : list string :=
  filter (fun s => negb (s =? ""))
    (map (fun s => toUpperCase (trim s)) (split "," symbols)).

(** Lines 20-109.  [fetch] is the network: it rejects, or resolves to a
    response whose body is read as chunks ([None]: no body).  The
    result is the state the component ends in and the requests posted. *)
Definition handleSubmit {engine : Engine} {unicode : Unicode}
  (fetch : Posted -> Completion (option (list string))) (form : Form) (st : State)
  : State * list Posted :=
  let st := setError "" (setLoading true st) in
  let symbolList := symbolList (symbols form) in
  if (List.length symbolList =? 0)%nat
  then (setLoading false (setError "Please enter at least one symbol" st), [])
  else
    let st :=
      setProgress {| current := Some (JNumber "0");
                     total := Some (JNumber (Number_toString (List.length symbolList)));
                     error := None |} st in
    let posted :=
      {| postedSymbols := symbolList;
         postedStartDate := startDate form;
         postedEndDate := endDate form;
         postedInterval := interval form |} in
    match fetch posted with
    | Throw err =>
        (setLoading false (setError (message_or "An error occurred" err) st), [posted])
    | Normal body => (handleResponse body st, [posted])
    end.

End Page.

(* ------------------------------------------------------------------ *)
(** ** Between the route and the page                                  *)
(* ------------------------------------------------------------------ *)

(** The route as the page's network, and the notions the facts about
    the two together are stated with. *)
Module Wire.
Import Js Json.

(** *** Flat objects

    The objects the route stringifies have members whose values are
    strings or counts. *)
Inductive Scalar : Type :=
| SString (s : string)
| SNumber (n : nat).

Definition scalarText (v : Scalar) : string :=
  match v with
  | SString s => stringify_string s
  | SNumber n => Number_toString n
  end.

Definition scalarJson (v : Scalar) : json :=
  match v with
  | SString s => JString s
  | SNumber n => JNumber (Number_toString n)
  end.

Definition memberText (kv : string * Scalar) : string :=
  member (fst kv) (scalarText (snd kv)).

Definition memberJson (kv : string * Scalar) : string * json :=
  (fst kv, scalarJson (snd kv)).

Definition flatText (ms : list (string * Scalar)) : string :=
  join "," (map memberText ms).

Definition flatObject (ms : list (string * Scalar)) : string :=
  stringify_object (map (fun kv => (fst kv, Some (scalarText (snd kv)))) ms).

(** What follows cannot continue a number. *)
Definition stops (rest : string) : bool :=
  match rest with
  | EmptyString => true
  | String c _ =>
      negb (is_digit c || Ascii.eqb c "." || Ascii.eqb c "e" || Ascii.eqb c "E")
  end.

(** What [parse_number] does once the integer part [i] is read. *)
Definition after_int (i : string) (s2 : string) : option (string * string) :=
  let frac :=
    match s2 with
    | String "."%char r =>
        let (ds, r') := take_digits r in
        if ds =? "" then None else Some ("." ++ ds, r')
    | _ => Some ("", s2)
    end in
  match frac with
  | None => None
  | Some (f, s3) =>
      let exp :=
        match s3 with
        | String e r =>
            if Ascii.eqb e "e" || Ascii.eqb e "E" then
              let (sg, r1) :=
                match r with
                | String "+"%char r1 => ("+", r1)
                | String "-"%char r1 => ("-", r1)
                | _ => ("", r)
                end in
              let (ds, r2) := take_digits r1 in
              if ds =? "" then None else Some (str e ++ sg ++ ds, r2)
            else Some ("", s3)
        | EmptyString => Some ("", s3)
        end in
      match exp with
      | None => None
      | Some (x, s4) => Some ("" ++ i ++ f ++ x, s4)
      end
  end.

(** *** Text cut at blank lines

    [split] at a blank line, read one character at a time: the pieces
    that are complete, the piece being read, and whether a line feed
    is held back because the next character may make it a blank line. *)
Definition blankLine : string := String LF (str LF).

Record Scan : Type := {
  complete : list string;
  piece : string;
  held : bool
}.

Definition fresh : Scan := {| complete := []; piece := ""; held := false |}.

Definition feed (s : Scan) (c : ascii) : Scan :=
  if Ascii.eqb c LF then
    if held s
    then {| complete := complete s ++ [piece s]; piece := ""; held := false |}
    else {| complete := complete s; piece := piece s; held := true |}
  else
    {| complete := complete s;
       piece := (if held s then piece s ++ str LF else piece s) ++ str c;
       held := false |}.

Fixpoint scan (s : Scan) (text : string) : Scan :=
  match text with
  | EmptyString => s
  | String c rest => scan (feed s c) rest
  end.

(** The piece that is not complete yet. *)
Definition unfinished (s : Scan) : string :=
  if held s then piece s ++ str LF else piece s.

Definition pieces (s : Scan) : list string := complete s ++ [unfinished s].

Fixpoint hasBlankLine (s : string) : bool :=
  match s with
  | EmptyString => false
  | String _ rest => startsWith blankLine s || hasBlankLine rest
  end.

Fixpoint noLF (s : string) : bool :=
  match s with
  | EmptyString => true
  | String c rest => negb (Ascii.eqb c LF) && noLF rest
  end.

(** A block without the blank line that ends it. *)
Definition line (name data : string) : string :=
  "event: " ++ name ++ str LF ++ "data: " ++ data.

(** A text made of white space code points only. *)
Inductive Blank : string -> Prop :=
| Blank_nil : Blank ""
| Blank_cons (w rest : string) : In w Page.whiteSpace -> Blank rest -> Blank (w ++ rest).

(** A text made of entries of [spaces] only. *)
Inductive Made (spaces : list string) : string -> Prop :=
| Made_nil : Made spaces ""
| Made_cons (w rest : string) :
    In w spaces -> Made spaces rest -> Made spaces (w ++ rest).

(** The text has the character. *)
Fixpoint mentions (c : ascii) (s : string) : bool :=
  match s with
  | EmptyString => false
  | String d rest => Ascii.eqb c d || mentions c rest
  end.

Section Served.
Import Route.
Context {engine : Engine} {platform : Platform} {untyped : Untyped}.

(** A value that is falsy: [undefined], [null], [false], a zero, the
    empty string. *)
Definition Falsy (v : option Json.json) : Prop :=
  v = None \/ v = Some JNull \/ v = Some (JBool false) \/ v = Some (JString "")
  \/ exists source, v = Some (JNumber source) /\ number_is_zero source = true.

(** A value without a truthy [length]: anything but a non-empty array,
    a non-empty string and an object whose [length] member is truthy. *)
Definition Lengthless (v : option Json.json) : Prop :=
  match v with
  | Some (JArray (_ :: _)) => False
  | Some (JString (String _ _)) => False
  | Some (JObject members) => Falsy (lookup "length" members)
  | _ => True
  end.

(** The chunk is one event of the given name whose data is the JSON
    text of [v]. *)
Definition reads (chunk name : string) (v : Json.json) : Prop :=
  exists data,
    chunk = "event: " ++ name ++ str LF ++ "data: " ++ data ++ str LF ++ str LF
    /\ JSON_parse data = Normal v.

(** The chunk is a progress event that shows [done] of [total]
    symbols processed and, as its error, nothing when no symbol has
    failed so far and otherwise "Failed to fetch: " followed by the
    failed symbols joined by ", ". *)
Definition progressEvent (chunk : string) (done total : nat) (failedSoFar : list string)
  : Prop :=
  exists v c t,
    reads chunk "progress" v
    /\ property v "type" = Normal (Some (JString "progress"))
    /\ property v "current" = Normal (Some c) /\ natural c = Some done
    /\ property v "total" = Normal (Some t) /\ natural t = Some total
    /\ property v "error"
       = Normal (match failedSoFar with
                 | [] => None
                 | _ :: _ => Some (JString ("Failed to fetch: " ++ join ", " failedSoFar))
                 end).

(** The chunk is an error event with the given message. *)
Definition errorEvent (chunk message : string) : Prop :=
  exists v, reads chunk "error" v /\ property v "error" = Normal (Some (JString message)).

(** The data line of a complete event written by the serialiser, as
    the page cuts it out: the header of the CSV, with the carriage
    return of the end of line when there is one. *)
Definition headerLine (os : Json2csv.OS) : string :=
  Json2csv.getHeader fields
  ++ match os with
     | Json2csv.Posix => ""
     | Json2csv.Windows => str CR
     end.
Variable yahooFinance : Provider.
Variable Parser_parse : list string -> list ResultWithSymbol -> Completion string.

(** The members of a progress update, in the order they are written. *)
Definition progressMembers (u : ProgressUpdate) : list (string * Scalar) :=
  [("type", SString (type u)); ("current", SNumber (current u));
   ("total", SNumber (total u))]
  ++ match error u with
     | Some e => [("error", SString e)]
     | None => []
     end.

(** The progress state the page holds once it has read the update. *)
Definition shown (u : ProgressUpdate) : Page.ProgressState :=
  {| Page.current := Some (JNumber (Number_toString (current u)));
     Page.total := Some (JNumber (Number_toString (total u)));
     Page.error := option_map JString (error u) |}.

(** The line of a progress update: its block without the blank line. *)
Definition progressLine (u : ProgressUpdate) : string :=
  line "progress" (JSON_stringify_progress u).

(** The progress state after the given updates, one after the other. *)
Definition lastShown (us : list ProgressUpdate) (st : Page.State) : Page.State :=
  fold_left (fun st u => Page.setProgress (shown u) st) us st.

(** The progress updates of request [r], one per symbol of [l]. *)
Definition updates (r : StockDataRequest) (l : list string) : list ProgressUpdate :=
  map (fun j => progressUpdate (List.length l) (localsAfter yahooFinance r l j))
    (seq 1 (List.length l)).

(** The symbols, in order, of those of the first [j] turns that
    failed: the quote was missing, or the quote or the historical call
    threw. *)
Definition failedAmong (r : StockDataRequest) (l : list string) (j : nat) : list string :=
  map snd (filter (failed yahooFinance (queryOptions r)) (firstn j (turns 0 l))).

(** The request the route reads from what the page posts: the four
    members are there, [symbols] an array of strings. *)
Definition toRequest (p : Page.Posted) : StockDataRequest :=
  {| symbols := Some (Page.postedSymbols p);
     startDate := Some (JString (Page.postedStartDate p));
     endDate := Some (JString (Page.postedEndDate p));
     interval := Some (JString (Page.postedInterval p)) |}.

(** The text of a response body. *)
Definition text (chunks : list string) : string := String.concat "" chunks.

(** [fetch] answered by the route.  [deliver] is the transport: it
    cuts the body into the chunks the reader gets. *)
Definition serve (deliver : list string -> list string) (p : Page.Posted)
  : Completion (option (list string)) :=
  match POST yahooFinance Parser_parse (parsed (toRequest p)) initial with
  | (Normal (NextResponse_json body _), _) => Normal (Some (deliver [body]))
  | (Normal (StreamResponse _ _), w) => Normal (Some (deliver (readable w)))
  | (Throw e, _) => Throw e
  end.

(** The quote of a turn is there and truthy. *)
Definition quoteOk (t : Turn) : bool :=
  match quote yahooFinance (fst t) (snd t) with
  | Normal (Some _) => true
  | _ => false
  end.

Definition isHistorical (a : Action) : bool :=
  match a with
  | HistoricalRequest _ _ => true
  | _ => false
  end.



End Served.
End Wire.

(* ------------------------------------------------------------------ *)
(** ** Sample collaborators, for evaluating the definitions            *)
(* ------------------------------------------------------------------ *)

Module Sample.
Import Js Route.

Lemma decimal_bare (d : Decimal.uint) : bare (NilEmpty.string_of_uint d) = true.
Proof. induction d; cbn; auto. Qed.

(** An engine with short messages; a number is zero when its text has
    no digit but 0 before the exponent. *)
Fixpoint all_zero (source : string) : bool :=
  match source with
  | EmptyString => true
  | String c rest =>
      if Ascii.eqb c "e" || Ascii.eqb c "E" then true
      else if Json.is_digit c then Ascii.eqb c "0" && all_zero rest
      else all_zero rest
  end.

#[export] Instance engine : Engine := {|
  JSON_parse_message := fun text => "Not JSON: " ++ text;
  null_property_message := fun key => "Cannot read " ++ key ++ " of null";
  null_destructuring_message := "Cannot destructure null";
  not_iterable_message := "symbols is not iterable";
  closed_stream_error := TypeError "The stream is closed";
  number_is_zero := all_zero
|}.

(** Numbers are naturals printed in decimal, dates are kept by their
    ISO text, a quote carries nothing. *)
#[export] Instance platform : Platform := {|
  JsNumber := nat;
  JsDate := string;
  QuoteResult := unit;
  Date_new := fun v =>
    match v with
    | Some (Json.JString s) => s
    | _ => "Invalid Date"
    end;
  Number_text := Number_toString;
  Number_text_bare := fun n => decimal_bare (Nat.to_uint n);
  Date_text := fun d => d
|}.

(** Beyond the interface nothing is observed. *)
#[export] Instance untyped : Untyped := {| beyond := fun _ => [] |}.

Definition day (d : string) (price : nat) : HistoricalDataItem :=
  {| date := d; open := price; high := price + 2; low := price - 1; close := price + 1;
     volume := 1000; adjClose := if Nat.even price then Some price else None |}.

(** A provider that knows no symbol BAD, times out on BOOM, has no rows
    for EMPTY and two rows for anything else. *)
Definition market : Provider := {|
  quote := fun _ symbol =>
    if symbol =? "BAD" then Normal None
    else if symbol =? "BOOM" then Throw (OtherValue "timeout")
    else Normal (Some tt);
  historical := fun _ symbol _ =>
    if symbol =? "EMPTY" then Normal []
    else Normal [day "2023-01-03T00:00:00.000Z" 130; day "2023-01-04T00:00:00.000Z" 127]
|}.

Definition request (symbols : list string) : StockDataRequest :=
  {| symbols := Some symbols;
     startDate := Some (Json.JString "2023-01-01");
     endDate := Some (Json.JString "2023-01-05");
     interval := Some (Json.JString "1d") |}.

(** A serialiser that fails. *)
Definition brokenParser (fields : list string) (data : list ResultWithSymbol)
  : Completion string :=
  Throw (Error "Cannot serialise").

(** The serialiser as it runs on a server whose end of line is LF. *)
Definition posix : list string -> list ResultWithSymbol -> Completion string :=
  Json2csv.Parser_parse Json2csv.Posix.

Definition idle : Page.State :=
  {| Page.loading := true;
     Page.errorText := "";
     Page.progress := {| Page.current := None; Page.total := None; Page.error := None |};
     Page.saves := [] |}.

(** Upper case for the letters a to z, every other byte left as it is. *)
Definition upper (c : ascii) : ascii :=
  let n := nat_of_ascii c in
  if ((97 <=? n) && (n <=? 122))%nat then ascii_of_nat (n - 32) else c.

Fixpoint toUpperCase (s : string) : string :=
  match s with
  | EmptyString => ""
  | String c rest => String (upper c) (toUpperCase rest)
  end.

Lemma toUpperCase_empty (s : string) : toUpperCase s = "" <-> s = "".
Proof. destruct s; cbn; split; congruence. Qed.

#[export] Instance unicode : Page.Unicode := {|
  Page.toUpperCase := toUpperCase;
  Page.toUpperCase_empty := toUpperCase_empty
|}.

(** A consumer that is gone before the first chunk. *)
Definition absent : nat -> option Thrown := fun _ => Some (OtherValue "cancelled").

(** A transport that delivers every write as one chunk. *)
Definition asWritten (chunks : list string) : list string := chunks.

(** The form with two symbols and a blank entry, without and with a
    start date. *)
Definition blankDates : Page.Form :=
  {| Page.symbols := " aapl, ,msft ";
     Page.startDate := "";
     Page.endDate := "2023-01-05";
     Page.interval := "1d" |}.

Definition filled : Page.Form :=
  {| Page.symbols := " aapl, ,msft ";
     Page.startDate := "2023-01-01";
     Page.endDate := "2023-01-05";
     Page.interval := "1d" |}.

End Sample.

(* ------------------------------------------------------------------ *)
(** ** Facts about the route                                           *)
(* ------------------------------------------------------------------ *)

Section RouteFacts.
Import Js Route.
Context {engine : Engine} {platform : Platform} {untyped : Route.Untyped}.
Variable yahooFinance : Provider.
Variable Parser_parse : list string -> list ResultWithSymbol -> Completion string.

(** Unfolds the operations of [Async] down to functions of the world. *)
Ltac async :=
  unfold try_catch, bind, yahooFinance_quote, yahooFinance_historical, parser_parse,
    delay, console_error, perform, await, writer_write, writer_close, ret, throw, log.

Lemma advance_cons (q : QueryOptions) (v : Locals) (t : Turn) (ts : list Turn) :
  advance yahooFinance q v (t :: ts)
  = advance yahooFinance q (advance yahooFinance q v [t]) ts.
Proof.
  unfold advance. cbn [allResults processedCount failedSymbols].
  f_equal.
  - cbn [flat_map]. now rewrite app_nil_r, app_assoc.
  - cbn [List.length]. lia.
  - cbn [filter]. destruct (failed yahooFinance q t); cbn [map];
      now rewrite ?app_nil_r, <- ?app_assoc.
Qed.

Lemma advance_nil (q : QueryOptions) (v : Locals) : advance yahooFinance q v [] = v.
Proof.
  unfold advance. destruct v; cbn.
  now rewrite !app_nil_r, Nat.add_0_r.
Qed.

Lemma advance_app (q : QueryOptions) (ts us : list Turn) :
  forall v,
    advance yahooFinance q v (ts ++ us)
    = advance yahooFinance q (advance yahooFinance q v ts) us.
Proof.
  induction ts as [|t ts IH]; intros v.
  - now rewrite advance_nil.
  - cbn [app]. rewrite advance_cons, IH, <- advance_cons. reflexivity.
Qed.

Lemma turns_cons (i : nat) (s : string) (l : list string) :
  turns i (s :: l) = (i, s) :: turns (S i) l.
Proof. reflexivity. Qed.

Lemma turns_length (i : nat) (l : list string) : List.length (turns i l) = List.length l.
Proof.
  unfold turns, Turn. rewrite length_combine, length_seq. apply Nat.min_id.
Qed.

Lemma progressBlocks_cons (total : nat) (q : QueryOptions) (v : Locals) (t : Turn)
  (ts : list Turn) :
  progressBlocks yahooFinance total q v (t :: ts) =
  progressBlock total (advance yahooFinance q v [t])
    :: progressBlocks yahooFinance total q (advance yahooFinance q v [t]) ts.
Proof.
  unfold progressBlocks. cbn [List.length seq map firstn]. f_equal.
  rewrite <- seq_shift, map_map. apply map_ext. intros j.
  cbn [firstn]. now rewrite advance_cons.
Qed.

(** One iteration on an open stream whose consumer is there: it never
    throws, whatever the provider does; it makes the calls of its turn,
    writes one progress block and leaves the stream open. *)
Lemma iteration_run (total : nat) (q : QueryOptions) (s : string) (v : Locals)
  (w : World) :
  closed w = false ->
  gone w (List.length (readable w)) = None ->
  let v' := advance yahooFinance q v [(processedCount v, s)] in
  iteration yahooFinance total q s v w =
    (Normal v',
     {| trace := trace w ++ turnCalls yahooFinance q (processedCount v, s)
                   ++ [WriterWrite (progressBlock total v')];
        readable := readable w ++ [progressBlock total v'];
        closed := false;
        gone := gone w |}).
Proof.
  intros Hopen Hthere v'. subst v'.
  unfold iteration, advance, turnCalls, fetchSymbol, rowsOf, failed, attempt, progressBlock.
  async.
  cbn -[block JSON_stringify_progress progressUpdate String.append].
  destruct (quote yahooFinance (processedCount v) s) as [[qr|]|e];
    [destruct (historical yahooFinance (processedCount v) s q) as [result|e]| |];
    cbn -[block JSON_stringify_progress progressUpdate String.append];
    rewrite Hthere, Hopen; rewrite ?app_nil_r, ?Nat.add_1_r, <- ?app_assoc; reflexivity.
Qed.

(** The loop, from any state of its variables on an open stream whose
    consumer stays for its writes. *)
Lemma forOf_run (total : nat) (q : QueryOptions) (l : list string) :
  forall (v : Locals) (w : World),
    closed w = false ->
    (forall k, k < List.length l -> gone w (List.length (readable w) + k) = None) ->
    forOf yahooFinance total q l v w =
      (Normal (advance yahooFinance q v (turns (processedCount v) l)),
       {| trace := trace w ++ loopCalls yahooFinance total q v (turns (processedCount v) l);
          readable := readable w
                        ++ progressBlocks yahooFinance total q v (turns (processedCount v) l);
          closed := false;
          gone := gone w |}).
Proof.
  induction l as [|s l IH]; intros v w Hopen Hthere.
  - cbn. rewrite advance_nil, !app_nil_r. destruct w; cbn in *; now subst.
  - cbn [forOf]. unfold bind at 1.
    rewrite iteration_run;
      [|assumption|rewrite <- (Nat.add_0_r (List.length (readable w))); apply Hthere; cbn; lia].
    cbv zeta. set (v1 := advance yahooFinance q v [(processedCount v, s)]).
    assert (Hpc : processedCount v1 = S (processedCount v))
      by (subst v1; unfold advance; cbn; lia).
    rewrite IH;
      [|reflexivity
       |intros k Hk; cbn [readable gone]; rewrite length_app; cbn [List.length];
        rewrite <- Nat.add_assoc; apply Hthere; cbn; lia].
    rewrite Hpc.
    rewrite turns_cons, progressBlocks_cons.
    rewrite (advance_cons q v (processedCount v, s)).
    cbn [loopCalls trace readable closed gone].
    subst v1. rewrite <- !app_assoc. reflexivity.
Qed.

Lemma progressBlocks_length (total : nat) (q : QueryOptions) (v : Locals) (ts : list Turn) :
  List.length (progressBlocks yahooFinance total q v ts) = List.length ts.
Proof. unfold progressBlocks. now rewrite length_map, length_seq. Qed.

(** The detached function: the loop, then the last block and the
    close, when the consumer stays until the close. *)
Lemma streamTask_run (r : StockDataRequest) (l : list string) (w : World) :
  symbols r = Some l ->
  closed w = false ->
  (forall k, k <= S (List.length l) -> gone w (List.length (readable w) + k) = None) ->
  let q := queryOptions r in
  let rows := allResults (advance yahooFinance q start (turns 0 l)) in
  streamTask yahooFinance Parser_parse r w =
    (Normal tt,
     {| trace := trace w ++ loopCalls yahooFinance (List.length l) q start (turns 0 l)
                   ++ lastCalls Parser_parse rows;
        readable := readable w
                      ++ progressBlocks yahooFinance (List.length l) q start (turns 0 l)
                      ++ [lastBlock Parser_parse rows];
        closed := true;
        gone := gone w |}).
Proof.
  intros Hl Hopen Hthere q rows.
  assert (Hlast : gone w (List.length
                    (readable w
                     ++ progressBlocks yahooFinance (List.length l) q start (turns 0 l)))
                  = None).
  { rewrite length_app, progressBlocks_length, turns_length. apply Hthere. lia. }
  assert (Hend : forall b,
             gone w (List.length
                       ((readable w
                         ++ progressBlocks yahooFinance (List.length l) q start (turns 0 l))
                        ++ [b])) = None).
  { intros b. rewrite !length_app, progressBlocks_length, turns_length. cbn [List.length].
    rewrite <- Nat.add_assoc. apply Hthere. lia. }
  unfold streamTask, try_catch, bind at 1 2. rewrite Hl. cbn [iterate ret].
  fold q. rewrite forOf_run; [|assumption|intros k Hk; apply Hthere; lia].
  cbn [processedCount start].
  fold rows. unfold lastCalls, lastBlock, giveUp, noData.
  destruct rows as [|row rows'] eqn:Hrows.
  - cbn [List.length Nat.eqb]. async. cbn [trace readable closed gone].
    rewrite Hlast. cbn [trace readable closed gone]. rewrite Hend.
    unfold errorBlock. cbn [message_or Error].
    now rewrite <- !app_assoc.
  - cbn [List.length Nat.eqb]. unfold parser_parse. async.
    cbn [trace readable closed gone].
    destruct (Parser_parse fields (row :: rows')) as [csv|e].
    + cbn [trace readable closed gone]. rewrite Hlast.
      cbn [trace readable closed gone]. rewrite Hend.
      now rewrite <- !app_assoc.
    + cbn [trace readable closed gone]. rewrite Hlast.
      cbn [trace readable closed gone]. rewrite Hend.
      unfold errorBlock.
      now rewrite <- !app_assoc.
Qed.

(** The body of a typed request, destructured. *)
Lemma binding_bodyOf (r : StockDataRequest) :
  binding (bodyOf r) "symbols"
  = option_map (fun l => Json.JArray (map Json.JString l)) (symbols r)
  /\ binding (bodyOf r) "startDate" = startDate r
  /\ binding (bodyOf r) "endDate" = endDate r
  /\ binding (bodyOf r) "interval" = interval r.
Proof. destruct r as [[l|] [sd|] [ed|] [iv|]]; repeat split; reflexivity. Qed.

Lemma strings_map (l : list string) : strings (map Json.JString l) = Some l.
Proof. induction l as [|s l IH]; [reflexivity|]. cbn. now rewrite IH. Qed.

Lemma typed_bodyOf (r : StockDataRequest) (l : list string) :
  symbols r = Some l -> typed (bodyOf r) = Some r.
Proof.
  intros Hl. unfold typed.
  destruct (binding_bodyOf r) as [-> [-> [-> ->]]]. rewrite Hl. cbn [option_map].
  rewrite strings_map. destruct r; cbn in *. now subst.
Qed.

Lemma missingRequiredFields_false (r : StockDataRequest) :
  missingRequiredFields r = false <->
  (exists s l, symbols r = Some (s :: l))
  /\ Json.truthy_value (startDate r) = true /\ Json.truthy_value (endDate r) = true.
Proof.
  unfold missingRequiredFields, missing.
  destruct (binding_bodyOf r) as [-> [-> [-> _]]].
  destruct (symbols r) as [[|s l]|]; cbn [option_map has_length map List.length Nat.eqb negb orb];
    destruct (Json.truthy_value (startDate r)), (Json.truthy_value (endDate r)); cbn;
    (split; [intros H | intros [[s' [l' Hs]] [H1 H2]]]);
    try discriminate; try reflexivity.
  repeat split; eauto.
Qed.

(** The whole exchange for a request that passes validation, when the
    consumer stays until the close. *)
Lemma POST_stream_with (consumer : nat -> option Thrown) (r : StockDataRequest)
  (l : list string) :
  symbols r = Some l ->
  missingRequiredFields r = false ->
  (forall k, k <= S (List.length l) -> consumer k = None) ->
  let q := queryOptions r in
  let rows := allResults (advance yahooFinance q start (turns 0 l)) in
  POST yahooFinance Parser_parse (parsed r) (opened consumer) =
    (Normal (StreamResponse 200 streamHeaders),
     {| trace := NewTransformStream
                   :: loopCalls yahooFinance (List.length l) q start (turns 0 l)
                   ++ lastCalls Parser_parse rows;
        readable := progressBlocks yahooFinance (List.length l) q start (turns 0 l)
                      ++ [lastBlock Parser_parse rows];
        closed := true;
        gone := consumer |}).
Proof.
  intros Hl Hok Hthere q rows.
  unfold POST, try_catch, bind at 1, await, parsed. cbn [json].
  assert (Hbody : bodyOf r <> Json.JNull) by discriminate.
  unfold bind at 1, destructure. unfold bodyOf at 1. unfold ret at 1.
  fold (missingRequiredFields r). rewrite Hok.
  unfold bind at 1, perform. unfold bind at 1, spawn, detached.
  rewrite (typed_bodyOf r l Hl).
  rewrite (streamTask_run r l) by (assumption || reflexivity).
  reflexivity.
Qed.

Lemma POST_stream (r : StockDataRequest) (l : list string) :
  symbols r = Some l ->
  missingRequiredFields r = false ->
  let q := queryOptions r in
  let rows := allResults (advance yahooFinance q start (turns 0 l)) in
  POST yahooFinance Parser_parse (parsed r) initial =
    (Normal (StreamResponse 200 streamHeaders),
     {| trace := NewTransformStream
                   :: loopCalls yahooFinance (List.length l) q start (turns 0 l)
                   ++ lastCalls Parser_parse rows;
        readable := progressBlocks yahooFinance (List.length l) q start (turns 0 l)
                      ++ [lastBlock Parser_parse rows];
        closed := true;
        gone := stays |}).
Proof. intros Hl Hok. now apply POST_stream_with. Qed.

Lemma POST_rejected (r : StockDataRequest) :
  missingRequiredFields r = true ->
  POST yahooFinance Parser_parse (parsed r) initial =
    (Normal (NextResponse_json (JSON_stringify_message "Missing required fields") 400),
     initial).
Proof.
  intros H. unfold POST, try_catch, bind, await, parsed, ret. cbn [json].
  unfold destructure, bodyOf at 1, ret. fold (missingRequiredFields r). now rewrite H.
Qed.
End RouteFacts.

(* ------------------------------------------------------------------ *)
(** ** Facts about the serialiser and the reader                       *)
(* ------------------------------------------------------------------ *)

Section CsvFacts.
Import Js Route.
Context {engine : Engine} {platform : Platform} {untyped : Route.Untyped}.
Import Csv Json2csv.

Lemma append_assoc (a b c : string) : (a ++ b) ++ c = a ++ (b ++ c).
Proof. induction a as [|x a IH]; cbn; [reflexivity | now rewrite IH]. Qed.

Lemma append_nil_r (a : string) : a ++ "" = a.
Proof. induction a as [|x a IH]; cbn; [reflexivity | now rewrite IH]. Qed.

Lemma run_app (a b : string) : forall r, run r (a ++ b) = run (run r a) b.
Proof. induction a as [|c a IH]; intros r; cbn; [reflexivity | apply IH]. Qed.

Lemma step_bare (c : ascii) (r : Reader) :
  bare_unit c = true -> mode r = Plain -> step r c = push c Plain r.
Proof.
  unfold bare_unit, step, outside. intros Hc Hm. rewrite Hm.
  rewrite !negb_true_iff, !orb_false_iff in Hc. destruct Hc as [[[H1 H2] H3] H4].
  now rewrite H1, H2, H3, H4.
Qed.

Lemma run_bare (t : string) : forall r,
  bare t = true -> mode r = Plain ->
  run r t = {| mode := Plain; field := field r ++ t; record := record r;
               records := records r |}.
Proof.
  induction t as [|c t IH]; intros r Hb Hm.
  - cbn. rewrite append_nil_r. destruct r; cbn in *; now subst.
  - cbn in Hb. apply andb_true_iff in Hb as [Hc Ht]. cbn [run].
    rewrite step_bare by assumption. rewrite IH by (assumption || reflexivity).
    unfold push. cbn [mode field record records]. now rewrite append_assoc.
Qed.

Lemma step_quote_in (r : Reader) :
  mode r = InQuotes ->
  step r DQUOTE = {| mode := QuoteSeen; field := field r; record := record r;
                     records := records r |}.
Proof. intros Hm. unfold step. now rewrite Hm. Qed.

Lemma step_quote_seen (r : Reader) :
  mode r = QuoteSeen -> step r DQUOTE = push DQUOTE InQuotes r.
Proof. intros Hm. unfold step. now rewrite Hm. Qed.

Lemma step_quote_open (r : Reader) :
  mode r = Plain -> field r = "" ->
  step r DQUOTE = {| mode := InQuotes; field := ""; record := record r;
                     records := records r |}.
Proof. intros Hm Hf. unfold step. now rewrite Hm, Hf. Qed.

Lemma run_escaped (s : string) : forall r,
  mode r = InQuotes ->
  run r (escapeQuotes s) = {| mode := InQuotes; field := field r ++ s; record := record r;
                              records := records r |}.
Proof.
  induction s as [|c s IH]; intros r Hm.
  - cbn. rewrite append_nil_r. destruct r; cbn in *; now subst.
  - cbn [escapeQuotes]. destruct (Ascii.eqb c DQUOTE) eqn:Hc.
    + apply Ascii.eqb_eq in Hc. subst c. cbn [run].
      rewrite (step_quote_in r) by assumption. rewrite step_quote_seen by reflexivity.
      rewrite IH by reflexivity.
      unfold push. cbn [mode field record records]. now rewrite append_assoc.
    + cbn [run]. unfold step. rewrite Hm, Hc. rewrite IH by reflexivity.
      unfold push. cbn [mode field record records]. now rewrite append_assoc.
Qed.

Lemma run_quoted (s : string) (r : Reader) :
  mode r = Plain -> field r = "" ->
  run r (quoted s) = {| mode := QuoteSeen; field := s; record := record r;
                        records := records r |}.
Proof.
  intros Hm Hf. unfold quoted. cbn [run]. rewrite step_quote_open by assumption.
  rewrite run_app, run_escaped by reflexivity.
  cbn [run mode field record records String.append str].
  now rewrite step_quote_in by reflexivity.
Qed.

Lemma run_cell (v : Value) (r : Reader) :
  mode r = Plain -> field r = "" ->
  exists m, (m = Plain \/ m = QuoteSeen) /\
    run r (cellText v) = {| mode := m; field := cellValue v; record := record r;
                            records := records r |}.
Proof.
  intros Hm Hf. destruct v as [|s|n|d]; unfold cellText; cbn [processValue cellValue].
  - exists Plain. split; [now left|]. cbn. destruct r; cbn in *; now subst.
  - exists QuoteSeen. split; [now right|]. now apply run_quoted.
  - exists Plain. split; [now left|].
    rewrite run_bare by (apply Number_text_bare || assumption). now rewrite Hf.
  - exists QuoteSeen. split; [now right|]. now apply run_quoted.
Qed.

Lemma step_comma (r : Reader) :
  cellEnd r -> step r "," = endField r.
Proof. intros [Hm|Hm]; unfold step; rewrite Hm; reflexivity. Qed.

Lemma step_LF (r : Reader) :
  cellEnd r -> step r LF = endRecord Plain r.
Proof. intros [Hm|Hm]; unfold step; rewrite Hm; reflexivity. Qed.

Lemma run_EOL (os : OS) (r : Reader) :
  cellEnd r -> run r (EOL os) = endRecord Plain r.
Proof.
  intros H. destruct os; cbn [EOL run str].
  - now apply step_LF.
  - destruct H as [Hm|Hm]; unfold step at 2; rewrite Hm; reflexivity.
Qed.

Lemma lineText_cons (v v' : Value) (vs : list Value) :
  lineText (v :: v' :: vs) = cellText v ++ "," ++ lineText (v' :: vs).
Proof. reflexivity. Qed.

(** Reading one line from the start of a record. *)
Lemma run_line (vs : list Value) : forall (v : Value) (r : Reader),
  mode r = Plain -> field r = "" ->
  exists m, (m = Plain \/ m = QuoteSeen) /\
    run r (lineText (v :: vs)) =
      {| mode := m; field := last (map cellValue (v :: vs)) "";
         record := record r ++ removelast (map cellValue (v :: vs));
         records := records r |}.
Proof.
  induction vs as [|v' vs IH]; intros v r Hm Hf.
  - destruct (run_cell v r Hm Hf) as [m [Hmode Hrun]]. exists m. split; [assumption|].
    unfold lineText, fastJoin. cbn [map join]. fold (cellText v). rewrite Hrun.
    cbn [removelast last map]. now rewrite app_nil_r.
  - rewrite lineText_cons, run_app.
    destruct (run_cell v r Hm Hf) as [m [Hmode Hrun]]. rewrite Hrun.
    change ("," ++ lineText (v' :: vs)) with (String "," (lineText (v' :: vs))).
    cbn [run]. rewrite step_comma by exact Hmode.
    destruct (IH v' (endField {| mode := m; field := cellValue v; record := record r;
                                 records := records r |}) eq_refl eq_refl)
      as [m' [Hmode' Hrun']].
    exists m'. split; [assumption|]. rewrite Hrun'.
    unfold endField. cbn [mode field record records].
    change (map cellValue (v :: v' :: vs)) with (cellValue v :: map cellValue (v' :: vs)).
    cbn [last removelast map]. now rewrite <- app_assoc.
Qed.

Lemma join_cons2 (sep x y : string) (l : list string) :
  join sep (x :: y :: l) = x ++ sep ++ join sep (y :: l).
Proof. reflexivity. Qed.

Lemma run_lines (os : OS) (rest : list (list Value)) :
  forall (line : list Value) (r : Reader),
    mode r = Plain -> field r = "" -> record r = [] ->
    Forall (fun vs => vs <> []) (line :: rest) ->
    exists m, (m = Plain \/ m = QuoteSeen) /\
      run r (join (EOL os) (map lineText (line :: rest))) =
        {| mode := m;
           field := last (map cellValue (last (line :: rest) [])) "";
           record := removelast (map cellValue (last (line :: rest) []));
           records := records r ++ map (map cellValue) (removelast (line :: rest)) |}.
Proof.
  induction rest as [|line' rest IH]; intros line r Hm Hf Hr Hne.
  - inversion Hne as [|? ? Hline _]; subst.
    destruct line as [|v vs]; [congruence|].
    destruct (run_line vs v r Hm Hf) as [m [Hmode Hrun]]. exists m. split; [assumption|].
    cbn [map join last removelast]. rewrite Hrun, Hr, app_nil_r. reflexivity.
  - inversion Hne as [|? ? Hline Hrest]; subst.
    destruct line as [|v vs]; [congruence|].
    change (map lineText ((v :: vs) :: line' :: rest))
      with (lineText (v :: vs) :: lineText line' :: map lineText rest).
    rewrite join_cons2, !run_app.
    destruct (run_line vs v r Hm Hf) as [m [Hmode Hrun]]. rewrite Hrun.
    rewrite run_EOL by exact Hmode.
    unfold endRecord. cbn [mode field record records].
    match goal with |- context [run ?r0 _] =>
      destruct (IH line' r0 eq_refl eq_refl eq_refl Hrest) as [m' [Hmode' Hrun']] end.
    exists m'. split; [assumption|].
    change (map lineText (line' :: rest)) with (lineText line' :: map lineText rest) in Hrun'.
    rewrite Hrun'. cbn [records].
    rewrite Hr. cbn [app].
    rewrite <- app_removelast_last by discriminate.
    change (last ((v :: vs) :: line' :: rest) []) with (last (line' :: rest) []).
    change (removelast ((v :: vs) :: line' :: rest))
      with ((v :: vs) :: removelast (line' :: rest)).
    cbn [map]. now rewrite <- app_assoc.
Qed.

(** Reading lines of at least two cells each gives back their values. *)
Lemma read_lines (os : OS) (lines : list (list Value)) :
  lines <> [] ->
  Forall (fun vs => 2 <= List.length vs) lines ->
  read (join (EOL os) (map lineText lines)) = map (map cellValue) lines.
Proof.
  intros Hne Hlen. destruct lines as [|line rest]; [congruence|].
  assert (Hnonempty : Forall (fun vs : list Value => vs <> []) (line :: rest)).
  { eapply Forall_impl; [|exact Hlen]. intros vs H ->. cbn in H. lia. }
  destruct (run_lines os rest line start eq_refl eq_refl eq_refl Hnonempty)
    as [m [Hmode Hrun]].
  unfold read. rewrite Hrun. cbn [records start app].
  assert (Hlast : 2 <= List.length (map cellValue (last (line :: rest) []))).
  { rewrite length_map. rewrite Forall_forall in Hlen. apply Hlen.
    rewrite (app_removelast_last (l := line :: rest) []) at 2 by discriminate.
    apply in_or_app. right. now left. }
  set (x := map cellValue (last (line :: rest) [])) in *.
  assert (Hx : removelast x <> []).
  { destruct x as [|a [|b x']]; cbn in Hlast; try lia. cbn. discriminate. }
  assert (Hfin : finish {| mode := m; field := last x ""; record := removelast x;
                           records := map (map cellValue) (removelast (line :: rest)) |}
                 = (map (map cellValue) (removelast (line :: rest)) ++ [x])%list).
  { unfold finish. cbn [mode field record records].
    rewrite <- (app_removelast_last (l := x) "") by (intros ->; cbn in Hlast; lia).
    destruct Hmode as [-> | ->]; [|reflexivity].
    destruct (last x ""); [|reflexivity].
    destruct (removelast x); [congruence|reflexivity]. }
  rewrite Hfin. subst x.
  change [map cellValue (last (line :: rest) [])]
    with (map (map cellValue) [last (line :: rest) []]).
  rewrite <- map_app.
  now rewrite <- app_removelast_last by discriminate.
Qed.

Lemma truthy_join (sep : string) (c : ascii) (t : string) (l : list string) :
  truthy (join sep (String c t :: l)) = true.
Proof. destruct l; reflexivity. Qed.

Lemma processRow_fields (row : ResultWithSymbol) :
  processRow fields row = Some (lineText (map (get row) fields)).
Proof. reflexivity. Qed.

Lemma lineText_fields (row : ResultWithSymbol) :
  exists t, lineText (map (get row) fields) = String DQUOTE t.
Proof. eexists. reflexivity. Qed.

Lemma processData_fields (os : OS) (data : list ResultWithSymbol) :
  processData os fields data =
  join (EOL os) (map (fun row => lineText (map (get row) fields)) data).
Proof.
  unfold processData.
  assert (H : forall d : list ResultWithSymbol,
             flat_map (fun row => match processRow fields row with
                                  | Some text => if truthy text then [text] else []
                                  | None => []
                                  end) d
             = map (fun row => lineText (map (get row) fields)) d).
  { induction d as [|row d IH]; [reflexivity|].
    cbn [flat_map map]. rewrite IH, processRow_fields.
    destruct (lineText_fields row) as [t Ht]. rewrite Ht. reflexivity. }
  now rewrite H.
Qed.

Lemma getHeader_fields : getHeader fields = lineText (map VString fields).
Proof. reflexivity. Qed.

(** With the route's fields no row is dropped: the output is the
    header line and one line per row. *)
Lemma parse_fields (os : OS) (data : list ResultWithSymbol) :
  parse os fields data =
  join (EOL os)
    (map lineText (map VString fields :: map (fun row => map (get row) fields) data)).
Proof.
  unfold parse. rewrite processData_fields, getHeader_fields.
  destruct data as [|row data].
  - cbn [map join]. cbn [truthy]. rewrite andb_false_r. cbn [String.append].
    now rewrite append_nil_r.
  - cbn [map]. rewrite join_cons2.
    destruct (lineText_fields row) as [t Ht]. rewrite Ht, truthy_join.
    rewrite map_map. reflexivity.
Qed.

(** Round trip: the serialiser's output reads back as the header and,
    row by row, the values of the eight fields. *)
Lemma read_parse (os : OS) (data : list ResultWithSymbol) :
  read (parse os fields data) = fields :: map (rowValues fields) data.
Proof.
  rewrite parse_fields, read_lines.
  - cbn [map]. f_equal. rewrite map_map. reflexivity.
  - discriminate.
  - constructor; [cbn; lia|]. apply Forall_forall. intros vs Hin.
    apply in_map_iff in Hin as [row [<- _]]. cbn. lia.
Qed.
End CsvFacts.

(* ------------------------------------------------------------------ *)
(** ** The event stream of a request                                   *)
(* ------------------------------------------------------------------ *)

Section StreamFacts.
Import Js Route.
Context {engine : Engine} {platform : Platform} {untyped : Route.Untyped}.
Variable yahooFinance : Provider.
Variable Parser_parse : list string -> list ResultWithSymbol -> Completion string.

Lemma localsAfter_all (r : StockDataRequest) (l : list string) :
  localsAfter yahooFinance r l (List.length l)
  = advance yahooFinance (queryOptions r) start (turns 0 l).
Proof.
  unfold localsAfter. rewrite <- (turns_length 0 l) at 1. now rewrite firstn_all.
Qed.

Lemma progressBlocks_localsAfter (r : StockDataRequest) (l : list string) :
  progressBlocks yahooFinance (List.length l) (queryOptions r) start (turns 0 l)
  = map (fun j => progressBlock (List.length l) (localsAfter yahooFinance r l j))
      (seq 1 (List.length l)).
Proof. unfold progressBlocks. now rewrite turns_length. Qed.

(** The response body of a request that passes validation: a progress
    block per symbol, then one last block. *)
Lemma body_stream (r : StockDataRequest) (l : list string) :
  symbols r = Some l ->
  missingRequiredFields r = false ->
  body yahooFinance Parser_parse (parsed r)
  = (map (fun j => progressBlock (List.length l) (localsAfter yahooFinance r l j))
      (seq 1 (List.length l))
    ++ [lastBlock Parser_parse (allResults (localsAfter yahooFinance r l (List.length l)))])%list.
Proof.
  intros Hl Hok. unfold body. rewrite (POST_stream _ _ r l Hl Hok). cbn [snd readable].
  now rewrite progressBlocks_localsAfter, localsAfter_all.
Qed.

Lemma calls_stream (r : StockDataRequest) (l : list string) :
  symbols r = Some l ->
  missingRequiredFields r = false ->
  calls yahooFinance Parser_parse (parsed r)
  = NewTransformStream
      :: loopCalls yahooFinance (List.length l) (queryOptions r) start (turns 0 l)
      ++ lastCalls Parser_parse (allResults (localsAfter yahooFinance r l (List.length l))).
Proof.
  intros Hl Hok. unfold calls. rewrite (POST_stream _ _ r l Hl Hok). cbn [snd trace].
  now rewrite localsAfter_all.
Qed.


Lemma filter_none {A} (f : A -> bool) (l : list A) :
  (forall x, In x l -> f x = false) -> filter f l = [].
Proof.
  induction l as [|x l IH]; intros H; cbn; [reflexivity|].
  rewrite (H x (or_introl eq_refl)), IH; [reflexivity|]. intros y Hy. apply H. now right.
Qed.

Lemma progressBlock_named (total : nat) (v : Locals) :
  isEvent "progress" (progressBlock total v) = true
  /\ isEvent "complete" (progressBlock total v) = false
  /\ isEvent "error" (progressBlock total v) = false.
Proof. repeat split; reflexivity. Qed.

Lemma complete_named (csv : string) :
  isEvent "progress" (block "complete" csv) = false
  /\ isEvent "complete" (block "complete" csv) = true
  /\ isEvent "error" (block "complete" csv) = false.
Proof. repeat split; reflexivity. Qed.

Lemma errorBlock_named (e : Thrown) :
  isEvent "progress" (errorBlock e) = false
  /\ isEvent "complete" (errorBlock e) = false
  /\ isEvent "error" (errorBlock e) = true.
Proof. repeat split; reflexivity. Qed.



Lemma filter_other_of_blocks (name : string) (total : nat) (f : nat -> Locals)
  (js : list nat) :
  name = "complete" \/ name = "error" ->
  filter (isEvent name) (map (fun j => progressBlock total (f j)) js) = [].
Proof.
  intros Hname. apply filter_none. intros x Hx. apply in_map_iff in Hx as [j [<- _]].
  destruct Hname as [-> | ->]; reflexivity.
Qed.

Lemma processedCount_localsAfter (r : StockDataRequest) (l : list string) (j : nat) :
  j <= List.length l -> processedCount (localsAfter yahooFinance r l j) = j.
Proof.
  intros Hj. unfold localsAfter, advance. cbn [processedCount start].
  rewrite length_firstn, turns_length. lia.
Qed.

Lemma failedSymbols_localsAfter (r : StockDataRequest) (l : list string) (j : nat) :
  failedSymbols (localsAfter yahooFinance r l j)
  = map snd (filter (failed yahooFinance (queryOptions r)) (firstn j (turns 0 l))).
Proof. reflexivity. Qed.

Lemma allResults_localsAfter (r : StockDataRequest) (l : list string) (j : nat) :
  allResults (localsAfter yahooFinance r l j)
  = flat_map (rowsOf yahooFinance (queryOptions r)) (firstn j (turns 0 l)).
Proof. reflexivity. Qed.

Lemma nth_error_turns (l : list string) :
  forall i k, nth_error (turns i l) k = option_map (pair (i + k)) (nth_error l k).
Proof.
  induction l as [|s l IH]; intros i [|k]; cbn; try reflexivity.
  - now rewrite Nat.add_0_r.
  - fold (turns (S i) l). rewrite IH. now rewrite Nat.add_succ_r.
Qed.

Lemma In_firstn_turns (l : list string) (j k : nat) (s : string) :
  In (k, s) (firstn j (turns 0 l)) <-> k < j /\ nth_error l k = Some s.
Proof.
  split.
  - intros Hin. apply In_nth_error in Hin as [m Hm].
    rewrite nth_error_firstn in Hm. destruct (Nat.ltb_spec m j) as [Hlt|]; [|discriminate].
    rewrite nth_error_turns in Hm. destruct (nth_error l m) eqn:Hs; [|discriminate].
    cbn in Hm. injection Hm as <- <-. now split.
  - intros [Hlt Hs]. apply (nth_error_In _ k).
    rewrite nth_error_firstn. destruct (Nat.ltb_spec k j); [|lia].
    rewrite nth_error_turns, Hs. reflexivity.
Qed.

Lemma In_failedSymbols (r : StockDataRequest) (l : list string) (j : nat) (s : string) :
  In s (failedSymbols (localsAfter yahooFinance r l j)) <->
  exists k, k < j /\ nth_error l k = Some s
            /\ attempt yahooFinance (queryOptions r) k s = None.
Proof.
  rewrite failedSymbols_localsAfter, in_map_iff. split.
  - intros [[k s'] [Hs Hin]]. cbn in Hs. subst s'. apply filter_In in Hin as [Hin Hf].
    apply In_firstn_turns in Hin as [Hlt Hnth]. exists k. repeat split; try assumption.
    unfold failed in Hf. cbn in Hf.
    now destruct (attempt yahooFinance (queryOptions r) k s).
  - intros [k [Hlt [Hnth Hnone]]]. exists (k, s). split; [reflexivity|].
    apply filter_In. split; [now apply In_firstn_turns|].
    unfold failed. cbn. now rewrite Hnone.
Qed.

Lemma firstn_succ {A} (l : list A) : forall i x,
  nth_error l i = Some x -> firstn (S i) l = (firstn i l ++ [x])%list.
Proof.
  induction l as [|a l IH]; intros [|i] x H; cbn in H; try discriminate.
  - now injection H as ->.
  - cbn [firstn app]. f_equal. now apply IH.
Qed.

Lemma localsAfter_succ (r : StockDataRequest) (l : list string) (i : nat) (s : string) :
  nth_error l i = Some s ->
  localsAfter yahooFinance r l (S i)
  = advance yahooFinance (queryOptions r) (localsAfter yahooFinance r l i) [(i, s)].
Proof.
  intros Hs. unfold localsAfter.
  rewrite (firstn_succ (turns 0 l) i (i, s)), advance_app; [reflexivity|].
  now rewrite nth_error_turns, Hs.
Qed.









Lemma error_field (total : nat) (v : Locals) :
  error (progressUpdate total v)
  = match failedSymbols v with
    | [] => None
    | _ :: _ => Some ("Failed to fetch: " ++ join ", " (failedSymbols v))
    end.
Proof. unfold progressUpdate. cbn [error]. now destruct (failedSymbols v). Qed.

Lemma flat_map_nil {A B} (f : A -> list B) (l : list A) :
  (forall x, In x l -> f x = []) -> flat_map f l = [].
Proof.
  induction l as [|x l IH]; intros H; cbn; [reflexivity|].
  rewrite (H x (or_introl eq_refl)), IH; [reflexivity|]. intros y Hy. apply H. now right.
Qed.

Lemma loopCalls_quiet (f : Action -> bool) (total : nat) (q : QueryOptions)
  (ts : list Turn) :
  (forall t, filter f (turnCalls yahooFinance q t) = []) ->
  (forall chunk, f (WriterWrite chunk) = false) ->
  forall v, filter f (loopCalls yahooFinance total q v ts) = [].
Proof.
  intros Hturn Hwrite. induction ts as [|t ts IH]; intros v; [reflexivity|].
  cbn [loopCalls]. rewrite !filter_app, Hturn, IH. cbn [filter]. now rewrite Hwrite.
Qed.

Lemma turnCalls_quiet (f : Action -> bool) (q : QueryOptions) (t : Turn) :
  (forall a, f a = true -> isClose a = true \/ isUnhandled a = true \/ isParserParse a = true) ->
  filter f (turnCalls yahooFinance q t) = [].
Proof.
  intros Hf. apply filter_none. intros a Ha.
  destruct (f a) eqn:Hfa; [|reflexivity]. exfalso.
  unfold turnCalls in Ha.
  destruct (quote yahooFinance (fst t) (snd t)) as [[qr|]|e];
    [destruct (historical yahooFinance (fst t) (snd t) q)| |];
    cbn in Ha;
    repeat (destruct Ha as [ <- | Ha ]; [destruct (Hf _ Hfa) as [H|[H|H]]; discriminate|]);
    assumption.
Qed.

Lemma loopCalls_no f (total : nat) (q : QueryOptions) (ts : list Turn) (v : Locals) :
  f = isClose \/ f = isUnhandled \/ f = isParserParse ->
  filter f (loopCalls yahooFinance total q v ts) = [].
Proof.
  intros Hf. apply loopCalls_quiet.
  - intros t. apply turnCalls_quiet. intros a Ha.
    destruct Hf as [ -> | [ -> | -> ] ]; auto.
  - intros chunk. destruct Hf as [ -> | [ -> | -> ] ]; reflexivity.
Qed.

Lemma lastCalls_end (rows : list ResultWithSymbol) :
  exists before,
    lastCalls Parser_parse rows
    = (before ++ [WriterWrite (lastBlock Parser_parse rows); WriterClose])%list
    /\ filter isClose before = [] /\ filter isUnhandled before = [].
Proof.
  unfold lastCalls, lastBlock, giveUp. destruct rows as [|row rows].
  - exists [ConsoleError "Error processing data:" noData]. now repeat split.
  - destruct (Parser_parse fields (row :: rows)) as [csv|e].
    + exists [ParserParse fields (row :: rows)]. now repeat split.
    + exists [ParserParse fields (row :: rows); ConsoleError "Error processing data:" e].
      now repeat split.
Qed.


Lemma no_rows (r : StockDataRequest) (l : list string) (j : nat) :
  (forall i s, nth_error l i = Some s ->
     attempt yahooFinance (queryOptions r) i s = None
     \/ attempt yahooFinance (queryOptions r) i s = Some []) ->
  allResults (localsAfter yahooFinance r l j) = [].
Proof.
  intros H. rewrite allResults_localsAfter. apply flat_map_nil. intros [k s] Hin.
  apply In_firstn_turns in Hin as [_ Hs]. unfold rowsOf. cbn [fst snd].
  now destruct (H k s Hs) as [-> | ->].
Qed.


Lemma advance_quiet_turn (q : QueryOptions) (v : Locals) (t : Turn) :
  attempt yahooFinance q (fst t) (snd t) = Some [] ->
  advance yahooFinance q v [t]
  = {| allResults := allResults v;
       processedCount := S (processedCount v);
       failedSymbols := failedSymbols v |}.
Proof.
  intros H. unfold advance, rowsOf, failed. cbn [flat_map filter map List.length].
  rewrite H. cbn [map app]. now rewrite !app_nil_r, Nat.add_1_r.
Qed.

Lemma attempt_empty (q : QueryOptions) (i : nat) (s : string) (qr : QuoteResult) :
  quote yahooFinance i s = Normal (Some qr) ->
  historical yahooFinance i s q = Normal [] ->
  attempt yahooFinance q i s = Some [].
Proof. intros Hq Hh. unfold attempt. now rewrite Hq, Hh. Qed.


Lemma nth_error_body (r : StockDataRequest) (l : list string) (j : nat) :
  symbols r = Some l ->
  missingRequiredFields r = false ->
  j < List.length l ->
  nth_error (body yahooFinance Parser_parse (parsed r)) j
  = Some (progressBlock (List.length l) (localsAfter yahooFinance r l (S j))).
Proof.
  intros Hl Hok Hj. rewrite (body_stream r l Hl Hok).
  rewrite nth_error_app1 by now rewrite length_map, length_seq.
  rewrite nth_error_map, nth_error_seq.
  destruct (Nat.ltb_spec j (List.length l)); [reflexivity | lia].
Qed.





End StreamFacts.

(* ------------------------------------------------------------------ *)
(** ** The CSV of the complete event                                   *)
(* ------------------------------------------------------------------ *)

Section CompleteEvent.
Import Js Route.
Context {engine : Engine} {platform : Platform} {untyped : Route.Untyped}.
Variable yahooFinance : Provider.
Variable os : Json2csv.OS.



Lemma lastBlock_complete (rows : list ResultWithSymbol) :
  rows <> [] ->
  lastBlock (Json2csv.Parser_parse os) rows
  = block "complete" (Json2csv.parse os fields rows).
Proof. intros Hne. destruct rows; [congruence | reflexivity]. Qed.


(** C7.  The loop accumulates the rows of the successful symbols in
    the order of the symbol list and, for each symbol, in the order the
    provider returned them, each row tagged with the symbol it was
    fetched for; and the symbol and date columns read back from the
    CSV of the complete event are those of the accumulated rows, in
    that order. *)
Theorem rows_in_processing_order (r : StockDataRequest) (l : list string) :
  symbols r = Some l ->
  missingRequiredFields r = false ->
  let n := List.length l in
  let q := queryOptions r in
  let rows := flat_map (rowsOf yahooFinance q) (turns 0 l) in
  (forall w, closed w = false ->
     (forall k, k < n -> gone w (List.length (readable w) + k) = None) ->
     exists v w',
       forOf yahooFinance n q l start w = (Normal v, w') /\ allResults v = rows)
  /\ (forall row, In row rows ->
        exists k s result,
          nth_error l k = Some s /\ attempt yahooFinance q k s = Some result
          /\ In (item row) result /\ symbol row = s)
  /\ (rows <> [] ->
      exists csv,
        last (body yahooFinance (Json2csv.Parser_parse os) (parsed r)) ""
        = block "complete" csv
        /\ map (fun record => (Csv.column 0 record, Csv.column 1 record))
             (tl (Csv.read csv))
           = map (fun row => (symbol row, Date_text (date (item row)))) rows).
Proof.
  intros Hl Hok n q rows. split; [|split].
  - intros w Hopen Hthere. eexists _, _. split; [apply forOf_run; assumption|].
    reflexivity.
  - intros row Hin. subst rows. apply in_flat_map in Hin as [[k s] [Hturn Hrow]].
    unfold rowsOf in Hrow. cbn [fst snd] in Hrow.
    destruct (attempt yahooFinance q k s) as [result|] eqn:Hres; [|destruct Hrow].
    apply in_map_iff in Hrow as [it [<- Hit]].
    exists k, s, result. repeat split; try assumption.
    apply In_nth_error in Hturn as [m Hm]. rewrite nth_error_turns in Hm.
    destruct (nth_error l m) eqn:Hlm; [|discriminate]. cbn in Hm.
    injection Hm as <- <-. assumption.
  - intros Hne. exists (Json2csv.parse os fields rows).
    assert (Hrows : allResults (localsAfter yahooFinance r l (List.length l)) = rows).
    { now rewrite localsAfter_all. }
    rewrite (body_stream _ _ r l Hl Hok), last_last, Hrows.
    split; [now apply lastBlock_complete|].
    rewrite read_parse. cbn [tl]. rewrite map_map. reflexivity.
Qed.
End CompleteEvent.

(* ------------------------------------------------------------------ *)
(** ** The page and the complete event                                 *)
(* ------------------------------------------------------------------ *)

Section PageFacts.
Import Js Route.
Context {engine : Engine} {platform : Platform} {untyped : Route.Untyped}.

(** X1.  Whatever rows follow it and whatever the end of line, the
    block of a complete event makes [processLine] throw before it
    reaches the [switch]: its data line is the header of the CSV, which
    [JSON.parse] rejects with the [SyntaxError] the engine has for
    that line. *)
Theorem processLine_complete_throws (os : Json2csv.OS) (rest : string) (st : Page.State) :
  Page.processLine
    ("event: complete" ++ str LF ++ "data: " ++ Json2csv.getHeader fields
       ++ Json2csv.EOL os ++ rest) st
  = Throw (SyntaxError (JSON_parse_message (Wire.headerLine os))).
Proof. destruct os; reflexivity. Qed.

End PageFacts.

Section BeforeTheStream.
Import Js Route.
Context {engine : Engine} {platform : Platform} {untyped : Route.Untyped}.
Variable yahooFinance : Provider.
Variable Parser_parse : list string -> list ResultWithSymbol -> Completion string.

(** X2.  A request whose body cannot be read as JSON is answered 500
    with the message "Failed to fetch stock data"; the error is logged
    and nothing else happens.  The body of the answer reads back as
    an object whose only member is that message. *)
Theorem unreadable_body_is_answered_500 (e : Thrown) :
  POST yahooFinance Parser_parse {| json := Throw e |} initial
  = (Normal (NextResponse_json (JSON_stringify_message "Failed to fetch stock data") 500),
     {| trace := [ConsoleError "Error fetching stock data:" e];
        readable := [];
        closed := false;
        gone := stays |})
  /\ Json.JSON_parse (JSON_stringify_message "Failed to fetch stock data")
     = Normal (Json.JObject [("message", Json.JString "Failed to fetch stock data")]).
Proof. split; reflexivity. Qed.
End BeforeTheStream.


(* ------------------------------------------------------------------ *)
(** ** What the route stringifies, the page parses                     *)
(* ------------------------------------------------------------------ *)

Section JsonFacts.
Import Js Json Wire.
Context {engine : Engine}.

Lemma parse_escape_unit (c : ascii) (rest : string) :
  parse_string_body (escape_unit c ++ rest) = prepend (str c) (parse_string_body rest).
Proof.
  destruct c as [[] [] [] [] [] [] [] []]; reflexivity.
Qed.

Lemma parse_escape_units (s : string) (rest : string) :
  parse_string_body (escape_units s ++ String DQUOTE rest) = Some (s, rest).
Proof.
  induction s as [|c s IH]; [reflexivity|].
  cbn [escape_units]. rewrite append_assoc, parse_escape_unit, IH. reflexivity.
Qed.

Lemma take_digits_digits (d : Decimal.uint) (rest : string) :
  stops rest = true ->
  take_digits (NilEmpty.string_of_uint d ++ rest) = (NilEmpty.string_of_uint d, rest).
Proof.
  intros Hrest.
  induction d; cbn [NilEmpty.string_of_uint String.append];
    try (change (take_digits (String ?c ?t))
           with (let (ds, r) := take_digits t in (String c ds, r));
         now rewrite IHd).
  destruct rest as [|c rest]; [reflexivity|]. cbn in Hrest. cbn [take_digits].
  destruct (is_digit c); [discriminate | reflexivity].
Qed.

Lemma nzhead_shape (d : Decimal.uint) :
  match Decimal.nzhead d with
  | Decimal.D0 _ => False
  | _ => True
  end.
Proof. induction d; cbn; auto. Qed.

Lemma to_uint_shape (n : nat) :
  match Nat.to_uint n with
  | Decimal.Nil => False
  | Decimal.D0 d => d = Decimal.Nil
  | _ => True
  end.
Proof.
  assert (E : Nat.to_uint n = Decimal.unorm (Nat.to_uint n))
    by (now rewrite <- DecimalNat.Unsigned.to_of, DecimalNat.Unsigned.of_to).
  rewrite E. unfold Decimal.unorm.
  pose proof (nzhead_shape (Nat.to_uint n)) as H.
  destruct (Decimal.nzhead (Nat.to_uint n)); auto. contradiction.
Qed.

Lemma after_int_stops (i rest : string) :
  stops rest = true -> after_int i rest = Some (i, rest).
Proof.
  intros Hrest. unfold after_int. destruct rest as [|c rest].
  - cbn. now rewrite append_nil_r.
  - destruct c as [[] [] [] [] [] [] [] []]; try discriminate Hrest;
      cbn; now rewrite append_nil_r.
Qed.

Lemma parse_number_digits (n : nat) (rest : string) :
  stops rest = true ->
  parse_number (Number_toString n ++ rest) = Some (Number_toString n, rest).
Proof.
  intros Hrest. unfold Number_toString. pose proof (to_uint_shape n) as H.
  destruct (Nat.to_uint n) as [|d|d|d|d|d|d|d|d|d|d]; try contradiction;
    [subst d|..];
    cbn [NilEmpty.string_of_uint String.append];
    unfold parse_number;
    cbn [Ascii.eqb is_digit nat_of_ascii Nat.leb andb Bool.eqb];
    try rewrite (take_digits_digits d rest Hrest);
    apply (after_int_stops _ rest Hrest).
Qed.

Lemma skip_ws_quote (t : string) : skip_ws (String DQUOTE t) = String DQUOTE t.
Proof. reflexivity. Qed.

Lemma Number_toString_cons (n : nat) :
  exists c t, Number_toString n = String c t /\ is_digit c = true.
Proof.
  unfold Number_toString. pose proof (to_uint_shape n) as H.
  destruct (Nat.to_uint n); try contradiction; cbn; eauto.
Qed.

Lemma is_digit_not_ws (c : ascii) : is_digit c = true -> is_ws c = false.
Proof. destruct c as [[] [] [] [] [] [] [] []]; try reflexivity; intros H; vm_compute in H; discriminate. Qed.

Lemma skip_ws_scalar (v : Scalar) (rest : string) :
  skip_ws (scalarText v ++ rest) = scalarText v ++ rest.
Proof.
  destruct v as [s|n]; [reflexivity|]. cbn [scalarText].
  destruct (Number_toString_cons n) as [c [t [-> Hc]]]. cbn [String.append skip_ws].
  now rewrite (is_digit_not_ws c Hc).
Qed.

Lemma parse_value_scalar (fuel : nat) (v : Scalar) (rest : string) :
  stops rest = true ->
  parse_value (S fuel) (scalarText v ++ rest) = Some (scalarJson v, rest).
Proof.
  intros Hrest. destruct v as [s|n]; cbn [scalarText scalarJson].
  - unfold stringify_string. cbn [String.append parse_value].
    change (Ascii.eqb DQUOTE "{") with false. change (Ascii.eqb DQUOTE "[") with false.
    rewrite Ascii.eqb_refl. cbn match.
    rewrite append_assoc. cbn [str String.append].
    now rewrite parse_escape_units.
  - pose proof (parse_number_digits n rest Hrest) as Hnum.
    destruct (Number_toString_cons n) as [c [t [E Hc]]]. rewrite E in *.
    cbn [String.append parse_value] in *.
    destruct c as [[] [] [] [] [] [] [] []]; try discriminate Hc;
      cbn [Ascii.eqb Bool.eqb startsWith andb]; cbn match; now rewrite Hnum.
Qed.

Lemma memberText_eq (kv : string * Scalar) (rest : string) :
  memberText kv ++ rest
  = String DQUOTE (escape_units (fst kv) ++ String DQUOTE (String ":" (scalarText (snd kv) ++ rest))).
Proof.
  unfold memberText, member, stringify_string.
  cbn [str String.append]. rewrite !append_assoc. reflexivity.
Qed.

Lemma parse_members_one (f : nat) (kv : string * Scalar) (rest : string) :
  stops rest = true ->
  parse_members (S (S f)) (memberText kv ++ rest)
  = match skip_ws rest with
    | String ","%char r =>
        match parse_members (S f) (skip_ws r) with
        | Some (ms, r') => Some (memberJson kv :: ms, r')
        | None => None
        end
    | String "}"%char r => Some ([memberJson kv], r)
    | _ => None
    end.
Proof.
  intros Hrest. rewrite memberText_eq.
  cbn [parse_members]. rewrite Ascii.eqb_refl, parse_escape_units.
  change (skip_ws (String ":" ?t)) with (String ":" t). cbv iota beta.
  rewrite skip_ws_scalar, (parse_value_scalar f _ _ Hrest).
  reflexivity.
Qed.

Lemma flatText_cons (kv kv' : string * Scalar) (ms : list (string * Scalar)) (rest : string) :
  flatText (kv :: kv' :: ms) ++ rest
  = memberText kv ++ String "," (flatText (kv' :: ms) ++ rest).
Proof.
  unfold flatText. cbn [map join]. now rewrite !append_assoc.
Qed.

Lemma skip_ws_member (kv : string * Scalar) (rest : string) :
  skip_ws (memberText kv ++ rest) = memberText kv ++ rest.
Proof. now rewrite memberText_eq. Qed.

Lemma skip_ws_flatText (kv : string * Scalar) (ms : list (string * Scalar)) (rest : string) :
  skip_ws (flatText (kv :: ms) ++ rest) = flatText (kv :: ms) ++ rest.
Proof.
  destruct ms as [|kv' ms].
  - apply skip_ws_member.
  - rewrite flatText_cons. apply skip_ws_member.
Qed.

Lemma parse_members_flat (ms : list (string * Scalar)) :
  forall (kv : string * Scalar) (f : nat) (rest : string),
    List.length ms <= f ->
    parse_members (S (S f)) (flatText (kv :: ms) ++ String "}" rest)
    = Some (map memberJson (kv :: ms), rest).
Proof.
  induction ms as [|kv' ms IH]; intros kv f rest Hf.
  - unfold flatText. cbn [map join]. now rewrite parse_members_one.
  - rewrite flatText_cons, parse_members_one by reflexivity.
    change (skip_ws (String "," ?t)) with (String "," t). cbv iota beta.
    rewrite skip_ws_flatText.
    destruct f as [|f]; [cbn in Hf; lia|].
    rewrite IH by (cbn in Hf; lia). reflexivity.
Qed.

Lemma flatObject_eq (ms : list (string * Scalar)) :
  flatObject ms = String "{" (flatText ms ++ "}").
Proof.
  unfold flatObject, stringify_object, flatText. cbn [String.append]. do 3 f_equal.
  induction ms as [|kv ms IH]; [reflexivity|]. cbn [map flat_map snd fst app]. now rewrite IH.
Qed.

Lemma string_length_app (a b : string) :
  String.length (a ++ b) = String.length a + String.length b.
Proof. induction a as [|c a IH]; cbn; [reflexivity | now rewrite IH]. Qed.

Lemma flatText_length (ms : list (string * Scalar)) :
  List.length ms <= String.length (flatText ms).
Proof.
  induction ms as [|kv ms IH]; [cbn; lia|].
  destruct ms as [|kv' ms].
  - unfold flatText. cbn [map join List.length]. rewrite <- (append_nil_r (memberText kv)).
    rewrite memberText_eq. cbn [String.length]. lia.
  - rewrite <- (append_nil_r (flatText _)), flatText_cons, memberText_eq.
    cbn [String.length List.length] in *. rewrite !string_length_app. cbn [String.length].
    rewrite !string_length_app. cbn [String.length]. rewrite append_nil_r. lia.
Qed.

Lemma flatText_quote (kv : string * Scalar) (ms : list (string * Scalar)) (rest : string) :
  exists t, flatText (kv :: ms) ++ rest = String DQUOTE t.
Proof.
  destruct ms as [|kv' ms].
  - unfold flatText. cbn [map join]. rewrite memberText_eq. eauto.
  - rewrite flatText_cons, memberText_eq. eauto.
Qed.

Theorem JSON_parse_flatObject (ms : list (string * Scalar)) :
  JSON_parse (flatObject ms) = Normal (JObject (map memberJson ms)).
Proof.
  unfold JSON_parse. rewrite flatObject_eq.
  change (skip_ws (String "{" ?t)) with (String "{" t).
  destruct ms as [|kv ms]; [reflexivity|].
  pose proof (flatText_length (kv :: ms)) as Hlen.
  cbn [String.length]. rewrite string_length_app. cbn [String.length].
  remember (String.length (flatText (kv :: ms))) as n eqn:En.
  cbn [List.length] in Hlen.
  pose proof (parse_members_flat ms kv (2 * n + 3) "" ltac:(lia)) as H.
  pose proof (skip_ws_flatText kv ms "}") as Hws.
  replace (2 * S (n + 1) + 2) with (S (S (S (2 * n + 3)))) by lia.
  destruct (flatText_quote kv ms "}") as [t E]. rewrite E in *.
  cbn [parse_value]. change (Ascii.eqb "{" "{") with true. cbv iota.
  rewrite Hws. cbv beta iota delta [DQUOTE]. cbv beta iota delta [DQUOTE] in H.
  rewrite H. reflexivity.
Qed.

End JsonFacts.

(* ------------------------------------------------------------------ *)
(** ** The text of a response, cut at blank lines                      *)
(* ------------------------------------------------------------------ *)

Section SplitFacts.
Import Js Json Wire.
Context {engine : Engine}.

Lemma scan_app (a b : string) : forall s, scan s (a ++ b) = scan (scan s a) b.
Proof. induction a as [|c a IH]; intros s; cbn; [reflexivity | apply IH]. Qed.

(** The pieces already complete stay as they are. *)
Lemma scan_complete (t : string) : forall (d : list string) (p : string) (h : bool),
  scan {| complete := d; piece := p; held := h |} t
  = let s := scan {| complete := []; piece := p; held := h |} t in
    {| complete := d ++ complete s; piece := piece s; held := held s |}.
Proof.
  induction t as [|c t IH]; intros d p h.
  - cbn. now rewrite app_nil_r.
  - cbn [scan]. unfold feed. cbn [complete piece held].
    destruct (Ascii.eqb c LF), h; cbn [app].
    + rewrite (IH (d ++ [p])%list), (IH [p]). cbn zeta. now rewrite <- app_assoc.
    + apply IH.
    + apply IH.
    + apply IH.
Qed.

Lemma startsWith_blankLine (c : ascii) (rest : string) :
  startsWith blankLine (String c rest)
  = Ascii.eqb c LF && match rest with String d _ => Ascii.eqb d LF | EmptyString => false end.
Proof.
  unfold blankLine. cbn [startsWith str]. rewrite (Ascii.eqb_sym LF c).
  destruct rest as [|d rest]; [reflexivity|]. rewrite (Ascii.eqb_sym LF d).
  now rewrite andb_true_r.
Qed.

(** [split] at a blank line is the scan, read to the end. *)
Lemma split_from_scan (s : string) :
  (forall cur, split_from blankLine 0 cur s
               = pieces (scan {| complete := []; piece := cur; held := false |} s))
  /\ (forall cur, split_from blankLine 0 cur (String LF s)
                  = pieces (scan {| complete := []; piece := cur; held := true |} s)).
Proof.
  induction s as [|c s [IHa IHb]].
  - split; intros cur; reflexivity.
  - split; intros cur.
    + destruct (Ascii.eqb_spec c LF) as [-> | Hc].
      * rewrite IHb. reflexivity.
      * cbn [split_from]. rewrite startsWith_blankLine.
        destruct (Ascii.eqb_spec c LF) as [E | _]; [contradiction|]. cbn [andb].
        rewrite IHa. cbn [scan]. unfold feed. cbn [held piece complete].
        destruct (Ascii.eqb_spec c LF) as [E | _]; [contradiction|]. reflexivity.
    + cbn [split_from]. rewrite startsWith_blankLine, Ascii.eqb_refl. cbn [andb].
      destruct (Ascii.eqb_spec c LF) as [-> | Hc].
      * cbn [blankLine String.length str Nat.sub split_from].
        rewrite IHa. cbn [scan]. unfold feed. cbn [held piece complete].
        rewrite Ascii.eqb_refl. cbn [app].
        rewrite (scan_complete s [cur] "" false). reflexivity.
      * cbn [split_from]. rewrite startsWith_blankLine.
        destruct (Ascii.eqb_spec c LF) as [E | _]; [contradiction|]. cbn [andb].
        rewrite IHa. cbn [scan]. unfold feed. cbn [held piece complete].
        destruct (Ascii.eqb_spec c LF) as [E | _]; [contradiction|]. reflexivity.
Qed.

Lemma split_scan (s : string) : split blankLine s = pieces (scan fresh s).
Proof. apply (proj1 (split_from_scan s)). Qed.

(** The piece being read has no blank line in it: scanned on its own
    it is one piece. *)
Lemma scan_piece (t : string) : forall s,
  scan fresh (piece s) = {| complete := []; piece := piece s; held := false |} ->
  scan fresh (piece (scan s t))
  = {| complete := []; piece := piece (scan s t); held := false |}.
Proof.
  induction t as [|c t IH]; intros s Hs; [exact Hs|].
  cbn [scan]. apply IH. unfold feed.
  destruct (Ascii.eqb_spec c LF) as [-> | Hc].
  - destruct (held s); cbn [piece]; [reflexivity | exact Hs].
  - cbn [piece]. destruct (held s).
    + rewrite !scan_app, Hs. cbn [scan str]. unfold feed. cbn [held piece complete].
      rewrite Ascii.eqb_refl.
      destruct (Ascii.eqb_spec c LF) as [E | _]; [contradiction|]. reflexivity.
    + rewrite scan_app, Hs. cbn [scan str]. unfold feed. cbn [held piece complete].
      destruct (Ascii.eqb_spec c LF) as [E | _]; [contradiction|]. reflexivity.
Qed.

Lemma scan_unfinished (t : string) :
  let s := scan fresh t in
  scan fresh (unfinished s) = {| complete := []; piece := piece s; held := held s |}.
Proof.
  intros s. pose proof (scan_piece t fresh eq_refl) as H. fold s in H.
  unfold unfinished. destruct (held s); [|exact H].
  rewrite scan_app, H. reflexivity.
Qed.

Lemma removelast_pieces (s : Scan) : removelast (pieces s) = complete s.
Proof. apply removelast_last. Qed.

Lemma last_pieces (s : Scan) : last (pieces s) "" = unfinished s.
Proof. apply last_last. Qed.

(** Text that arrives in two parts: the pieces complete in the first
    part, then the pieces of what was left of it and the second part. *)
Lemma split_app (x y : string) :
  split blankLine (x ++ y)
  = (removelast (split blankLine x)
     ++ split blankLine (last (split blankLine x) "" ++ y))%list.
Proof.
  rewrite !split_scan, removelast_pieces, last_pieces, !scan_app, scan_unfinished.
  destruct (scan fresh x) as [d p h]. cbn [complete piece held].
  rewrite (scan_complete y d p h). cbn zeta. unfold pieces. cbn [complete].
  now rewrite <- app_assoc.
Qed.

Lemma split_last (x : string) :
  split blankLine (last (split blankLine x) "") = [last (split blankLine x) ""].
Proof.
  rewrite (split_scan x), last_pieces, split_scan, scan_unfinished. reflexivity.
Qed.

Lemma split_not_nil (x : string) : split blankLine x <> [].
Proof. rewrite split_scan. unfold pieces. now destruct (complete (scan fresh x)). Qed.

Lemma text_cons (x : string) (l : list string) : text (x :: l) = x ++ text l.
Proof. unfold text. destruct l; cbn; [now rewrite append_nil_r | reflexivity]. Qed.

Lemma text_app (a b : list string) : text (a ++ b) = text a ++ text b.
Proof.
  induction a as [|x a IH]; [reflexivity|].
  cbn [app]. now rewrite !text_cons, IH, append_assoc.
Qed.

Lemma processLines_app (a b : list string) : forall st,
  Page.processLines (a ++ b) st
  = match Page.processLines a st with
    | (st', None) => Page.processLines b st'
    | (st', Some e) => (st', Some e)
    end.
Proof.
  induction a as [|x a IH]; intros st; [reflexivity|].
  cbn [app Page.processLines]. destruct (Page.processLine x st); [apply IH | reflexivity].
Qed.

Lemma readLoop_buffer (chunks : list string) : forall (buffer : string) (st : Page.State),
  split blankLine buffer = [buffer] ->
  Page.readLoop chunks buffer st
  = Page.processLines (removelast (split blankLine (buffer ++ text chunks))) st.
Proof.
  induction chunks as [|value later IH]; intros buffer st Hb.
  - cbn [text String.concat]. rewrite append_nil_r, Hb. reflexivity.
  - cbn [Page.readLoop]. rewrite text_cons, <- append_assoc.
    rewrite (split_app (buffer ++ value) (text later)).
    rewrite removelast_app by apply split_not_nil.
    rewrite processLines_app.
    fold blankLine.
    destruct (Page.processLines (removelast (split blankLine (buffer ++ value))) st)
      as [st' [e|]]; [reflexivity|].
    apply IH, split_last.
Qed.

(** The read loop, by the text of the body. *)
Lemma readLoop_text (chunks : list string) (st : Page.State) :
  Page.readLoop chunks "" st
  = Page.processLines (removelast (split blankLine (text chunks))) st.
Proof. now rewrite (readLoop_buffer chunks "" st eq_refl). Qed.

End SplitFacts.

(* ------------------------------------------------------------------ *)
(** ** The blocks of the stream, as the page reads them               *)
(* ------------------------------------------------------------------ *)

Section BlockFacts.
Import Js Json Wire.
Context {engine : Engine}.

Lemma substring_all (s : string) : substring 0 (String.length s) s = s.
Proof. induction s as [|c s IH]; cbn; [reflexivity | now rewrite IH]. Qed.

Lemma drop_app (p s : string) : drop (String.length p) (p ++ s) = s.
Proof.
  unfold drop. induction p as [|c p IH].
  - cbn. rewrite Nat.sub_0_r. apply substring_all.
  - cbn. exact IH.
Qed.

Lemma startsWith_app (p s : string) : startsWith p (p ++ s) = true.
Proof. induction p as [|c p IH]; cbn; [reflexivity | now rewrite Ascii.eqb_refl]. Qed.

Lemma replace_prefix (p r s : string) : replace p r (p ++ s) = r ++ s.
Proof.
  pose proof (startsWith_app p s) as H. pose proof (drop_app p s) as D.
  destruct (p ++ s); cbn [replace]; now rewrite H, D.
Qed.

Lemma noLF_app (a b : string) : noLF (a ++ b) = noLF a && noLF b.
Proof. induction a as [|c a IH]; cbn; [reflexivity | now rewrite IH, andb_assoc]. Qed.

Lemma noLF_escape_unit (c : ascii) : noLF (escape_unit c) = true.
Proof. destruct c as [[] [] [] [] [] [] [] []]; reflexivity. Qed.

Lemma noLF_escape_units (s : string) : noLF (escape_units s) = true.
Proof.
  induction s as [|c s IH]; [reflexivity|].
  cbn [escape_units]. now rewrite noLF_app, noLF_escape_unit, IH.
Qed.

Lemma noLF_digits (d : Decimal.uint) : noLF (NilEmpty.string_of_uint d) = true.
Proof. induction d; cbn; auto. Qed.

Lemma noLF_scalar (v : Scalar) : noLF (scalarText v) = true.
Proof.
  destruct v as [s|n]; cbn [scalarText].
  - unfold stringify_string. cbn [String.append noLF]. 
    now rewrite noLF_app, noLF_escape_units.
  - apply noLF_digits.
Qed.

Lemma noLF_member (kv : string * Scalar) : noLF (memberText kv) = true.
Proof.
  rewrite <- (append_nil_r (memberText kv)), memberText_eq.
  cbn [noLF]. rewrite noLF_app, noLF_escape_units. cbn [noLF andb].
  rewrite noLF_app, noLF_scalar. reflexivity.
Qed.

Lemma noLF_flatText (ms : list (string * Scalar)) : noLF (flatText ms) = true.
Proof.
  induction ms as [|kv ms IH]; [reflexivity|].
  destruct ms as [|kv' ms]; [apply noLF_member|].
  rewrite <- (append_nil_r (flatText _)), flatText_cons, noLF_app, noLF_member.
  cbn [noLF andb]. now rewrite append_nil_r.
Qed.

Lemma noLF_flatObject (ms : list (string * Scalar)) : noLF (flatObject ms) = true.
Proof. rewrite flatObject_eq. cbn [noLF]. now rewrite noLF_app, noLF_flatText. Qed.

(** Cutting at single line feeds. *)
Lemma split_LF_last (b : string) : forall cur,
  noLF b = true -> split_from (str LF) 0 cur b = [cur ++ b].
Proof.
  induction b as [|c b IH]; intros cur Hb.
  - now rewrite append_nil_r.
  - cbn [noLF] in Hb. apply andb_prop in Hb as [Hc Hb].
    cbn [split_from startsWith str]. rewrite (Ascii.eqb_sym LF c).
    apply negb_true_iff in Hc. rewrite Hc. cbn [andb].
    rewrite (IH _ Hb), append_assoc. reflexivity.
Qed.

Lemma split_LF_cons (a : string) (rest : string) : forall cur,
  noLF a = true ->
  split_from (str LF) 0 cur (a ++ String LF rest)
  = (cur ++ a) :: split_from (str LF) 0 "" rest.
Proof.
  induction a as [|c a IH]; intros cur Ha.
  - cbn [String.append split_from startsWith str]. rewrite Ascii.eqb_refl.
    cbn [andb String.length Nat.sub]. now rewrite append_nil_r.
  - cbn [noLF] in Ha. apply andb_prop in Ha as [Hc Ha].
    cbn [String.append split_from startsWith str]. rewrite (Ascii.eqb_sym LF c).
    apply negb_true_iff in Hc. rewrite Hc. cbn [andb].
    rewrite (IH _ Ha), append_assoc. reflexivity.
Qed.

Lemma line_eq (name data : string) :
  line name data = ("event: " ++ name) ++ String LF ("data: " ++ data).
Proof. unfold line. now rewrite append_assoc. Qed.

Lemma block_line (name data : string) :
  Route.block name data = line name data ++ blankLine.
Proof.
  unfold Route.block, line, blankLine. now rewrite !append_assoc.
Qed.

Lemma split_line (name data : string) :
  noLF name = true -> noLF data = true ->
  split (str LF) (line name data) = ["event: " ++ name; "data: " ++ data].
Proof.
  intros Hn Hd. unfold split. rewrite line_eq, split_LF_cons, split_LF_last.
  - reflexivity.
  - rewrite noLF_app. now rewrite Hd.
  - rewrite noLF_app. now rewrite Hn.
Qed.

Lemma JSON_stringify_progress_flat (u : Route.ProgressUpdate) :
  Route.JSON_stringify_progress u = flatObject (progressMembers u).
Proof. unfold progressMembers. destruct u as [t c n [e|]]; reflexivity. Qed.

Lemma JSON_stringify_error_flat (m : string) :
  Route.JSON_stringify_error m = flatObject [("error", SString m)].
Proof. reflexivity. Qed.

Lemma processLine_data (name data : string) (st : Page.State) :
  noLF name = true -> noLF data = true ->
  Page.processLine (line name data) st
  = match JSON_parse data with
    | Throw e => Throw e
    | Normal v =>
        if name =? "progress" then
          match property v "current", property v "total", property v "error" with
          | Normal c, Normal t, Normal e =>
              Normal (Page.setProgress
                        {| Page.current := c; Page.total := t; Page.error := e |} st)
          | Throw x, _, _ => Throw x
          | _, Throw x, _ => Throw x
          | _, _, Throw x => Throw x
          end
        else if name =? "complete" then
          Normal (Page.click
                    {| Page.blob := {| Page.blobParts := [v]; Page.blobType := "text/csv" |};
                       Page.download := "stock_historical_data.csv" |} st)
        else if name =? "error" then
          match property v "error" with
          | Normal e => Throw (Page.Error_of e)
          | Throw x => Throw x
          end
        else Normal st
    end.
Proof.
  intros Hn Hd. unfold Page.processLine. rewrite (split_line name data Hn Hd).
  cbn [nth_error]. 
  change (truthy ("event: " ++ name)) with true.
  change (truthy ("data: " ++ data)) with true.
  cbn [negb orb].
  rewrite (replace_prefix "event: " "" name), (replace_prefix "data: " "" data).
  reflexivity.
Qed.

(** The page reads a progress update as it was written. *)
Lemma processLine_progress (u : Route.ProgressUpdate) (st : Page.State) :
  Page.processLine (line "progress" (Route.JSON_stringify_progress u)) st
  = Normal (Page.setProgress (shown u) st).
Proof.
  rewrite processLine_data; [|reflexivity|].
  - rewrite JSON_stringify_progress_flat, JSON_parse_flatObject.
    destruct u as [t c n [e|]]; reflexivity.
  - rewrite JSON_stringify_progress_flat. apply noLF_flatObject.
Qed.

Lemma processLine_error (m : string) (st : Page.State) :
  Page.processLine (line "error" (Route.JSON_stringify_error m)) st = Throw (Error m).
Proof.
  rewrite processLine_data; [|reflexivity|].
  - rewrite JSON_stringify_error_flat, JSON_parse_flatObject. reflexivity.
  - rewrite JSON_stringify_error_flat. apply noLF_flatObject.
Qed.

End BlockFacts.

Section FramingFacts.
Import Js Json Wire.
Context {engine : Engine}.

Lemma split_from_unbroken (s : string) : forall cur,
  hasBlankLine s = false -> split_from blankLine 0 cur s = [cur ++ s].
Proof.
  induction s as [|c s IH]; intros cur Hs.
  - now rewrite append_nil_r.
  - cbn [hasBlankLine] in Hs. apply orb_false_elim in Hs as [Hc Hs].
    cbn [split_from]. rewrite Hc, (IH _ Hs), append_assoc. reflexivity.
Qed.

(** A text that does not start with a blank line when a line feed
    follows it does not, whatever follows it. *)
Lemma startsWith_blank (x y : string) :
  x <> "" -> startsWith blankLine (x ++ str LF) = false ->
  startsWith blankLine (x ++ y) = false.
Proof.
  intros Hx H. destruct x as [|c [|d x]]; [contradiction| |].
  - cbn [String.append] in *. rewrite startsWith_blankLine in *.
    cbn [str] in H. rewrite Ascii.eqb_refl, andb_true_r in H. now rewrite H.
  - cbn [String.append] in *. now rewrite startsWith_blankLine in *.
Qed.

Lemma split_from_block (l : string) (rest : string) : forall cur,
  hasBlankLine (l ++ str LF) = false ->
  split_from blankLine 0 cur (l ++ blankLine ++ rest)
  = (cur ++ l) :: split_from blankLine 0 "" rest.
Proof.
  induction l as [|c l IH]; intros cur Hl.
  - rewrite append_nil_r. reflexivity.
  - cbn [String.append hasBlankLine] in Hl. apply orb_false_elim in Hl as [Hc Hl].
    change (String c l ++ blankLine ++ rest) with (String c (l ++ blankLine ++ rest)).
    cbn [split_from].
    change (String c (l ++ blankLine ++ rest)) with (String c l ++ blankLine ++ rest).
    rewrite (startsWith_blank (String c l) _ ltac:(discriminate) Hc).
    rewrite (IH _ Hl), append_assoc. reflexivity.
Qed.

Lemma split_from_any (y : string) : forall cur,
  exists rest more, split_from blankLine 0 cur y = (cur ++ rest) :: more.
Proof.
  induction y as [|c y IH]; intros cur.
  - exists "", []. now rewrite append_nil_r.
  - cbn [split_from]. destruct (startsWith blankLine (String c y)).
    + exists "". eexists. now rewrite append_nil_r.
    + destruct (IH (cur ++ str c)) as [rest [more E]]. exists (String c rest), more.
      now rewrite E, append_assoc.
Qed.

(** The first piece starts with whatever the text starts with before
    its first blank line. *)
Lemma split_from_head (x : string) (y : string) : forall cur,
  hasBlankLine (x ++ str LF) = false ->
  exists rest more, split_from blankLine 0 cur (x ++ y) = (cur ++ x ++ rest) :: more.
Proof.
  induction x as [|c x IH]; intros cur Hx.
  - apply split_from_any.
  - cbn [String.append hasBlankLine] in Hx. apply orb_false_elim in Hx as [Hc Hx].
    change (String c x ++ y) with (String c (x ++ y)).
    cbn [split_from].
    change (String c (x ++ y)) with (String c x ++ y).
    rewrite (startsWith_blank (String c x) _ ltac:(discriminate) Hc).
    destruct (IH (cur ++ str c) Hx) as [rest [more E]]. exists rest, more.
    now rewrite E, append_assoc.
Qed.

Lemma split_from_not_nil (s : string) : forall skip cur, split_from blankLine skip cur s <> [].
Proof.
  induction s as [|c s IH]; intros skip cur; [discriminate|].
  cbn [split_from]. destruct skip; [|apply IH].
  destruct (startsWith blankLine (String c s)); [discriminate | apply IH].
Qed.

(** A text that ends in a blank line has a last piece after its first. *)
Lemma split_from_ended (t : string) : forall cur,
  exists first second more,
    split_from blankLine 0 cur (t ++ blankLine) = first :: second :: more.
Proof.
  induction t as [|c t IH]; intros cur.
  - exists cur, "", []. reflexivity.
  - change (String c t ++ blankLine) with (String c (t ++ blankLine)).
    cbn [split_from]. destruct (startsWith blankLine (String c (t ++ blankLine))).
    + pose proof (split_from_not_nil (t ++ blankLine) (String.length blankLine - 1) "") as H.
      destruct (split_from blankLine (String.length blankLine - 1) "" (t ++ blankLine))
        as [|second more]; [contradiction|]. eauto.
    + apply IH.
Qed.

Lemma noLF_unbroken (s : string) : noLF s = true -> hasBlankLine (s ++ str LF) = false.
Proof.
  induction s as [|c s IH]; intros Hs; [reflexivity|].
  cbn [noLF] in Hs. apply andb_prop in Hs as [Hc Hs]. apply negb_true_iff in Hc.
  cbn [String.append hasBlankLine]. rewrite startsWith_blankLine, Hc, (IH Hs). reflexivity.
Qed.

Lemma noLF_hasBlankLine (s : string) : noLF s = true -> hasBlankLine s = false.
Proof.
  induction s as [|c s IH]; intros Hs; [reflexivity|].
  cbn [noLF] in Hs. apply andb_prop in Hs as [Hc Hs]. apply negb_true_iff in Hc.
  cbn [hasBlankLine]. rewrite startsWith_blankLine, Hc, (IH Hs). reflexivity.
Qed.

(** Two lines, the second not empty, have no blank line between or
    after them. *)
Lemma two_lines_unbroken (a : string) (d : ascii) (b : string) :
  noLF a = true -> noLF (String d b) = true ->
  hasBlankLine ((a ++ String LF (String d b)) ++ str LF) = false.
Proof.
  intros Ha Hb. rewrite append_assoc.
  induction a as [|c a IH].
  - cbn [String.append hasBlankLine]. rewrite startsWith_blankLine.
    pose proof Hb as Hb'. cbn [noLF] in Hb'. apply andb_prop in Hb' as [Hd _].
    apply negb_true_iff in Hd. rewrite Hd, andb_false_r. cbn [orb].
    apply (noLF_unbroken (String d b) Hb).
  - cbn [noLF] in Ha. apply andb_prop in Ha as [Hc Ha]. apply negb_true_iff in Hc.
    cbn [String.append hasBlankLine]. rewrite startsWith_blankLine, Hc. cbn [andb orb].
    apply (IH Ha).
Qed.

Lemma line_unbroken (name data : string) :
  noLF name = true -> noLF data = true ->
  hasBlankLine (line name data ++ str LF) = false.
Proof.
  intros Hn Hd. rewrite line_eq.
  apply (two_lines_unbroken ("event: " ++ name) "d" ("ata: " ++ data)).
  - rewrite noLF_app. now rewrite Hn.
  - change (String "d" ("ata: " ++ data)) with ("data: " ++ data).
    rewrite noLF_app. now rewrite Hd.
Qed.

Lemma split_blocks (ls : list string) (rest : string) :
  Forall (fun l => hasBlankLine (l ++ str LF) = false) ls ->
  split blankLine (text (map (fun l => l ++ blankLine) ls) ++ rest)
  = (ls ++ split blankLine rest)%list.
Proof.
  induction 1 as [|l ls Hl _ IH]; [reflexivity|].
  cbn [map app]. rewrite text_cons, !append_assoc.
  unfold split at 1. rewrite (split_from_block l _ "" Hl). cbn [String.append].
  fold (split blankLine (text (map (fun l0 => l0 ++ blankLine) ls) ++ rest)).
  now rewrite IH.
Qed.

End FramingFacts.

(* ------------------------------------------------------------------ *)
(** ** From the stream to the state of the page                       *)
(* ------------------------------------------------------------------ *)

Section EndToEnd.
Import Js Json Route Wire.
Context {engine : Engine} {platform : Platform} {untyped : Route.Untyped}.
Variable yahooFinance : Provider.

Lemma handleResponse_text (chunks : list string) (st : Page.State) :
  Page.handleResponse (Some chunks) st
  = match Page.processLines (removelast (split blankLine (text chunks))) st with
    | (st', None) => Page.setLoading false st'
    | (st', Some err) =>
        Page.setLoading false (Page.setError (message_or "An error occurred" err) st')
    end.
Proof. unfold Page.handleResponse. now rewrite readLoop_text. Qed.

Lemma handleResponse_unbroken (chunks : list string) (st : Page.State) :
  hasBlankLine (text chunks) = false ->
  Page.handleResponse (Some chunks) st = Page.setLoading false st.
Proof.
  intros H. rewrite handleResponse_text. unfold split.
  now rewrite (split_from_unbroken _ "" H).
Qed.

Lemma processLines_progress (us : list ProgressUpdate) : forall st,
  Page.processLines (map progressLine us) st = (lastShown us st, None).
Proof.
  induction us as [|u us IH]; intros st; [reflexivity|].
  cbn [map Page.processLines]. unfold progressLine at 1.
  rewrite processLine_progress. apply IH.
Qed.

Lemma progressLine_unbroken (us : list ProgressUpdate) :
  Forall (fun l => hasBlankLine (l ++ str LF) = false) (map progressLine us).
Proof.
  apply Forall_forall. intros l Hl. apply in_map_iff in Hl as [u [<- _]].
  apply line_unbroken; [reflexivity|].
  rewrite JSON_stringify_progress_flat. apply noLF_flatObject.
Qed.

Lemma body_text (Parser_parse : list string -> list ResultWithSymbol -> Completion string)
  (r : StockDataRequest) (l : list string) :
  symbols r = Some l ->
  missingRequiredFields r = false ->
  text (body yahooFinance Parser_parse (parsed r))
  = text (map (fun l => l ++ blankLine) (map progressLine (updates yahooFinance r l)))
    ++ lastBlock Parser_parse
         (allResults (localsAfter yahooFinance r l (List.length l))).
Proof.
  intros Hl Hok. rewrite (body_stream _ _ r l Hl Hok), text_app. f_equal.
  unfold updates. rewrite !map_map. apply (f_equal text). apply map_ext. intros j.
  unfold progressBlock, progressLine. apply block_line.
Qed.

(** A stream that ends in an error event: the page ends showing its
    message, on top of the last progress update. *)
Lemma handleResponse_error (Parser_parse : list string -> list ResultWithSymbol -> Completion string)
  (r : StockDataRequest) (l : list string) (e : Thrown)
  (chunks : list string) (st : Page.State) :
  symbols r = Some l ->
  missingRequiredFields r = false ->
  lastBlock Parser_parse (allResults (localsAfter yahooFinance r l (List.length l)))
  = errorBlock e ->
  text chunks = text (body yahooFinance Parser_parse (parsed r)) ->
  Page.handleResponse (Some chunks) st
  = Page.setLoading false
      (Page.setError (message_or "An error occurred" e)
         (lastShown (updates yahooFinance r l) st)).
Proof.
  intros Hl Hok Hlast Htext.
  rewrite handleResponse_text, Htext, (body_text _ r l Hl Hok), Hlast.
  rewrite split_blocks by apply progressLine_unbroken.
  unfold errorBlock. rewrite block_line.
  rewrite <- (append_nil_r (line "error" _ ++ blankLine)), append_assoc.
  unfold split at 1. rewrite split_from_block.
  - cbn [split_from String.append].
    change (map progressLine (updates yahooFinance r l)
            ++ [line "error" (JSON_stringify_error (message_or "An error occurred" e)); ""])%list
      with (map progressLine (updates yahooFinance r l)
            ++ [line "error" (JSON_stringify_error (message_or "An error occurred" e))]
            ++ [""])%list.
    rewrite app_assoc, removelast_last, processLines_app, processLines_progress.
    cbn [Page.processLines]. rewrite processLine_error. reflexivity.
  - apply line_unbroken; [reflexivity|].
    rewrite JSON_stringify_error_flat. apply noLF_flatObject.
Qed.

Lemma processLine_header (os : Json2csv.OS) (rest : string) (st : Page.State) :
  Page.processLine
    ("event: complete" ++ str LF ++ "data: " ++ Json2csv.getHeader fields
       ++ Json2csv.EOL os ++ rest) st
  = Throw (SyntaxError (JSON_parse_message (headerLine os))).
Proof. destruct os; reflexivity. Qed.

Lemma parse_rows (os : Json2csv.OS) (row : ResultWithSymbol) (rows : list ResultWithSymbol) :
  exists t,
    Json2csv.parse os fields (row :: rows)
    = Json2csv.getHeader fields ++ Json2csv.EOL os ++ String DQUOTE t.
Proof.
  rewrite parse_fields. cbn [map]. rewrite join_cons2, <- getHeader_fields.
  destruct (lineText_fields row) as [t Ht]. rewrite Ht.
  destruct (map Json2csv.lineText (map (fun row0 => map (Json2csv.get row0) fields) rows));
    cbn [join String.append]; eauto.
Qed.

(** A stream that ends in a complete event written by the CSV
    serialiser: the page stops at that event. *)
Lemma handleResponse_rows (os : Json2csv.OS) (r : StockDataRequest) (l : list string)
  (chunks : list string) (st : Page.State) :
  symbols r = Some l ->
  missingRequiredFields r = false ->
  allResults (localsAfter yahooFinance r l (List.length l)) <> [] ->
  text chunks = text (body yahooFinance (Json2csv.Parser_parse os) (parsed r)) ->
  Page.handleResponse (Some chunks) st
  = Page.setLoading false
      (Page.setError (JSON_parse_message (headerLine os))
         (lastShown (updates yahooFinance r l) st)).
Proof.
  intros Hl Hok Hrows Htext.
  rewrite handleResponse_text, Htext, (body_text _ r l Hl Hok).
  rewrite split_blocks by apply progressLine_unbroken.
  destruct (allResults (localsAfter yahooFinance r l (List.length l))) as [|row rows];
    [contradiction|].
  unfold lastBlock, Json2csv.Parser_parse. destruct (parse_rows os row rows) as [t Ht].
  rewrite Ht, block_line. unfold line.
  remember ("event: complete" ++ str LF ++ "data: " ++ Json2csv.getHeader fields
            ++ Json2csv.EOL os ++ str DQUOTE) as x eqn:Ex.
  assert (Hx : forall rest,
             "event: " ++ "complete" ++ str LF ++ "data: "
               ++ Json2csv.getHeader fields ++ Json2csv.EOL os ++ String DQUOTE rest
             = x ++ rest) by (intros rest; rewrite Ex; destruct os; reflexivity).
  assert (Hux : hasBlankLine (x ++ str LF) = false) by (rewrite Ex; destruct os; reflexivity).
  rewrite (Hx t), append_assoc.
  destruct (split_from_ended (x ++ t) "") as [first [second [more E]]].
  destruct (split_from_head x (t ++ blankLine) "" Hux) as [rest [more' E']].
  unfold split at 1. rewrite <- append_assoc, E. rewrite <- append_assoc, E in E'.
  injection E' as Hfirst _. cbn [String.append] in Hfirst.
  rewrite removelast_app by discriminate. cbn [removelast].
  rewrite processLines_app, processLines_progress. cbn [Page.processLines].
  rewrite Hfirst, <- (Hx rest).
  change ("event: " ++ "complete" ++ ?s) with ("event: complete" ++ s).
  rewrite processLine_header. reflexivity.
Qed.

End EndToEnd.

(* ------------------------------------------------------------------ *)
(** ** What the handler asks and logs                                 *)
(* ------------------------------------------------------------------ *)

Section CallFacts.
Import Js Route Wire.
Context {engine : Engine} {platform : Platform} {untyped : Route.Untyped}.
Variable yahooFinance : Provider.
Variable Parser_parse : list string -> list ResultWithSymbol -> Completion string.

Lemma loopCalls_filter (f : Action -> bool) (total : nat) (q : QueryOptions)
  (ts : list Turn) :
  (forall chunk, f (WriterWrite chunk) = false) ->
  forall v, filter f (loopCalls yahooFinance total q v ts)
            = flat_map (fun t => filter f (turnCalls yahooFinance q t)) ts.
Proof.
  intros Hwrite. induction ts as [|t ts IH]; intros v; [reflexivity|].
  cbn [loopCalls flat_map]. rewrite !filter_app, IH. cbn [filter]. now rewrite Hwrite.
Qed.

Lemma flat_map_if {A B} (ok : A -> bool) (g : A -> B) (l : list A) :
  flat_map (fun x => if ok x then [g x] else []) l = map g (filter ok l).
Proof.
  induction l as [|x l IH]; [reflexivity|].
  cbn [flat_map filter]. rewrite IH. now destruct (ok x).
Qed.

Lemma turnCalls_historical (q : QueryOptions) (t : Turn) :
  filter isHistorical (turnCalls yahooFinance q t)
  = if quoteOk yahooFinance t then [HistoricalRequest (snd t) q] else [].
Proof.
  unfold turnCalls, quoteOk. cbn [filter isHistorical].
  destruct (quote yahooFinance (fst t) (snd t)) as [[qr|]|e]; try reflexivity.
  cbn [filter isHistorical].
  destruct (historical yahooFinance (fst t) (snd t) q); reflexivity.
Qed.

Lemma lastCalls_historical (rows : list ResultWithSymbol) :
  filter isHistorical (lastCalls Parser_parse rows) = [].
Proof.
  unfold lastCalls. destruct rows; [reflexivity|].
  destruct (Parser_parse fields _); reflexivity.
Qed.

(** X3.  Historical rows are requested for the symbols whose quote came
    back and is truthy, for no other, in the order of the list, each
    once per turn.  The options of every such request are the start
    date of the body given to [new Date] as [period1], its end date
    given to [new Date] as [period2], and its interval as it came. *)
Theorem history_requested_after_a_quote (r : StockDataRequest) (l : list string) :
  symbols r = Some l ->
  missingRequiredFields r = false ->
  filter isHistorical (calls yahooFinance Parser_parse (parsed r))
  = map (fun t => HistoricalRequest (snd t)
                    {| period1 := Date_new (startDate r);
                       period2 := Date_new (endDate r);
                       interval_option := interval r |})
      (filter (quoteOk yahooFinance) (turns 0 l)).
Proof.
  intros Hl Hok. rewrite (calls_stream _ _ r l Hl Hok).
  change {| period1 := Date_new (startDate r);
            period2 := Date_new (endDate r);
            interval_option := interval r |} with (queryOptions r).
  cbn [filter isHistorical]. rewrite filter_app, lastCalls_historical, app_nil_r.
  rewrite loopCalls_filter by reflexivity.
  rewrite <- flat_map_if. apply flat_map_ext. intros t. apply turnCalls_historical.
Qed.






End CallFacts.

(* ------------------------------------------------------------------ *)
(** ** Facts about [trim] and the split at commas                      *)
(* ------------------------------------------------------------------ *)

Section TrimFacts.
Import Js Json Wire.

Lemma startsWith_split (p s : string) :
  startsWith p s = true -> s = p ++ drop (String.length p) s.
Proof.
  revert s. induction p as [|c p IH]; intros s H.
  - cbn. unfold drop. cbn. rewrite Nat.sub_0_r. now rewrite substring_all.
  - destruct s as [|d s]; [discriminate|]. cbn [startsWith] in H.
    apply andb_prop in H as [Hc Hp]. apply Ascii.eqb_eq in Hc. subst d.
    cbn [String.append String.length]. f_equal.
    unfold drop. cbn [String.length Nat.sub substring].
    exact (IH s Hp).
Qed.

Lemma startsWith_prefix (p rest : string) : startsWith p (p ++ rest) = true.
Proof. apply startsWith_app. Qed.

Lemma length_append (a b : string) :
  String.length (a ++ b) = String.length a + String.length b.
Proof. induction a as [|c a IH]; cbn; [reflexivity | now rewrite IH]. Qed.

Lemma strip_spec (spaces : list string) :
  Forall (fun w => w <> "") spaces ->
  forall fuel s, String.length s <= fuel ->
    exists a, s = a ++ Page.strip spaces fuel s
              /\ Made spaces a
              /\ forall w, In w spaces -> startsWith w (Page.strip spaces fuel s) = false.
Proof.
  intros Hne. induction fuel as [|fuel IH]; intros s Hlen.
  - destruct s; [|cbn in Hlen; lia]. exists "". cbn. repeat split; [constructor|].
    intros w Hw. rewrite Forall_forall in Hne. specialize (Hne w Hw).
    destruct w; [contradiction | reflexivity].
  - cbn [Page.strip]. destruct (find (fun w => startsWith w s) spaces) as [w|] eqn:Hfind.
    + apply find_some in Hfind as [Hin Hw].
      pose proof (startsWith_split w s Hw) as Hs.
      assert (Hlonger : String.length (drop (String.length w) s) <= fuel).
      { rewrite Forall_forall in Hne. specialize (Hne w Hin).
        assert (Hl : String.length s
                     = String.length w + String.length (drop (String.length w) s))
          by (rewrite Hs at 1; apply length_append).
        destruct w; [contradiction|]. cbn [String.length] in Hl |- *. lia. }
      destruct (IH _ Hlonger) as [a [Ha [Hmade Hnone]]].
      exists (w ++ a). repeat split.
      * rewrite append_assoc, <- Ha. exact Hs.
      * now constructor.
      * exact Hnone.
    + exists "". repeat split; [constructor|].
      intros w Hw. exact (find_none _ _ Hfind w Hw).
Qed.

Lemma reverse_append (a b : string) :
  Page.reverse (a ++ b) = Page.reverse b ++ Page.reverse a.
Proof.
  induction a as [|c a IH]; cbn [String.append Page.reverse].
  - now rewrite append_nil_r.
  - now rewrite IH, append_assoc.
Qed.

Lemma reverse_reverse (s : string) : Page.reverse (Page.reverse s) = s.
Proof.
  induction s as [|c s IH]; [reflexivity|].
  cbn [Page.reverse]. rewrite reverse_append, IH. reflexivity.
Qed.

Lemma reverse_length (s : string) : String.length (Page.reverse s) = String.length s.
Proof.
  induction s as [|c s IH]; [reflexivity|].
  cbn [Page.reverse]. rewrite length_append, IH. cbn. lia.
Qed.

Lemma Blank_Made (a : string) : Made Page.whiteSpace a -> Blank a.
Proof. induction 1; now constructor. Qed.

Lemma Blank_append (a b : string) : Blank a -> Blank b -> Blank (a ++ b).
Proof.
  induction 1 as [|w rest Hw _ IH]; intros Hb; [exact Hb|].
  rewrite append_assoc. constructor; auto.
Qed.

Lemma Blank_reversed (a : string) :
  Made (map Page.reverse Page.whiteSpace) a -> Blank (Page.reverse a).
Proof.
  induction 1 as [|w rest Hw _ IH]; [constructor|].
  rewrite reverse_append. apply Blank_append; [exact IH|].
  apply in_map_iff in Hw as [w0 [<- Hw0]]. rewrite reverse_reverse.
  rewrite <- (append_nil_r w0). constructor; [exact Hw0 | constructor].
Qed.

Lemma whiteSpace_not_empty : Forall (fun w => w <> "") Page.whiteSpace.
Proof. repeat constructor; discriminate. Qed.

Lemma reversed_not_empty : Forall (fun w => w <> "") (map Page.reverse Page.whiteSpace).
Proof. repeat constructor; discriminate. Qed.

(** [trim] takes white space, and all of it, off both ends. *)
Lemma trim_spec (s : string) :
  exists a b,
    s = a ++ Page.trim s ++ b
    /\ Blank a /\ Blank b
    /\ (forall w rest, In w Page.whiteSpace -> Page.trim s <> w ++ rest)
    /\ (forall w rest, In w Page.whiteSpace -> Page.trim s <> rest ++ w).
Proof.
  unfold Page.trim, Page.trimStart.
  destruct (strip_spec Page.whiteSpace whiteSpace_not_empty (String.length s) s (le_n _))
    as [a [Ha [Hmade Hstart]]].
  set (m := Page.strip Page.whiteSpace (String.length s) s) in *.
  unfold Page.trimEnd.
  destruct (strip_spec (map Page.reverse Page.whiteSpace) reversed_not_empty
              (String.length m) (Page.reverse m)
              ltac:(rewrite reverse_length; apply le_n))
    as [b' [Hb [Hmade' Hend]]].
  set (t := Page.strip (map Page.reverse Page.whiteSpace) (String.length m)
              (Page.reverse m)) in *.
  assert (Hm : m = Page.reverse t ++ Page.reverse b').
  { rewrite <- (reverse_reverse m), Hb at 1. apply reverse_append. }
  exists a, (Page.reverse b'). repeat split.
  - rewrite Ha at 1. now rewrite Hm at 1.
  - now apply Blank_Made.
  - now apply Blank_reversed.
  - intros w rest Hw Heq.
    assert (H : startsWith w m = true).
    { rewrite Hm, Heq, append_assoc. apply startsWith_prefix. }
    rewrite (Hstart w Hw) in H. discriminate.
  - intros w rest Hw Heq.
    assert (H : startsWith (Page.reverse w) t = true).
    { rewrite <- (reverse_reverse t), Heq, reverse_append. apply startsWith_prefix. }
    rewrite (Hend (Page.reverse w)) in H; [discriminate|].
    apply in_map. exact Hw.
Qed.

(** Cutting at commas: the pieces have no comma and, joined by
    commas, give the text back. *)
Lemma split_from_comma (s : string) : forall cur,
  exists first rest,
    split_from "," 0 cur s = first :: rest
    /\ join "," (first :: rest) = cur ++ s
    /\ (mentions "," cur = false -> Forall (fun p => mentions "," p = false) (first :: rest)).
Proof.
  induction s as [|c s IH]; intros cur.
  - exists cur, []. cbn. rewrite append_nil_r. repeat split. intros H. now constructor.
  - cbn [split_from startsWith]. destruct (Ascii.eqb_spec ","%char c) as [<- | Hc].
    + cbn [andb String.length Nat.sub].
      destruct (IH "") as [first [rest [E [J F]]]]. rewrite E.
      exists cur, (first :: rest). repeat split.
      * rewrite join_cons2, J. reflexivity.
      * intros H. constructor; [exact H | now apply F].
    + cbn [andb]. destruct (IH (cur ++ str c)) as [first [rest [E [J F]]]].
      exists first, rest. repeat split; [exact E | now rewrite J, append_assoc |].
      intros H. apply F. clear - H Hc.
      induction cur as [|d cur IHc]; cbn [mentions String.append str] in *.
      * apply Ascii.eqb_neq in Hc. now rewrite Hc.
      * apply orb_false_elim in H as [H1 H2]. now rewrite H1, IHc.
Qed.

Lemma split_comma (s : string) :
  join "," (split "," s) = s
  /\ Forall (fun p => mentions "," p = false) (split "," s).
Proof.
  unfold split. destruct (split_from_comma s "") as [first [rest [E [J F]]]].
  rewrite E. split; [exact J | now apply F].
Qed.

End TrimFacts.


(* ------------------------------------------------------------------ *)
(** ** The page and the route together                                *)
(* ------------------------------------------------------------------ *)

Section SubmitFacts.
Import Js Json Route Wire.
Context {engine : Engine} {platform : Platform} {untyped : Route.Untyped}
  {unicode : Page.Unicode}.
Variable yahooFinance : Provider.
Variable Parser_parse : list string -> list ResultWithSymbol -> Completion string.
Variable deliver : list string -> list string.

Lemma toUpperCase_eqb (s : string) : (Page.toUpperCase s =? "") = (s =? "").
Proof.
  pose proof (Page.toUpperCase_empty s) as [H1 H2].
  destruct (String.eqb_spec (Page.toUpperCase s) ""), (String.eqb_spec s ""); tauto.
Qed.

Lemma symbolList_named (s : string) : Forall (fun x => x <> "") (Page.symbolList s).
Proof.
  apply Forall_forall. intros x Hx. unfold Page.symbolList in Hx.
  apply filter_In in Hx as [_ Hx]. intros ->. discriminate.
Qed.

Lemma symbolList_blank (s : string) :
  if forallb (fun p => Page.trim p =? "") (split "," s)
  then Page.symbolList s = []
  else Page.symbolList s <> [].
Proof.
  unfold Page.symbolList. induction (split "," s) as [|p ps IH]; [reflexivity|].
  cbn [forallb map filter]. rewrite toUpperCase_eqb.
  destruct (Page.trim p =? ""); cbn [andb negb]; [exact IH | discriminate].
Qed.

Lemma handleResponse_loading (body : option (list string)) (st : Page.State) :
  Page.loading (Page.handleResponse body st) = false.
Proof.
  unfold Page.handleResponse.
  destruct (match body with
            | Some chunks => Page.readLoop chunks "" st
            | None => (st, Some (Error "No response body"))
            end) as [st' [e|]]; reflexivity.
Qed.

(** X6.  The text of the symbols field is cut at its commas: the
    pieces hold no comma and, joined by commas, give the text back.
    Of each piece the white space at both ends is taken off, all of it
    and nothing else: the piece is white space, what [trim] leaves,
    white space, and what [trim] leaves neither starts nor ends with a
    white-space code point; space, tab, line feed and carriage return
    are such code points.  When nothing is left of any piece the page
    turns the form down: nothing is posted and the page asks for a
    symbol.  Otherwise one request is posted: its symbols are what is
    left of the pieces, in upper case, in the order of the text,
    without the empty ones, and its dates and interval are those of
    the form as they are.  Either way the page is no longer loading at
    the end. *)
Theorem submit_needs_a_symbol (fetch : Page.Posted -> Completion (option (list string)))
  (form : Page.Form) (st : Page.State) :
  let outcome := Page.handleSubmit fetch form st in
  let final := fst outcome in
  let pieces := split "," (Page.symbols form) in
  Page.loading final = false
  /\ join "," pieces = Page.symbols form
  /\ Forall (fun c => In (str c) Page.whiteSpace) [" "%char; "009"%char; LF; CR]
  /\ (forall piece, In piece pieces ->
        mentions "," piece = false
        /\ exists before after,
             piece = before ++ Page.trim piece ++ after
             /\ Blank before /\ Blank after
             /\ (forall w rest, In w Page.whiteSpace -> Page.trim piece <> w ++ rest)
             /\ (forall w rest, In w Page.whiteSpace -> Page.trim piece <> rest ++ w))
  /\ if forallb (fun p => Page.trim p =? "") (split "," (Page.symbols form))
     then snd outcome = []
          /\ Page.errorText final = "Please enter at least one symbol"
          /\ Page.progress final = Page.progress st
          /\ Page.saves final = Page.saves st
     else exists p,
          snd outcome = [p]
          /\ Page.postedSymbols p
             = filter (fun s => negb (s =? ""))
                 (map (fun s => Page.toUpperCase (Page.trim s))
                    (split "," (Page.symbols form)))
          /\ Page.postedSymbols p <> []
          /\ Forall (fun s => s <> "") (Page.postedSymbols p)
          /\ Page.postedStartDate p = Page.startDate form
          /\ Page.postedEndDate p = Page.endDate form
          /\ Page.postedInterval p = Page.interval form.
Proof.
  intros outcome final pieces. subst final outcome pieces.
  destruct (split_comma (Page.symbols form)) as [Hjoin Hcommas].
  assert (Hloading : Page.loading (fst (Page.handleSubmit fetch form st)) = false).
  { unfold Page.handleSubmit.
    destruct (Page.symbolList (Page.symbols form)) as [|s l]; [reflexivity|].
    cbn [List.length Nat.eqb].
    destruct (fetch _) as [body|err]; [apply handleResponse_loading | reflexivity]. }
  split; [exact Hloading|]. split; [exact Hjoin|].
  split.
  { assert (H : forallb (fun c => existsb (String.eqb (str c)) Page.whiteSpace)
                  [" "%char; "009"%char; LF; CR] = true) by (vm_compute; reflexivity).
    rewrite forallb_forall in H. apply Forall_forall. intros c Hc.
    specialize (H c Hc). apply existsb_exists in H as [w [Hw E]].
    apply String.eqb_eq in E. now rewrite E. }
  split.
  { intros piece Hin. split.
    - rewrite Forall_forall in Hcommas. exact (Hcommas piece Hin).
    - exact (trim_spec piece). }
  unfold Page.handleSubmit.
  pose proof (symbolList_blank (Page.symbols form)) as Hblank.
  pose proof (symbolList_named (Page.symbols form)) as Hnamed.
  destruct (forallb (fun p => Page.trim p =? "") (split "," (Page.symbols form))).
  - rewrite Hblank. cbn. repeat split.
  - destruct (Page.symbolList (Page.symbols form)) as [|s l] eqn:El; [contradiction|].
    cbn [List.length Nat.eqb].
    eexists. split; [destruct (fetch _); reflexivity|].
    cbn [Page.postedSymbols Page.postedStartDate Page.postedEndDate Page.postedInterval].
    repeat split; try assumption; try discriminate.
    exact (eq_sym El).
Qed.

Hypothesis deliver_text : forall chunks, text (deliver chunks) = text chunks.

Lemma gate_of_posted (p : Page.Posted) :
  Page.postedSymbols p <> [] ->
  missingRequiredFields (toRequest p)
  = (Page.postedStartDate p =? "") || (Page.postedEndDate p =? "").
Proof.
  intros Hs. unfold missingRequiredFields, missing.
  destruct (binding_bodyOf (toRequest p)) as [-> [-> [-> _]]].
  unfold toRequest, truthy. cbn [symbols startDate endDate option_map has_length truthy_value].
  destruct (Page.postedSymbols p); [contradiction|].
  cbn [map List.length Nat.eqb negb orb]. unfold truthy.
  now rewrite !negb_involutive.
Qed.

Lemma lastShown_kept (us : list ProgressUpdate) : forall st,
  Page.saves (lastShown us st) = Page.saves st
  /\ Page.errorText (lastShown us st) = Page.errorText st
  /\ Page.loading (lastShown us st) = Page.loading st.
Proof.
  induction us as [|u us IH]; intros st; [now repeat split|].
  cbn [lastShown fold_left]. apply (IH (Page.setProgress (shown u) st)).
Qed.

Lemma lastShown_last (us : list ProgressUpdate) (u : ProgressUpdate) (st : Page.State) :
  Page.progress (lastShown (us ++ [u]) st) = shown u.
Proof. unfold lastShown. now rewrite fold_left_app. Qed.

Lemma updates_last (r : StockDataRequest) (l : list string) :
  l <> [] ->
  exists us,
    updates yahooFinance r l
    = (us ++ [progressUpdate (List.length l)
                (localsAfter yahooFinance r l (List.length l))])%list.
Proof.
  intros Hl. unfold updates. destruct (List.length l) as [|n] eqn:En.
  - destruct l; [contradiction | discriminate].
  - rewrite seq_S, map_app. cbn [map Nat.add]. eauto.
Qed.

(** The state the page ends in once the read loop has stopped on a
    message, after the progress updates of the request. *)
Lemma stopped_state (r : StockDataRequest) (l : list string) (m : string)
  (st final : Page.State) :
  symbols r = Some l ->
  missingRequiredFields r = false ->
  final = Page.setLoading false
            (Page.setError m (lastShown (updates yahooFinance r l) st)) ->
  Page.errorText final = m
  /\ Page.saves final = Page.saves st
  /\ Page.loading final = false
  /\ Page.progress final
     = shown (progressUpdate (List.length l)
                (localsAfter yahooFinance r l (List.length l))).
Proof.
  intros Hl Hok ->. cbn [Page.setLoading Page.setError Page.errorText Page.saves
                          Page.loading Page.progress].
  destruct (lastShown_kept (updates yahooFinance r l) st) as [Hs _].
  repeat split; [exact Hs|].
  assert (Hne : l <> []).
  { intros ->. apply missingRequiredFields_false in Hok as [[s0 [l0 Hsome]] _].
    rewrite Hl in Hsome. discriminate. }
  destruct (updates_last r l Hne) as [us ->]. apply lastShown_last.
Qed.

(** X7.  A progress update reaches the page as it was written,
    whatever characters its texts hold: the block the route writes for
    it, read as a whole body, leaves its counts and its error text in
    the progress state. *)
Theorem progress_update_round_trip (u : ProgressUpdate) (st : Page.State) :
  Page.handleResponse (Some [block "progress" (JSON_stringify_progress u)]) st
  = Page.setLoading false
      (Page.setProgress
         {| Page.current := Some (JNumber (Number_toString (current u)));
            Page.total := Some (JNumber (Number_toString (total u)));
            Page.error := option_map JString (error u) |} st).
Proof.
  rewrite handleResponse_text. unfold text. cbn [String.concat].
  rewrite block_line, <- (append_nil_r (_ ++ blankLine)), append_assoc.
  unfold split. rewrite split_from_block.
  - cbn [String.append split_from removelast Page.processLines].
    now rewrite processLine_progress.
  - apply line_unbroken; [reflexivity|].
    rewrite JSON_stringify_progress_flat. apply noLF_flatObject.
Qed.

(** X8.  The chunks a body arrives in do not matter, only its text.
    The read loop handles the pieces of the text that a blank line
    ends, in order, until one throws; what follows the last blank line
    is never handled. *)
Theorem chunking_is_not_observable (chunks : list string) (st : Page.State) :
  Page.readLoop chunks "" st
  = Page.processLines
      (removelast (split (String LF (str LF)) (String.concat "" chunks))) st.
Proof. apply readLoop_text. Qed.

(** X9.  A body without a blank line leaves no trace on the page but
    that loading has ended: no event is handled and no error shown,
    whatever the body says. *)
Theorem body_without_blank_line_is_ignored (chunks : list string) (st : Page.State) :
  hasBlankLine (String.concat "" chunks) = false ->
  Page.handleResponse (Some chunks) st = Page.setLoading false st.
Proof. apply handleResponse_unbroken. Qed.

(** X10.  When no symbol of a validated request gave a row, the page
    ends showing "No valid data retrieved for any symbols", with the
    progress of the last update and nothing saved, however the body
    was cut into chunks. *)
Theorem no_data_is_shown (r : StockDataRequest) (l : list string)
  (chunks : list string) (st : Page.State) :
  symbols r = Some l ->
  missingRequiredFields r = false ->
  allResults (localsAfter yahooFinance r l (List.length l)) = [] ->
  String.concat "" chunks
  = String.concat "" (body yahooFinance Parser_parse (parsed r)) ->
  let final := Page.handleResponse (Some chunks) st in
  Page.errorText final = "No valid data retrieved for any symbols"
  /\ Page.saves final = Page.saves st
  /\ Page.loading final = false
  /\ Page.progress final
     = shown (progressUpdate (List.length l)
                (localsAfter yahooFinance r l (List.length l))).
Proof.
  intros Hl Hok Hrows Htext final.
  apply (stopped_state r l _ st final Hl Hok). subst final.
  apply (handleResponse_error yahooFinance Parser_parse r l noData chunks st Hl Hok);
    [|exact Htext].
  now rewrite Hrows.
Qed.

(** X11.  When the serialiser throws, the page ends showing the message
    of what it threw ("An error occurred" if that is no [Error]), with
    the progress of the last update and nothing saved. *)
Theorem serialiser_failure_is_shown (r : StockDataRequest) (l : list string) (e : Thrown)
  (chunks : list string) (st : Page.State) :
  symbols r = Some l ->
  missingRequiredFields r = false ->
  let rows := allResults (localsAfter yahooFinance r l (List.length l)) in
  rows <> [] ->
  Parser_parse fields rows = Throw e ->
  String.concat "" chunks
  = String.concat "" (body yahooFinance Parser_parse (parsed r)) ->
  let final := Page.handleResponse (Some chunks) st in
  Page.errorText final = message_or "An error occurred" e
  /\ Page.saves final = Page.saves st
  /\ Page.loading final = false
  /\ Page.progress final
     = shown (progressUpdate (List.length l)
                (localsAfter yahooFinance r l (List.length l))).
Proof.
  intros Hl Hok rows Hrows He Htext final.
  apply (stopped_state r l _ st final Hl Hok). subst final.
  apply (handleResponse_error yahooFinance Parser_parse r l e chunks st Hl Hok);
    [|exact Htext].
  fold rows. unfold lastBlock. destruct rows; [contradiction|]. now rewrite He.
Qed.

(** X12.  When some symbol gave a row and the CSV is written by the
    serialiser, on a server with either end of line, the page saves
    nothing: it stops at the complete event, whose data line is the
    header line of the CSV and no JSON, and ends showing the message
    the engine's [JSON.parse] has for that line, with the progress of
    the last update, however the body was cut into chunks. *)
Theorem csv_is_never_saved (os : Json2csv.OS) (r : StockDataRequest) (l : list string)
  (chunks : list string) (st : Page.State) :
  symbols r = Some l ->
  missingRequiredFields r = false ->
  allResults (localsAfter yahooFinance r l (List.length l)) <> [] ->
  String.concat "" chunks
  = String.concat "" (body yahooFinance (Json2csv.Parser_parse os) (parsed r)) ->
  let final := Page.handleResponse (Some chunks) st in
  Page.errorText final = JSON_parse_message (headerLine os)
  /\ Page.saves final = Page.saves st
  /\ Page.loading final = false
  /\ Page.progress final
     = shown (progressUpdate (List.length l)
                (localsAfter yahooFinance r l (List.length l))).
Proof.
  intros Hl Hok Hrows Htext final.
  apply (stopped_state r l _ st final Hl Hok). subst final.
  now apply (handleResponse_rows yahooFinance os r l chunks st Hl Hok).
Qed.

Lemma serve_stream (parse : list string -> list ResultWithSymbol -> Completion string)
  (p : Page.Posted) :
  missingRequiredFields (toRequest p) = false ->
  serve yahooFinance parse deliver p
  = Normal (Some (deliver (body yahooFinance parse (parsed (toRequest p))))).
Proof.
  intros Hok. unfold serve, body.
  rewrite (POST_stream _ _ (toRequest p) (Page.postedSymbols p) eq_refl Hok).
  reflexivity.
Qed.

Lemma serve_rejected (p : Page.Posted) :
  missingRequiredFields (toRequest p) = true ->
  serve yahooFinance Parser_parse deliver p
  = Normal (Some (deliver [JSON_stringify_message "Missing required fields"])).
Proof. intros H. unfold serve. now rewrite (POST_rejected _ _ _ H). Qed.

(** X13.  A form with a symbol but without a start or an end date is
    posted, the route answers 400, and the page shows nothing of it:
    no error text, no save, the progress left at zero of the number of
    symbols. *)
Theorem missing_date_is_refused_silently (form : Page.Form) (st : Page.State) :
  Page.symbolList (Page.symbols form) <> [] ->
  Page.startDate form = "" \/ Page.endDate form = "" ->
  let outcome := Page.handleSubmit (serve yahooFinance Parser_parse deliver) form st in
  let final := fst outcome in
  exists p,
    snd outcome = [p]
    /\ POST yahooFinance Parser_parse (parsed (toRequest p)) initial
       = (Normal (NextResponse_json (JSON_stringify_message "Missing required fields") 400),
          initial)
    /\ Page.errorText final = ""
    /\ Page.saves final = Page.saves st
    /\ Page.loading final = false
    /\ Page.progress final
       = {| Page.current := Some (JNumber "0");
            Page.total :=
              Some (JNumber (Number_toString
                               (List.length (Page.symbolList (Page.symbols form)))));
            Page.error := None |}.
Proof.
  intros Hsym Hdate outcome final. subst final outcome. unfold Page.handleSubmit.
  destruct (Page.symbolList (Page.symbols form)) as [|s l] eqn:El; [contradiction|].
  cbn [List.length Nat.eqb].
  set (p := {| Page.postedSymbols := s :: l;
               Page.postedStartDate := Page.startDate form;
               Page.postedEndDate := Page.endDate form;
               Page.postedInterval := Page.interval form |}).
  assert (Hgate : missingRequiredFields (toRequest p) = true).
  { rewrite gate_of_posted by discriminate. cbn [p Page.postedStartDate Page.postedEndDate].
    destruct Hdate as [-> | ->]; [reflexivity | apply orb_true_r]. }
  exists p. rewrite (serve_rejected p Hgate).
  rewrite handleResponse_unbroken by (now rewrite deliver_text).
  split; [reflexivity|]. split; [now apply POST_rejected|]. now repeat split.
Qed.

(** X14.  A form with symbols and both dates, for which the provider
    gives at least one row: pressing submit posts one request and ends
    with nothing saved and, on the page, the message the engine's
    [JSON.parse] has for the header line of the CSV, whatever the
    transport did to the chunks. *)
Theorem submitted_form_saves_nothing (os : Json2csv.OS) (form : Page.Form)
  (st : Page.State) :
  let l := Page.symbolList (Page.symbols form) in
  let r := {| symbols := Some l;
              startDate := Some (Json.JString (Page.startDate form));
              endDate := Some (Json.JString (Page.endDate form));
              interval := Some (Json.JString (Page.interval form)) |} in
  l <> [] ->
  Page.startDate form <> "" ->
  Page.endDate form <> "" ->
  allResults (localsAfter yahooFinance r l (List.length l)) <> [] ->
  let outcome :=
    Page.handleSubmit (serve yahooFinance (Json2csv.Parser_parse os) deliver) form st in
  let final := fst outcome in
  List.length (snd outcome) = 1
  /\ Page.errorText final = JSON_parse_message (headerLine os)
  /\ Page.saves final = Page.saves st
  /\ Page.loading final = false.
Proof.
  intros l r Hsym Hsd Hed Hrows outcome final. subst final outcome.
  unfold Page.handleSubmit. fold l.
  destruct l as [|s l'] eqn:El; [contradiction|].
  cbn [List.length Nat.eqb].
  set (p := {| Page.postedSymbols := s :: l';
               Page.postedStartDate := Page.startDate form;
               Page.postedEndDate := Page.endDate form;
               Page.postedInterval := Page.interval form |}).
  assert (Hgate : missingRequiredFields (toRequest p) = false).
  { rewrite gate_of_posted by discriminate. cbn [p Page.postedStartDate Page.postedEndDate].
    apply String.eqb_neq in Hsd, Hed. now rewrite Hsd, Hed. }
  rewrite (serve_stream _ p Hgate). cbn [fst snd List.length].
  split; [reflexivity|].
  set (st1 := Page.setProgress _ _).
  destruct (stopped_state r (s :: l') (JSON_parse_message (headerLine os))
              st1 (Page.handleResponse
                     (Some (deliver (body yahooFinance (Json2csv.Parser_parse os)
                                       (parsed (toRequest p))))) st1)
              eq_refl Hgate) as [H1 [H2 [H3 _]]].
  - apply (handleResponse_rows yahooFinance os r (s :: l') _ st1 eq_refl Hgate Hrows).
    apply deliver_text.
  - repeat split; assumption.
Qed.

End SubmitFacts.

(* ------------------------------------------------------------------ *)
(** ** Events by name                                                 *)
(* ------------------------------------------------------------------ *)

Section DispatchFacts.
Import Js Json Route Wire.
Context {engine : Engine} {platform : Platform} {untyped : Route.Untyped}.
Variable yahooFinance : Provider.
Variable Parser_parse : list string -> list ResultWithSymbol -> Completion string.

Lemma handleResponse_block (name data : string) (st : Page.State) :
  noLF name = true -> noLF data = true ->
  Page.handleResponse (Some [block name data]) st
  = match Page.processLine (line name data) st with
    | Normal st' => Page.setLoading false st'
    | Throw err =>
        Page.setLoading false (Page.setError (message_or "An error occurred" err) st)
    end.
Proof.
  intros Hn Hd. rewrite handleResponse_text. unfold text. cbn [String.concat].
  rewrite block_line, <- (append_nil_r (_ ++ blankLine)), append_assoc.
  unfold split. rewrite split_from_block by now apply line_unbroken.
  cbn [String.append split_from removelast Page.processLines].
  destruct (Page.processLine (line name data) st); reflexivity.
Qed.

Lemma JSON_parse_string (s : string) : JSON_parse (stringify_string s) = Normal (JString s).
Proof.
  unfold JSON_parse.
  change (skip_ws (stringify_string s)) with (stringify_string s).
  pose proof (parse_value_scalar (2 * String.length (stringify_string s) + 1)
                (SString s) "" eq_refl) as H.
  cbn [scalarText scalarJson] in H. rewrite append_nil_r in H.
  replace (2 * String.length (stringify_string s) + 2)
    with (S (2 * String.length (stringify_string s) + 1)) by lia.
  rewrite H. reflexivity.
Qed.

(** X15.  The data line of every event is parsed as JSON before the
    event name is looked at: a block whose data is no JSON ends the
    read with the parser's message, whatever its event name. *)
Theorem event_data_must_be_json (name data : string) (e : Thrown) (st : Page.State) :
  noLF name = true -> noLF data = true ->
  JSON_parse data = Throw e ->
  Page.handleResponse (Some [block name data]) st
  = Page.setLoading false (Page.setError (message_or "An error occurred" e) st).
Proof.
  intros Hn Hd He. rewrite (handleResponse_block name data st Hn Hd).
  now rewrite (processLine_data name data st Hn Hd), He.
Qed.

(** X16.  An event of another name than progress, complete or error,
    with JSON data, is passed over. *)
Theorem unknown_event_is_passed_over (name data : string) (v : Json.json) (st : Page.State) :
  noLF name = true -> noLF data = true ->
  JSON_parse data = Normal v ->
  name <> "progress" -> name <> "complete" -> name <> "error" ->
  Page.handleResponse (Some [block name data]) st = Page.setLoading false st.
Proof.
  intros Hn Hd Hv H1 H2 H3. rewrite (handleResponse_block name data st Hn Hd).
  rewrite (processLine_data name data st Hn Hd), Hv.
  apply String.eqb_neq in H1, H2, H3. now rewrite H1, H2, H3.
Qed.

(** X17.  What the page does save: a complete event whose data line is
    the JSON text of a string gives one file named
    stock_historical_data.csv of type text/csv that holds the string,
    whatever characters it has. *)
Theorem json_text_of_a_complete_event_is_saved (csv : string) (st : Page.State) :
  Page.handleResponse (Some [block "complete" (stringify_string csv)]) st
  = Page.setLoading false
      (Page.click
         {| Page.blob := {| Page.blobParts := [JString csv]; Page.blobType := "text/csv" |};
            Page.download := "stock_historical_data.csv" |} st).
Proof.
  assert (Hd : noLF (stringify_string csv) = true) by apply (noLF_scalar (SString csv)).
  rewrite (handleResponse_block "complete" _ st eq_refl Hd).
  now rewrite (processLine_data "complete" _ st eq_refl Hd), JSON_parse_string.
Qed.

End DispatchFacts.


(* ------------------------------------------------------------------ *)
(** ** The events, decoded                                         *)
(* ------------------------------------------------------------------ *)

Section Events.
Import Js Route Wire.
Context {engine : Engine} {platform : Platform} {untyped : Route.Untyped}.
Variable yahooFinance : Provider.
Variable Parser_parse : list string -> list ResultWithSymbol -> Completion string.

Lemma natural_count (n : nat) : Json.natural (Json.JNumber (Number_toString n)) = Some n.
Proof.
  unfold Json.natural, Number_toString. rewrite NilEmpty.usu. cbn [option_map].
  now rewrite DecimalNat.Unsigned.of_to.
Qed.

Lemma block_text (name data : string) :
  block name data = "event: " ++ name ++ str LF ++ "data: " ++ data ++ str LF ++ str LF.
Proof. reflexivity. Qed.

(** A progress block reads as the update it was written for. *)
Lemma progressBlock_reads (total : nat) (v : Locals) :
  progressEvent (progressBlock total v) (processedCount v) total (failedSymbols v).
Proof.
  unfold progressEvent, reads, progressBlock.
  exists (Json.JObject (map memberJson (progressMembers (progressUpdate total v)))),
         (Json.JNumber (Number_toString (processedCount v))),
         (Json.JNumber (Number_toString total)).
  split.
  - eexists. split; [apply block_text|].
    now rewrite JSON_stringify_progress_flat, JSON_parse_flatObject.
  - rewrite !natural_count.
    pose proof (error_field total v) as Herr.
    unfold progressMembers. rewrite Herr.
    unfold progressUpdate. cbn [type current Route.total].
    destruct (failedSymbols v) as [|s l]; repeat split; reflexivity.
Qed.

Lemma errorBlock_reads (e : Thrown) :
  errorEvent (errorBlock e) (message_or "An error occurred" e).
Proof.
  unfold errorEvent, reads, errorBlock.
  exists (Json.JObject [("error", Json.JString (message_or "An error occurred" e))]).
  split; [|reflexivity].
  eexists. split; [apply block_text|].
  now rewrite JSON_stringify_error_flat, JSON_parse_flatObject.
Qed.

Lemma failedAmong_localsAfter (r : StockDataRequest) (l : list string) (j : nat) :
  failedSymbols (localsAfter yahooFinance r l j) = failedAmong yahooFinance r l j.
Proof. reflexivity. Qed.

(** The [j]-th chunk of the stream, read. *)
Lemma progress_event_at (r : StockDataRequest) (l : list string) (j : nat) :
  symbols r = Some l ->
  missingRequiredFields r = false ->
  1 <= j <= List.length l ->
  exists chunk,
    nth_error (body yahooFinance Parser_parse (parsed r)) (j - 1) = Some chunk
    /\ progressEvent chunk j (List.length l) (failedAmong yahooFinance r l j).
Proof.
  intros Hl Hok Hj. eexists. split.
  - apply (nth_error_body _ _ r l (j - 1) Hl Hok). lia.
  - replace (S (j - 1)) with j by lia.
    pose proof (progressBlock_reads (List.length l) (localsAfter yahooFinance r l j)) as H.
    rewrite processedCount_localsAfter in H by lia. exact H.
Qed.





Lemma skipn_nth {A} (l : list A) : forall i x,
  nth_error l i = Some x -> skipn i l = x :: skipn (S i) l.
Proof.
  induction l as [|y l IH]; intros [|i] x H; cbn in H; try discriminate.
  - now injection H as ->.
  - cbn [skipn]. now apply IH.
Qed.

(** What the serialiser is given, when it is called: the rows of all
    the turns, in order. *)
Lemma parsed_rows (r : StockDataRequest) (l : list string) (fs : list string)
  (rows : list ResultWithSymbol) :
  symbols r = Some l ->
  missingRequiredFields r = false ->
  In (ParserParse fs rows) (calls yahooFinance Parser_parse (parsed r)) ->
  rows = flat_map (rowsOf yahooFinance (queryOptions r)) (turns 0 l).
Proof.
  intros Hl Hok Hin. rewrite (calls_stream _ _ r l Hl Hok) in Hin.
  destruct Hin as [Hin | Hin]; [discriminate|].
  apply in_app_or in Hin as [Hin | Hin].
  - exfalso.
    assert (H : In (ParserParse fs rows)
                  (filter isParserParse
                     (loopCalls yahooFinance (List.length l) (queryOptions r) start
                        (turns 0 l))))
      by (apply filter_In; split; [exact Hin | reflexivity]).
    rewrite loopCalls_no in H by auto. destruct H.
  - rewrite allResults_localsAfter, <- (turns_length 0 l), firstn_all in Hin.
    unfold lastCalls, giveUp in Hin.
    destruct (flat_map (rowsOf yahooFinance (queryOptions r)) (turns 0 l)) as [|row rs].
    + cbn in Hin. destruct Hin as [H|[H|[H|[]]]]; discriminate.
    + destruct Hin as [H | Hin]; [now injection H as _ <-|].
      destruct (Parser_parse fields (row :: rs)); cbn in Hin;
        repeat (destruct Hin as [H | Hin]; [discriminate|]); destruct Hin.
Qed.

(** C9.  A symbol whose quote is there and whose historical call
    returns no row counts as processed, is not added to the failed
    symbols and adds no row.  Read back, the progress event of its
    turn shows one more symbol done and, as its error, what the
    failures before that turn give: no error when nothing failed
    before.  The rows handed to the serialiser, when it is called, are
    those of the other turns.  And when every symbol is like that, the
    stream is [n] progress events without an error followed by the
    error event "No valid data retrieved for any symbols", with no
    complete event. *)
Theorem empty_history_is_not_a_failure (r : StockDataRequest) (l : list string) :
  symbols r = Some l ->
  missingRequiredFields r = false ->
  let n := List.length l in
  let q := queryOptions r in
  let stream := body yahooFinance Parser_parse (parsed r) in
  (forall i s qr,
      nth_error l i = Some s ->
      quote yahooFinance i s = Normal (Some qr) ->
      historical yahooFinance i s q = Normal [] ->
      let before := localsAfter yahooFinance r l i in
      let after := localsAfter yahooFinance r l (S i) in
      processedCount after = S i
      /\ failedSymbols after = failedSymbols before
      /\ allResults after = allResults before
      /\ (failedSymbols before = [] -> error (progressUpdate n after) = None)
      /\ (exists chunk,
            nth_error stream i = Some chunk
            /\ progressEvent chunk (S i) n (failedAmong yahooFinance r l i))
      /\ (forall fs rows,
            In (ParserParse fs rows) (calls yahooFinance Parser_parse (parsed r)) ->
            rows = (flat_map (rowsOf yahooFinance q) (firstn i (turns 0 l))
                    ++ flat_map (rowsOf yahooFinance q) (skipn (S i) (turns 0 l)))%list))
  /\ ((forall i s, nth_error l i = Some s ->
         exists qr, quote yahooFinance i s = Normal (Some qr)
                    /\ historical yahooFinance i s q = Normal []) ->
      stream
      = (map (fun j => block "progress"
                         (JSON_stringify_progress
                            {| type := "progress"; current := j; total := n;
                               error := None |}))
           (seq 1 n)
         ++ [block "error"
               (JSON_stringify_error "No valid data retrieved for any symbols")])%list
      /\ (forall j, 1 <= j <= n ->
            exists chunk, nth_error stream (j - 1) = Some chunk
                          /\ progressEvent chunk j n [])
      /\ errorEvent (last stream "") "No valid data retrieved for any symbols"
      /\ filter (isEvent "complete") stream = []).
Proof.
  intros Hl Hok n q stream. split.
  - intros i s qr Hs Hq Hh before after. subst before after.
    assert (Hempty : attempt yahooFinance q i s = Some [])
      by now apply (attempt_empty _ q i s qr).
    assert (Hi : i < List.length l) by (apply nth_error_Some; congruence).
    assert (Hsame : failedSymbols (localsAfter yahooFinance r l (S i))
                    = failedSymbols (localsAfter yahooFinance r l i)).
    { rewrite (localsAfter_succ _ r l i s Hs).
      now rewrite advance_quiet_turn by (cbn [fst snd]; exact Hempty). }
    rewrite (localsAfter_succ _ r l i s Hs).
    rewrite advance_quiet_turn by (cbn [fst snd]; exact Hempty).
    cbn [processedCount failedSymbols allResults].
    rewrite processedCount_localsAfter by lia.
    split; [reflexivity|]. split; [reflexivity|]. split; [reflexivity|].
    split; [|split].
    + intros Hnil. rewrite error_field. cbn [failedSymbols]. now rewrite Hnil.
    + destruct (progress_event_at r l (S i) Hl Hok ltac:(lia)) as [chunk [Hchunk Hev]].
      exists chunk. cbn [Nat.sub] in Hchunk. rewrite Nat.sub_0_r in Hchunk.
      split; [exact Hchunk|].
      rewrite <- (failedAmong_localsAfter r l (S i)), Hsame in Hev. exact Hev.
    + intros fs rows Hin. rewrite (parsed_rows r l fs rows Hl Hok Hin). fold q.
      assert (Hturn : nth_error (turns 0 l) i = Some (i, s))
        by (rewrite nth_error_turns, Hs; reflexivity).
      rewrite <- (firstn_skipn i (turns 0 l)) at 1.
      rewrite (skipn_nth _ _ _ Hturn), flat_map_app. cbn [flat_map].
      unfold rowsOf at 2. cbn [fst snd]. rewrite Hempty. reflexivity.
  - intros Hall.
    assert (Hnone : forall i s, nth_error l i = Some s ->
              attempt yahooFinance q i s = None \/ attempt yahooFinance q i s = Some []).
    { intros i s Hs. destruct (Hall i s Hs) as [qr [Hq Hh]]. right.
      now apply (attempt_empty _ q i s qr). }
    assert (Hf : forall j, failedSymbols (localsAfter yahooFinance r l j) = []).
    { intros j.
      destruct (failedSymbols (localsAfter yahooFinance r l j)) as [|x xs] eqn:Hx;
        [reflexivity|]. exfalso.
      assert (Hin : In x (failedSymbols (localsAfter yahooFinance r l j)))
        by (rewrite Hx; now left).
      apply In_failedSymbols in Hin as [k [_ [Hk Hfail]]].
      destruct (Hall k x Hk) as [qr [Hq Hh]].
      fold q in Hfail. rewrite (attempt_empty _ q k x qr Hq Hh) in Hfail. discriminate. }
    assert (Hbody : stream
              = (map (fun j => progressBlock n (localsAfter yahooFinance r l j)) (seq 1 n)
                 ++ [errorBlock noData])%list).
    { subst stream. rewrite (body_stream _ _ r l Hl Hok), (no_rows _ r l _ Hnone).
      reflexivity. }
    split; [|split; [|split]].
    + rewrite Hbody. f_equal.
      apply map_ext_in. intros j Hj. apply in_seq in Hj.
      unfold progressBlock. do 2 f_equal. unfold progressUpdate. f_equal.
      * apply processedCount_localsAfter. fold n. lia.
      * now rewrite Hf.
    + intros j Hj. destruct (progress_event_at r l j Hl Hok Hj) as [chunk [Hchunk Hev]].
      exists chunk. split; [exact Hchunk|].
      now rewrite <- failedAmong_localsAfter, Hf in Hev.
    + rewrite Hbody, last_last. apply (errorBlock_reads noData).
    + rewrite Hbody, filter_app, filter_other_of_blocks by auto. reflexivity.
Qed.


End Events.


(* ------------------------------------------------------------------ *)
(** ** When the consumer leaves                                    *)
(* ------------------------------------------------------------------ *)

Section Consumer.
Import Js Route Wire.
Context {engine : Engine} {platform : Platform} {untyped : Route.Untyped}.
Variable yahooFinance : Provider.
Variable Parser_parse : list string -> list ResultWithSymbol -> Completion string.

Ltac async :=
  unfold try_catch, bind, yahooFinance_quote, yahooFinance_historical, parser_parse,
    delay, console_error, perform, await, writer_write, writer_close, ret, throw, log.

(** One iteration when the consumer is gone: the calls of the turn are
    made, the progress write rejects, and the rejection leaves the
    iteration. *)
Lemma iteration_stop (total : nat) (q : QueryOptions) (s : string) (v : Locals)
  (w : World) (e : Thrown) :
  gone w (List.length (readable w)) = Some e ->
  let v' := advance yahooFinance q v [(processedCount v, s)] in
  iteration yahooFinance total q s v w =
    (Throw e,
     {| trace := trace w ++ turnCalls yahooFinance q (processedCount v, s)
                   ++ [WriterWrite (progressBlock total v')];
        readable := readable w;
        closed := closed w;
        gone := gone w |}).
Proof.
  intros Hgone v'. subst v'.
  unfold iteration, advance, turnCalls, fetchSymbol, rowsOf, failed, attempt, progressBlock.
  async.
  cbn -[block JSON_stringify_progress progressUpdate String.append].
  destruct (quote yahooFinance (processedCount v) s) as [[qr|]|e'];
    [destruct (historical yahooFinance (processedCount v) s q) as [result|e']| |];
    cbn -[block JSON_stringify_progress progressUpdate String.append];
    rewrite Hgone; rewrite ?app_nil_r, ?Nat.add_1_r, <- ?app_assoc; reflexivity.
Qed.

Lemma turnCalls_silent (q : QueryOptions) (t : Turn) :
  filter isClose (turnCalls yahooFinance q t) = []
  /\ filter isUnhandled (turnCalls yahooFinance q t) = [].
Proof. split; apply turnCalls_quiet; auto. Qed.

(** The loop when the consumer goes away before its [j]-th write. *)
Lemma forOf_stop (total : nat) (q : QueryOptions) (l : list string) :
  forall (j : nat) (v : Locals) (w : World) (e : Thrown),
    closed w = false ->
    j < List.length l ->
    (forall k, k < j -> gone w (List.length (readable w) + k) = None) ->
    gone w (List.length (readable w) + j) = Some e ->
    exists w',
      forOf yahooFinance total q l v w = (Throw e, w')
      /\ closed w' = false
      /\ gone w' = gone w
      /\ List.length (readable w') = List.length (readable w) + j
      /\ filter isClose (trace w') = filter isClose (trace w)
      /\ filter isUnhandled (trace w') = filter isUnhandled (trace w).
Proof.
  induction l as [|s l IH]; intros j v w e Hopen Hj Hbefore Hgone; [cbn in Hj; lia|].
  destruct (turnCalls_silent q (processedCount v, s)) as [Hc Hu].
  cbn [forOf]. unfold bind at 1. destruct j as [|j].
  - rewrite Nat.add_0_r in Hgone. rewrite (iteration_stop total q s v w e Hgone).
    eexists. split; [reflexivity|]. cbn [closed gone readable trace].
    rewrite !filter_app, Hc, Hu. cbn [filter isClose isUnhandled].
    rewrite !app_nil_r, Nat.add_0_r. now repeat split.
  - rewrite iteration_run;
      [|assumption|rewrite <- (Nat.add_0_r (List.length (readable w))); apply Hbefore; lia].
    cbv zeta.
    destruct (IH j (advance yahooFinance q v [(processedCount v, s)])
                {| trace := trace w ++ turnCalls yahooFinance q (processedCount v, s)
                              ++ [WriterWrite
                                    (progressBlock total
                                       (advance yahooFinance q v [(processedCount v, s)]))];
                   readable := readable w
                                 ++ [progressBlock total
                                       (advance yahooFinance q v [(processedCount v, s)])];
                   closed := false;
                   gone := gone w |} e)
      as [w' [Hrun [Hcl [Hg [Hlen [Hcc Huu]]]]]].
    + reflexivity.
    + cbn in Hj. lia.
    + intros k Hk. cbn [readable gone]. rewrite length_app. cbn [List.length].
      rewrite <- Nat.add_assoc. apply Hbefore. lia.
    + cbn [readable gone]. rewrite length_app. cbn [List.length].
      now rewrite <- Nat.add_assoc.
    + exists w'. split; [exact Hrun|]. cbn [closed gone readable trace] in *.
      rewrite length_app in Hlen. cbn [List.length] in Hlen.
      rewrite !filter_app, Hc, Hu in *. cbn [filter isClose isUnhandled app] in *.
      rewrite !app_nil_r in *.
      repeat split; try assumption. lia.
Qed.

Lemma loopCalls_silent (total : nat) (q : QueryOptions) (v : Locals) (ts : list Turn) :
  filter isClose (loopCalls yahooFinance total q v ts) = []
  /\ filter isUnhandled (loopCalls yahooFinance total q v ts) = [].
Proof. split; apply loopCalls_no; auto. Qed.

(** The detached function when the consumer goes away at some point
    up to the close: it rejects with what the stream was cancelled
    with, the stream is left open, and [close] is not even called
    unless every write was accepted. *)
Lemma streamTask_stop (r : StockDataRequest) (l : list string) (w : World) (k : nat)
  (e : Thrown) :
  symbols r = Some l ->
  closed w = false ->
  k <= S (List.length l) ->
  (forall i, i < k -> gone w (List.length (readable w) + i) = None) ->
  gone w (List.length (readable w) + k) = Some e ->
  exists w',
    streamTask yahooFinance Parser_parse r w = (Throw e, w')
    /\ closed w' = false
    /\ List.length (readable w') = List.length (readable w) + k
    /\ filter isUnhandled (trace w') = filter isUnhandled (trace w)
    /\ (k <= List.length l -> filter isClose (trace w') = filter isClose (trace w)).
Proof.
  intros Hl Hopen Hk Hbefore Hgone.
  set (q := queryOptions r).
  unfold streamTask, try_catch, bind at 1 2. rewrite Hl. cbn [iterate ret]. fold q.
  destruct (Nat.lt_ge_cases k (List.length l)) as [Hlt | Hge].
  - destruct (forOf_stop (List.length l) q l k start w e Hopen Hlt Hbefore Hgone)
      as [w' [Hrun [Hcl [Hg [Hlen [Hcc Huu]]]]]].
    rewrite Hrun. async. cbn [trace readable closed gone].
    rewrite Hg, Hlen, Hgone.
    eexists. split; [reflexivity|]. cbn [trace readable closed gone].
    rewrite !filter_app, Hcc, Huu. cbn [filter isClose isUnhandled].
    rewrite !app_nil_r. repeat split; try assumption.
  - destruct (loopCalls_silent (List.length l) q start (turns 0 l)) as [Hc Hu].
    rewrite forOf_run; [|assumption|intros i Hi; apply Hbefore; lia].
    cbn [processedCount start].
    set (rows := allResults (advance yahooFinance q start (turns 0 l))).
    set (blocks := progressBlocks yahooFinance (List.length l) q start (turns 0 l)).
    assert (Hblocks : List.length (readable w ++ blocks)
                      = List.length (readable w) + List.length l)
      by (subst blocks; now rewrite length_app, progressBlocks_length, turns_length).
    assert (Hblocks1 : forall b, List.length ((readable w ++ blocks) ++ [b])
                                 = List.length (readable w) + S (List.length l))
      by (intros b; rewrite length_app, Hblocks; cbn [List.length]; lia).
    assert (Hcases : k = List.length l \/ k = S (List.length l)) by lia.
    destruct Hcases as [-> | ->].
    + (* the last block is refused *)
      destruct rows as [|row rows']; cbn [List.length Nat.eqb];
        [|unfold parser_parse; destruct (Parser_parse fields (row :: rows')) as [csv|pe] eqn:Hp];
        async; cbn [trace readable closed gone]; rewrite ?Hp;
        cbn [trace readable closed gone];
        rewrite Hblocks, Hgone; cbn [trace readable closed gone];
        rewrite ?Hblocks, ?Hgone; cbn [trace readable closed gone];
        (eexists; split; [reflexivity|]); cbn [trace readable closed gone];
        rewrite !filter_app, Hc, Hu; cbn [filter isClose isUnhandled isParserParse];
        rewrite ?app_nil_r; repeat split; try assumption; try reflexivity.
    + (* the close is refused *)
      assert (Hlast : gone w (List.length (readable w) + List.length l) = None)
        by (apply Hbefore; lia).
      destruct rows as [|row rows']; cbn [List.length Nat.eqb];
        [|unfold parser_parse; destruct (Parser_parse fields (row :: rows')) as [csv|pe] eqn:Hp];
        async; cbn [trace readable closed gone]; rewrite ?Hp;
        cbn [trace readable closed gone];
        rewrite Hblocks, Hlast; cbn [trace readable closed gone];
        rewrite Hblocks1, Hgone; cbn [trace readable closed gone];
        rewrite ?Hblocks1, ?Hgone; cbn [trace readable closed gone];
        (eexists; split; [reflexivity|]); cbn [trace readable closed gone];
        rewrite ?Hblocks1;
        rewrite !filter_app, Hu; cbn [filter isClose isUnhandled isParserParse];
        rewrite ?app_nil_r; repeat split; try assumption; try reflexivity; try lia.
Qed.

End Consumer.


(* ------------------------------------------------------------------ *)
(** ** The answers of the handler                                  *)
(* ------------------------------------------------------------------ *)

Section Answers.
Import Js Route Wire.
Context {engine : Engine} {platform : Platform} {untyped : Route.Untyped}.
Variable yahooFinance : Provider.
Variable Parser_parse : list string -> list ResultWithSymbol -> Completion string.

(** The exchange for a request that passes validation, whatever the
    consumer does. *)
Lemma POST_spawns (r : StockDataRequest) (l : list string) (w : World) :
  symbols r = Some l ->
  missingRequiredFields r = false ->
  POST yahooFinance Parser_parse (parsed r) w
  = match streamTask yahooFinance Parser_parse r (log NewTransformStream w) with
    | (Normal _, w') => (Normal (StreamResponse 200 streamHeaders), w')
    | (Throw e, w') =>
        (Normal (StreamResponse 200 streamHeaders), log (UnhandledRejection e) w')
    end.
Proof.
  intros Hl Hok.
  unfold POST, try_catch, bind at 1, await, parsed. cbn [json].
  unfold bind at 1, destructure. unfold bodyOf at 1. unfold ret at 1.
  fold (missingRequiredFields r). rewrite Hok.
  unfold bind at 1, perform. unfold bind at 1, spawn, detached.
  rewrite (typed_bodyOf r l Hl).
  destruct (streamTask yahooFinance Parser_parse r (log NewTransformStream w))
    as [[[]|e] w']; reflexivity.
Qed.

(** C8, as amended.  For a request that passes validation, whatever
    the provider answers and whether the serialiser returns or throws
    (completion, total failure, unexpected exception): when the
    consumer of the stream stays until the close, [writer.close()] is
    called exactly once, as the last call, right after the write of
    the last block, the stream ends closed and no rejection is left
    unhandled.  When the consumer goes away before that, at the [k]-th
    chunk, the write (or the close) that meets it rejects, so does the
    write of the [catch] block, and the detached function ends with
    that rejection unhandled and the stream not closed; if a write
    met it, [close] is never called. *)
Theorem writer_closed_exactly_once (consumer : nat -> option Thrown)
  (r : StockDataRequest) (l : list string) :
  symbols r = Some l ->
  missingRequiredFields r = false ->
  let n := List.length l in
  let w := snd (POST yahooFinance Parser_parse (parsed r) (opened consumer)) in
  ((forall k, k <= S n -> consumer k = None) ->
   closed w = true
   /\ List.length (filter isClose (trace w)) = 1
   /\ filter isUnhandled (trace w) = []
   /\ exists before lastChunk,
        trace w = (before ++ [WriterWrite lastChunk; WriterClose])%list
        /\ last (readable w) "" = lastChunk)
  /\ (forall k e,
        k <= S n ->
        (forall i, i < k -> consumer i = None) ->
        consumer k = Some e ->
        closed w = false
        /\ filter isUnhandled (trace w) = [UnhandledRejection e]
        /\ List.length (readable w) = k
        /\ (k <= n -> filter isClose (trace w) = [])).
Proof.
  intros Hl Hok n w. split.
  - intros Hstays. subst w.
    rewrite (POST_stream_with _ _ consumer r l Hl Hok Hstays).
    cbn [snd closed trace readable].
    set (q := queryOptions r).
    set (rows := allResults (advance yahooFinance q start (turns 0 l))).
    destruct (lastCalls_end Parser_parse rows) as [before [Hlast [Hclose Hunhandled]]].
    rewrite Hlast.
    split; [reflexivity|]. split; [|split].
    + cbn [filter isClose]. rewrite !filter_app, loopCalls_no, Hclose by auto. reflexivity.
    + cbn [filter isUnhandled]. rewrite !filter_app, loopCalls_no, Hunhandled by auto.
      reflexivity.
    + eexists (NewTransformStream :: _ ++ before)%list, _. split.
      * cbn [app]. now rewrite <- app_assoc.
      * now rewrite last_last.
  - intros k e Hk Hbefore Hgone. subst w.
    rewrite (POST_spawns r l _ Hl Hok).
    destruct (streamTask_stop yahooFinance Parser_parse r l
                (log NewTransformStream (opened consumer)) k e Hl eq_refl Hk)
      as [w' [Hrun [Hcl [Hlen [Hu Hc]]]]].
    + intros i Hi. cbn. now apply Hbefore.
    + exact Hgone.
    + rewrite Hrun. cbn [snd]. unfold log at 1 2 3 4. cbn [closed trace readable].
      cbn in Hlen, Hu, Hc.
      rewrite !filter_app, Hu. cbn [filter isUnhandled isClose app].
      repeat split; try assumption.
      intros Hkn. rewrite (Hc Hkn). reflexivity.
Qed.

Lemma truthy_value_false (v : option Json.json) :
  Json.truthy_value v = false <-> Falsy v.
Proof.
  unfold Falsy. destruct v as [[|[]|source|s|items|members]|]; cbn [Json.truthy_value].
  - split; auto.
  - split; [discriminate|]. intros [H|[H|[H|[H|[x [H _]]]]]]; discriminate.
  - split; auto.
  - split.
    + intros H. repeat right. exists source. split; [reflexivity|].
      now apply negb_false_iff.
    + intros [H|[H|[H|[H|[x [H Hz]]]]]]; try discriminate.
      injection H as <-. now rewrite Hz.
  - unfold truthy. destruct s as [|c s]; cbn.
    + split; auto.
    + split; [discriminate|]. intros [H|[H|[H|[H|[x [H _]]]]]]; discriminate.
  - split; [discriminate|]. intros [H|[H|[H|[H|[x [H _]]]]]]; discriminate.
  - split; [discriminate|]. intros [H|[H|[H|[H|[x [H _]]]]]]; discriminate.
  - split; auto.
Qed.

Lemma has_length_false (v : option Json.json) :
  has_length v = false <-> Lengthless v.
Proof.
  destruct v as [[|b|source|s|items|members]|]; cbn [has_length Lengthless];
    try (split; [trivial | reflexivity]).
  - destruct s; cbn; split; trivial; try discriminate. contradiction.
  - destruct items; cbn; split; trivial; try discriminate. contradiction.
  - apply truthy_value_false.
Qed.

Lemma typed_symbols (body : Json.json) (r : StockDataRequest) :
  typed body = Some r -> exists l, symbols r = Some l.
Proof.
  unfold typed. destruct (binding body "symbols") as [[| | | |items|]|]; try discriminate.
  destruct (strings items) as [l|]; [|discriminate].
  intros H. injection H as <-. now exists l.
Qed.

(** The trace only grows while the detached function runs for a typed
    body on a stream that is there. *)
Lemma detached_after (body : Json.json) :
  exists rest,
    trace (snd (spawn (detached yahooFinance Parser_parse body)
                  (log NewTransformStream initial)))
    = NewTransformStream :: rest.
Proof.
  unfold spawn, detached. destruct (typed body) as [r|] eqn:Ht.
  - destruct (typed_symbols body r Ht) as [l Hl].
    rewrite (streamTask_run _ _ r l) by (assumption || reflexivity).
    cbn [snd trace log initial opened app]. eauto.
  - unfold replay. cbn. eauto.
Qed.

(** C6, as amended.  A body that parses as JSON is destructured: the
    body [null] cannot be, and is answered 500.  Any other body is
    answered 400, with the message "Missing required fields" and
    nothing else done, when [symbols] has no truthy length (it is
    missing, [null], a number, a boolean, an empty array or string, an
    object without a truthy [length]) or when [startDate] or [endDate]
    is falsy (missing, [null], [false], zero or the empty string).
    Every other body is answered 200 with the stream, which is created
    first, whatever [interval] is. *)
Theorem validation_gate (body : Json.json) :
  let answer := POST yahooFinance Parser_parse {| json := Normal body |} initial in
  let field := fun key =>
    match body with
    | Json.JObject members => Json.lookup key members
    | _ => None
    end in
  let refused :=
    Lengthless (field "symbols") \/ Falsy (field "startDate") \/ Falsy (field "endDate") in
  (body = Json.JNull ->
   answer
   = (Normal (NextResponse_json (JSON_stringify_message "Failed to fetch stock data") 500),
      log (ConsoleError "Error fetching stock data:" (TypeError null_destructuring_message))
        initial))
  /\ (body <> Json.JNull -> refused ->
      answer
      = (Normal (NextResponse_json (JSON_stringify_message "Missing required fields") 400),
         initial))
  /\ (body <> Json.JNull -> ~ refused ->
      fst answer = Normal (StreamResponse 200 streamHeaders)
      /\ exists rest, trace (snd answer) = NewTransformStream :: rest)
  /\ Json.JSON_parse (JSON_stringify_message "Missing required fields")
     = Normal (Json.JObject [("message", Json.JString "Missing required fields")]).
Proof.
  intros answer field refused.
  assert (Hgate : missing body = false <-> ~ refused).
  { subst refused field. unfold missing. fold (binding body "symbols").
    fold (binding body "startDate"). fold (binding body "endDate").
    rewrite <- has_length_false, <- !truthy_value_false.
    destruct (has_length (binding body "symbols")),
             (Json.truthy_value (binding body "startDate")),
             (Json.truthy_value (binding body "endDate")); cbn; split; intros H;
      try discriminate; try reflexivity; try tauto;
      try (intros [H'|[H'|H']]; discriminate). }
  assert (Hrun : body <> Json.JNull ->
            answer
            = if missing body
              then (Normal (NextResponse_json
                              (JSON_stringify_message "Missing required fields") 400),
                    initial)
              else (Normal (StreamResponse 200 streamHeaders),
                    snd (spawn (detached yahooFinance Parser_parse body)
                           (log NewTransformStream initial)))).
  { intros Hbody. subst answer.
    unfold POST, try_catch, bind at 1, await. cbn [json].
    unfold bind at 1, destructure.
    destruct body; try contradiction; unfold ret at 1;
      (destruct (missing _) eqn:Hm;
       [reflexivity
       |unfold bind, perform, ret, spawn;
        match goal with
        | |- context [detached ?y ?p ?b ?w0] =>
            destruct (detached y p b w0) as [[[]|e] w']
        end; reflexivity]). }
  split; [|split; [|split]].
  - intros ->. reflexivity.
  - intros Hbody Href. rewrite (Hrun Hbody).
    destruct (missing body) eqn:Hm; [reflexivity|].
    exfalso. now apply (proj1 Hgate).
  - intros Hbody Href. rewrite (Hrun Hbody), (proj2 Hgate Href). cbn [fst snd].
    split; [reflexivity | apply detached_after].
  - reflexivity.
Qed.

End Answers.


(* ------------------------------------------------------------------ *)
(** ** The theorems at sample requests                                 *)
(* ------------------------------------------------------------------ *)

Section Evaluations.
Import Js Route Sample.

(** C2.  The page does not take the payload of a complete event as
    CSV text: it hands the data line to [JSON.parse].  On the stream
    the route produces for one good symbol, which ends in one complete
    event, the page saves nothing and ends showing the message of the
    [SyntaxError] that [JSON.parse] throws, in whatever engine runs the
    page, on the header line of the CSV. *)
Theorem complete_event_is_not_saved (engine : Engine) :
  let chunks := body market posix (parsed (request ["AAPL"])) in
  let final := Page.handleResponse (Some chunks) idle in
  List.length (filter (isEvent "complete") chunks) = 1
  /\ Page.saves final = []
  /\ Page.errorText final = JSON_parse_message (Json2csv.getHeader fields)
  /\ Page.loading final = false.
Proof. vm_compute. repeat split. Qed.






(** C6 as stated fails on a date that is present and empty: no field
    of the body is missing, the symbol list is not empty, and the
    answer is 400. *)
Lemma empty_start_date_is_rejected :
  let body :=
    Json.JObject [("symbols", Json.JArray [Json.JString "AAPL"]);
                  ("startDate", Json.JString "");
                  ("endDate", Json.JString "2023-01-05");
                  ("interval", Json.JString "1d")] in
  binding body "symbols" = Some (Json.JArray [Json.JString "AAPL"])
  /\ binding body "startDate" = Some (Json.JString "")
  /\ binding body "endDate" = Some (Json.JString "2023-01-05")
  /\ POST market posix {| json := Normal body |} initial
     = (Normal (NextResponse_json (JSON_stringify_message "Missing required fields") 400),
        initial).
Proof. cbv zeta. repeat split. Qed.

Lemma rows_in_order_witness :
  let r := request ["MSFT"; "BAD"; "AAPL"] in
  exists csv,
    last (body market posix (parsed r)) "" = block "complete" csv
    /\ map (fun record => (Csv.column 0 record, Csv.column 1 record)) (tl (Csv.read csv))
       = [("MSFT", "2023-01-03T00:00:00.000Z"); ("MSFT", "2023-01-04T00:00:00.000Z");
          ("AAPL", "2023-01-03T00:00:00.000Z"); ("AAPL", "2023-01-04T00:00:00.000Z")].
Proof.
  destruct (rows_in_processing_order market Json2csv.Posix
              (request ["MSFT"; "BAD"; "AAPL"]) ["MSFT"; "BAD"; "AAPL"] eq_refl eq_refl)
    as [_ [_ H]].
  destruct (H ltac:(discriminate)) as [csv [Hlast Hcols]].
  exists csv. split; [exact Hlast|]. rewrite Hcols. reflexivity.
Defined.

Lemma writer_closed_witness :
  let r := request ["AAPL"] in
  let stayed := snd (POST market brokenParser (parsed r) (opened stays)) in
  let left := snd (POST market brokenParser (parsed r) (opened absent)) in
  missingRequiredFields r = false
  /\ closed stayed = true
  /\ List.length (filter isClose (trace stayed)) = 1
  /\ filter isUnhandled (trace stayed) = []
  /\ closed left = false
  /\ filter isClose (trace left) = []
  /\ filter isUnhandled (trace left) = [UnhandledRejection (OtherValue "cancelled")].
Proof.
  destruct (writer_closed_exactly_once market brokenParser stays (request ["AAPL"])
              ["AAPL"] eq_refl eq_refl) as [Hstays _].
  destruct (Hstays (fun k _ => eq_refl)) as [H1 [H2 [H3 _]]].
  destruct (writer_closed_exactly_once market brokenParser absent (request ["AAPL"])
              ["AAPL"] eq_refl eq_refl) as [_ Hleaves].
  destruct (Hleaves 0 (OtherValue "cancelled") (Nat.le_0_l 2)
              (fun i Hi => match Nat.nlt_0_r i Hi with end) eq_refl)
    as [H4 [H5 [_ H6]]].
  cbv zeta. split; [reflexivity|].
  split; [exact H1|]. split; [exact H2|]. split; [exact H3|].
  split; [exact H4|]. split; [exact (H6 (Nat.le_0_l 1)) | exact H5].
Defined.

(** C8 as stated fails when the consumer of the stream goes away: for
    one good symbol and a consumer gone before the first chunk, the
    write of the progress event rejects, so does the write of the
    [catch] block, [close] is never called and the stream is left
    open, with the rejection unhandled. *)
Lemma consumer_gone_leaves_stream_open :
  let answer := POST market posix (parsed (request ["AAPL"])) (opened absent) in
  let w := snd answer in
  fst answer = Normal (StreamResponse 200 streamHeaders)
  /\ closed w = false
  /\ filter isClose (trace w) = []
  /\ trace w
     = [NewTransformStream; SetTimeout 1000; QuoteRequest "AAPL";
        HistoricalRequest "AAPL" (queryOptions (request ["AAPL"]));
        WriterWrite
          (block "progress"
             (JSON_stringify_progress
                {| type := "progress"; current := 1; total := 1; error := None |}));
        ConsoleError "Error processing data:" (OtherValue "cancelled");
        WriterWrite (block "error" (JSON_stringify_error "An error occurred"));
        UnhandledRejection (OtherValue "cancelled")]
  /\ readable w = []
  /\ filter isUnhandled (trace w) = [UnhandledRejection (OtherValue "cancelled")].
Proof. vm_compute. repeat split. Qed.

Lemma empty_history_witness :
  let r := request ["EMPTY"; "EMPTY"] in
  let stream := body market posix (parsed r) in
  stream
  = (map (fun j => block "progress"
                     (JSON_stringify_progress
                        {| type := "progress"; current := j; total := 2; error := None |}))
       [1; 2]
     ++ [block "error" (JSON_stringify_error "No valid data retrieved for any symbols")])%list
  /\ Wire.errorEvent (last stream "") "No valid data retrieved for any symbols".
Proof.
  destruct (empty_history_is_not_a_failure market posix (request ["EMPTY"; "EMPTY"])
              ["EMPTY"; "EMPTY"] eq_refl eq_refl) as [_ H].
  destruct H as [Hbody [_ [Hlast _]]].
  - intros [|[|i]] s Hs; cbn in Hs; try (injection Hs as <-); try (exists tt; now split).
    destruct i; discriminate.
  - split; [exact Hbody | exact Hlast].
Defined.


Lemma history_requested_witness :
  let r := request ["AAPL"; "BAD"; "BOOM"; "MSFT"] in
  let options := {| period1 := "2023-01-01"; period2 := "2023-01-05";
                    interval_option := Some (Json.JString "1d") |} in
  filter Wire.isHistorical (calls market posix (parsed r))
  = [HistoricalRequest "AAPL" options; HistoricalRequest "MSFT" options].
Proof.
  exact (history_requested_after_a_quote market posix
           (request ["AAPL"; "BAD"; "BOOM"; "MSFT"]) ["AAPL"; "BAD"; "BOOM"; "MSFT"]
           eq_refl eq_refl).
Defined.



Lemma body_without_blank_line_witness :
  Page.handleResponse
    (Some ["{ message: "; "Missing required fields }"; String LF "and a line"]) idle
  = Page.setLoading false idle.
Proof.
  exact (body_without_blank_line_is_ignored
           ["{ message: "; "Missing required fields }"; String LF "and a line"] idle eq_refl).
Defined.

Lemma no_data_witness :
  let r := request ["BAD"; "EMPTY"] in
  let final := Page.handleResponse (Some (body market posix (parsed r))) idle in
  Page.errorText final = "No valid data retrieved for any symbols"
  /\ Page.saves final = [].
Proof.
  destruct (no_data_is_shown market posix (request ["BAD"; "EMPTY"]) ["BAD"; "EMPTY"]
              (body market posix (parsed (request ["BAD"; "EMPTY"]))) idle
              eq_refl eq_refl eq_refl eq_refl) as [H1 [H2 _]].
  split; [exact H1 | exact H2].
Defined.

Lemma serialiser_failure_shown_witness :
  let r := request ["AAPL"] in
  let final := Page.handleResponse (Some (body market brokenParser (parsed r))) idle in
  Page.errorText final = "Cannot serialise" /\ Page.saves final = [].
Proof.
  destruct (serialiser_failure_is_shown market brokenParser (request ["AAPL"]) ["AAPL"]
              (Error "Cannot serialise")
              (body market brokenParser (parsed (request ["AAPL"]))) idle
              eq_refl eq_refl ltac:(discriminate) eq_refl eq_refl) as [H1 [H2 _]].
  split; [exact H1 | exact H2].
Defined.

Lemma csv_never_saved_witness :
  let r := request ["AAPL"; "BAD"] in
  let served := body market (Json2csv.Parser_parse Json2csv.Windows) (parsed r) in
  let final := Page.handleResponse (Some [String.concat "" served]) idle in
  Page.errorText final = JSON_parse_message (Wire.headerLine Json2csv.Windows)
  /\ Page.saves final = [].
Proof.
  destruct (csv_is_never_saved market Json2csv.Windows (request ["AAPL"; "BAD"])
              ["AAPL"; "BAD"]
              [String.concat ""
                 (body market (Json2csv.Parser_parse Json2csv.Windows)
                    (parsed (request ["AAPL"; "BAD"])))] idle
              eq_refl eq_refl ltac:(discriminate) eq_refl) as [H1 [H2 _]].
  split; [exact H1 | exact H2].
Defined.

Lemma missing_date_witness :
  let outcome := Page.handleSubmit (Wire.serve market posix asWritten) blankDates idle in
  List.length (snd outcome) = 1 /\ Page.errorText (fst outcome) = "".
Proof.
  destruct (missing_date_is_refused_silently (unicode := unicode) market posix asWritten
              (fun chunks => eq_refl) blankDates idle
              ltac:(intros H; vm_compute in H; discriminate H) (or_introl eq_refl))
    as [p [H1 [_ [H2 _]]]].
  split; [now rewrite H1 | exact H2].
Defined.

Lemma submitted_form_witness :
  let outcome := Page.handleSubmit (Wire.serve market posix asWritten) filled idle in
  Page.errorText (fst outcome) = JSON_parse_message (Wire.headerLine Json2csv.Posix)
  /\ Page.saves (fst outcome) = [].
Proof.
  destruct (submitted_form_saves_nothing (unicode := unicode) market asWritten (fun chunks => eq_refl)
              Json2csv.Posix filled idle
              ltac:(intros H; vm_compute in H; discriminate H)
              ltac:(discriminate) ltac:(discriminate)
              ltac:(intros H; vm_compute in H; discriminate H)) as [_ [H1 [H2 _]]].
  split; [exact H1 | exact H2].
Defined.

Lemma event_data_witness :
  Page.errorText (Page.handleResponse (Some [block "note" "hello"]) idle)
  = JSON_parse_message "hello".
Proof.
  rewrite (event_data_must_be_json "note" "hello"
             (SyntaxError (JSON_parse_message "hello")) idle
             eq_refl eq_refl eq_refl).
  reflexivity.
Defined.

Lemma unknown_event_witness :
  Page.handleResponse (Some [block "ping" "1"]) idle = Page.setLoading false idle.
Proof.
  exact (unknown_event_is_passed_over "ping" "1" (Json.JNumber "1") idle
           eq_refl eq_refl eq_refl ltac:(discriminate) ltac:(discriminate)
           ltac:(discriminate)).
Defined.

End Evaluations.
